(** * Dual-venue arbitrage detector: symbol normaliser, connection health
      monitor, opportunity detector and slot decision engine.

    Shallow embedding of

      - [src/exchanges/mexc-futures.ts]   ([toCommonFormat], [toMexcFormat],
                                           [getPrice])
      - [src/exchanges/binance-futures.ts] ([getPrice])
      - [src/utils/websocket-monitor.ts]  ([WebSocketMonitor])
      - [src/arbitrage-detector.ts]       ([fetchTopPairs], [onPriceUpdate],
                                           [checkArbitrage],
                                           [handleNewOpportunity],
                                           [getCurrentPrices])

    Modelling conventions.

    - A JavaScript [number] holding a price, a fee or a percentage is an exact
      rational ([Q]).  Comparisons are exact on IEEE binary64, so the control
      flow is the program's; the percentages it computes are rounded.  Where a
      statement compares computed percentages, the cost model is taken over an
      arithmetic that returns each result with a bounded relative error
      (module [Rounding]), of which exact arithmetic and binary64 (module
      [Binary64]) are instances.  Infinities and NaN are outside the model.
      Millisecond clock readings ([Date.now()]) are integers ([Z]) and are
      passed in as arguments.
      A division by zero, which the program evaluates to an infinity or to
      NaN, has no counterpart either; the statements that depend on a quotient
      assume a positive divisor.
    - A JavaScript string is a [string]; the symbols the venues use are
      ASCII.
    - A JavaScript [Map] keyed by strings is a [gmap]; where the code iterates
      a [Map] in insertion order (the open pairings), it is an association
      list in that order.
    - The [TradeExecutor] class is not part of the sources at hand.  What the
      detector reads from it ([getOpenPositions], [canOpenNewPosition]) is an
      input, and every method the detector invokes on it for effect appears,
      in program order, in the list of calls a function returns. *)

From Stdlib Require Import QArith Qround Qabs Lqa.
From Stdlib Require Import Sorting.Sorted.
From Stdlib Require Import Floats.PrimFloat Floats.SpecFloat Floats.FloatOps.
From stdpp Require Import base gmap strings list pretty sorting.

Open Scope string_scope.

(** ** JavaScript string primitives used by the sources *)

Module JsString.

(** [strip_prefix pat s] is [Some r] exactly when [s = pat ++ r]. *)
Fixpoint strip_prefix (pat s : string) : option string :=
  match pat with
  | EmptyString => Some s
  | String a pat' =>
      match s with
      | EmptyString => None
      | String b s' =>
          if Ascii.eqb a b then strip_prefix pat' s' else None
      end
  end.

(** [String.prototype.replace] with a string pattern: only the first
    occurrence is replaced.  Neither replacement used by the sources
    contains a dollar sign, so no replacement pattern is expanded. *)
Fixpoint replace (pat rep s : string) : string :=
  match strip_prefix pat s with
  | Some rest => rep +:+ rest
  | None =>
      match s with
      | EmptyString => EmptyString
      | String c s' => String c (replace pat rep s')
      end
  end.

(** [String.prototype.indexOf], [None] standing for [-1]. *)
Fixpoint indexOf (pat s : string) : option nat :=
  match strip_prefix pat s with
  | Some _ => Some 0
  | None =>
      match s with
      | EmptyString => None
      | String _ s' => S <$> indexOf pat s'
      end
  end.

Definition includes (pat s : string) : bool :=
  match indexOf pat s with Some _ => true | None => false end.

Definition endsWith (suffix s : string) : bool :=
  match strip_prefix (String.rev suffix) (String.rev s) with
  | Some _ => true
  | None => false
  end.

End JsString.

(** ** JavaScript number formatting used by the sources *)

Module JsNumber.

(** The [f] low decimal digits of [n], most significant first. *)
Fixpoint fractionDigits (f : nat) (n : N) : string :=
  match f with
  | O => ""
  | S f' =>
      String (pretty_N_char ((n `div` 10 ^ N.of_nat f') `mod` 10)%N)
             (fractionDigits f' n)
  end.

(** [Number.prototype.toFixed] on the rational model, for magnitudes below
    10^21 (above, the program would get the exponent notation): the integer
    [n] nearest to [|x| * 10^f], the larger one on a tie, is printed with a
    point before its last [f] digits; the sign is that of [x] itself, so a
    negative [x] that rounds to zero keeps its minus sign. *)
Definition toFixed (f : nat) (x : Q) : string :=
  let n := Z.to_N (Qfloor (Qabs x * inject_Z (10 ^ Z.of_nat f) + (1 # 2))) in
  let scale := (10 ^ N.of_nat f)%N in
  let body :=
    pretty (n `div` scale)%N
    +:+ (if (f =? 0)%nat then "" else "." +:+ fractionDigits f (n `mod` scale)%N)
  in
  if Qlt_le_dec x 0 then "-" +:+ body else body.

End JsNumber.

(** ** [src/types/exchange.ts] *)

Inductive ExchangeName := binance | mexc.

#[global] Instance ExchangeName_eq_dec : EqDecision ExchangeName.
Proof. solve_decision. Defined.

#[global] Instance ExchangeName_countable : Countable ExchangeName.
Proof.
  refine (inj_countable'
            (fun e => match e with binance => true | mexc => false end)
            (fun b : bool => if b then binance else mexc) _).
  by intros [].
Defined.

Record TickerPrice := mkTickerPrice {
  tp_symbol : string;
  tp_price : Q;
  tp_bid : Q;
  tp_ask : Q;
  tp_timestamp : Z;
  tp_exchange : ExchangeName
}.

Record ArbitrageOpportunity := mkOpportunity {
  opp_symbol : string;
  opp_buyExchange : ExchangeName;
  opp_sellExchange : ExchangeName;
  opp_buyPrice : Q;
  opp_sellPrice : Q;
  opp_spreadPercent : Q;
  opp_profitPercent : Q;
  opp_timestamp : Z
}.

(** The fields of [Position] and [PositionPair] that the detector reads. *)
Record Position := mkPosition {
  pos_id : string;
  pos_symbol : string;
  pos_exchange : ExchangeName;
  pos_entryPrice : Q
}.

Record PositionPair := mkPositionPair {
  pair_id : string;
  pair_symbol : string;
  longPosition : Position;
  shortPosition : Position
}.

Inductive SkipReason :=
| INSUFFICIENT_BALANCE
| POSITION_NOT_PROFITABLE
| NO_FREE_SLOTS
| SYMBOL_ALREADY_OPEN
| PROFIT_BELOW_THRESHOLD
| SPREAD_CLOSED
| LIQUIDITY_LOW.

#[global] Instance SkipReason_eq_dec : EqDecision SkipReason.
Proof. solve_decision. Defined.

(** ** [src/types/config.ts] (the settings the detector consults) *)

Record FeeConfig := mkFeeConfig { maker : Q; taker : Q }.

Record Config := mkConfig {
  arbitrage_minSpreadPercent : Q;
  arbitrage_excludePairs : list string;
  notifications_minSpreadToNotify : Q;
  fees_binance : FeeConfig;
  fees_mexc : FeeConfig;
  slippage_percent : Q;
  trading_enabled : bool;
  trading_closeOnNewOpportunity : bool
}.

(** [config.fees[exchange]] *)
Definition fees (config : Config) (exchange : ExchangeName) : FeeConfig :=
  match exchange with
  | binance => fees_binance config
  | mexc => fees_mexc config
  end.

Record TradingPair := mkTradingPair {
  symbol : string;
  baseAsset : string;
  quoteAsset : string;
  volume24h : option Q
}.

(** The fields of [Ticker24h] that [getTopPairs] reads. *)
Record Ticker24h := mkTicker24h {
  t24_symbol : string;
  t24_quoteVolume : Q
}.

(** ** JavaScript array primitives used by the sources *)

Module JsArray.

(** [xs.slice(0, end)] for an integer [end]; a negative [end] counts from
    the end of the array. *)
Definition slice0 {A : Type} (endIndex : Z) (xs : list A) : list A :=
  if (endIndex <? 0)%Z
  then take (Z.to_nat (Z.max (Z.of_nat (length xs) + endIndex) 0)) xs
  else take (Z.to_nat endIndex) xs.

(** [xs.sort(compare)].  The sort of the language is stable, so its result
    is determined by the comparator; it is computed here by insertion.  The
    element [x], which stood before those of [sorted], goes behind the
    elements [y] that the comparator puts first ([compare x y > 0]) and
    before the others. *)
Fixpoint insert {A : Type} (compare : A -> A -> Q) (x : A) (sorted : list A)
  : list A :=
  match sorted with
  | [] => [x]
  | y :: rest =>
      if Qlt_le_dec 0 (compare x y) then y :: insert compare x rest
      else x :: sorted
  end.

Definition sort {A : Type} (compare : A -> A -> Q) (xs : list A) : list A :=
  foldr (insert compare) [] xs.

End JsArray.

(** ** What a REST call and a stream message look like to the clients *)

(** The outcome of [await fetch(url)] followed by [response.json()]: an
    exception, or a response with its [ok] flag and its parsed body. *)
Inductive Fetched (A : Type) :=
| threw
| responded (ok : bool) (body : A).
Arguments threw {A}.
Arguments responded {A} ok body.

(** What the [message] handler of a feed client does with a message. *)
Inductive FeedOutcome :=
| delivered (price : TickerPrice)
| confirmed (subscribed : string)
| ignored
| parse_error.

(** ** [src/exchanges/binance-futures.ts] *)

Module BinanceFutures.

Record t := mk { priceCache : gmap string TickerPrice }.

Definition getPrice (symbol : string) (self : t) : option TickerPrice :=
  priceCache self !! symbol.

(** [getTopPairs(limit)], given the outcome of the REST call; [None] is the
    exception it rethrows. *)
Definition getTopPairs (limit : Z) (response : Fetched (list Ticker24h))
  : option (list TradingPair) :=
  match response with
  | threw => None
  | responded false _ => None
  | responded true data =>
      let usdtPairs :=
        JsArray.slice0 limit
          (JsArray.sort
             (fun a b => (t24_quoteVolume b - t24_quoteVolume a)%Q)
             (List.filter
                (fun ticker => JsString.endsWith "USDT" (t24_symbol ticker))
                data)) in
      Some (map (fun ticker =>
                   mkTradingPair (t24_symbol ticker)
                                 (JsString.replace "USDT" "" (t24_symbol ticker))
                                 "USDT"
                                 (Some (t24_quoteVolume ticker)))
                usdtPairs)
  end.

(** The fields of a [bookTicker] payload the [message] handler reads;
    [ticker.c] and [ticker.T] may be missing. *)
Record Ticker := mkTicker {
  ticker_s : string;
  ticker_c : option Q;
  ticker_b : Q;
  ticker_a : Q;
  ticker_T : option Z
}.

(** A stream message after [JSON.parse]: unparsable, without [data], or
    with it. *)
Inductive Message :=
| malformed
| without_data
| with_data (ticker : Ticker).

(** The [message] handler of [connectWebSocket]; [now] is [Date.now()].  A
    [delivered] price is the one handed to the [onPriceUpdate] callback. *)
Definition onMessage (now : Z) (msg : Message) (self : t) : t * FeedOutcome :=
  match msg with
  | malformed => (self, parse_error)
  | without_data => (self, ignored)
  | with_data ticker =>
      let price :=
        mkTickerPrice
          (ticker_s ticker)
          (match ticker_c ticker with
           | Some c => c
           | None => ticker_b ticker
           end)
          (ticker_b ticker)
          (ticker_a ticker)
          (match ticker_T ticker with
           | Some T => if (T =? 0)%Z then now else T
           | None => now
           end)
          binance in
      (mk (<[tp_symbol price := price]> (priceCache self)), delivered price)
  end.

End BinanceFutures.

(** ** [src/exchanges/mexc-futures.ts] *)

Module MexcFutures.

Record t := mk { priceCache : gmap string TickerPrice }.

Definition getPrice (symbol : string) (self : t) : option TickerPrice :=
  priceCache self !! symbol.

(** MEXC [BTC_USDT] to Binance [BTCUSDT]. *)
Definition toCommonFormat (mexcSymbol : string) : string :=
  JsString.replace "_" "" mexcSymbol.

(** Binance [BTCUSDT] to MEXC [BTC_USDT]. *)
Definition toMexcFormat (binanceSymbol : string) : string :=
  JsString.replace "USDT" "_USDT" binanceSymbol.

(** The fields of an entry of the ticker answer that [getTopPairs] reads. *)
Record TickerEntry := mkTickerEntry {
  entry_symbol : string;
  entry_amount24 : Q
}.

(** [MexcTickerResponse]; [data] may be missing. *)
Record MexcTickerResponse := mkMexcTickerResponse {
  success : bool;
  data : option (list TickerEntry)
}.

(** [getTopPairs(limit)], given the outcome of the REST call; [None] is the
    exception it rethrows. *)
Definition getTopPairs (limit : Z) (response : Fetched MexcTickerResponse)
  : option (list TradingPair) :=
  match response with
  | threw => None
  | responded false _ => None
  | responded true json =>
      match success json, data json with
      | true, Some entries =>
          let usdtPairs :=
            JsArray.slice0 limit
              (JsArray.sort
                 (fun a b => (entry_amount24 b - entry_amount24 a)%Q)
                 (List.filter
                    (fun ticker =>
                       JsString.endsWith "_USDT" (entry_symbol ticker))
                    entries)) in
          Some (map (fun ticker =>
                       mkTradingPair
                         (entry_symbol ticker)
                         (JsString.replace "_USDT" "" (entry_symbol ticker))
                         "USDT"
                         (Some (entry_amount24 ticker)))
                    usdtPairs)
      | _, _ => None
      end
  end.

(** The fields of a [push.ticker] payload the [message] handler reads;
    [timestamp] may be missing. *)
Record Ticker := mkTicker {
  ticker_symbol : string;
  ticker_lastPrice : Q;
  ticker_bid1 : Q;
  ticker_ask1 : Q;
  ticker_timestamp : option Z
}.

(** A stream message after [JSON.parse]: unparsable, a [push.ticker] with or
    without [data], a [rs.sub.ticker] with its [data] array (empty when it
    is missing), or a message of another channel. *)
Inductive Message :=
| malformed
| push_ticker (payload : option Ticker)
| rs_sub_ticker (payload : list string)
| other_channel.

(** The [message] handler of [connectWebSocket]; [now] is [Date.now()].  A
    [delivered] price is the one handed to the [onPriceUpdate] callback. *)
Definition onMessage (now : Z) (msg : Message) (self : t) : t * FeedOutcome :=
  match msg with
  | malformed => (self, parse_error)
  | push_ticker (Some ticker) =>
      let price :=
        mkTickerPrice
          (ticker_symbol ticker)
          (ticker_lastPrice ticker)
          (ticker_bid1 ticker)
          (ticker_ask1 ticker)
          (match ticker_timestamp ticker with
           | Some T => if (T =? 0)%Z then now else T
           | None => now
           end)
          mexc in
      (mk (<[tp_symbol price := price]> (priceCache self)), delivered price)
  | rs_sub_ticker (first :: _) => (self, confirmed first)
  | _ => (self, ignored)
  end.

End MexcFutures.

(** ** [src/utils/websocket-monitor.ts] *)

Record WebSocketDowntime := mkDowntime {
  dt_exchange : ExchangeName;
  disconnectTime : Z;
  reconnectTime : option Z;
  durationMs : option Z;
  dt_reason : string
}.

Module WebSocketMonitor.

Record t := mk {
  downtimes : list WebSocketDowntime;
  currentDowntime : gmap ExchangeName WebSocketDowntime
}.

(** [new WebSocketMonitor()] *)
Definition new : t := mk [] ∅.

(** [now] is the value of [Date.now()] read by the call. *)
Definition recordDisconnect
    (exchange : ExchangeName) (reason : string) (now : Z) (self : t) : t :=
  let downtime := mkDowntime exchange now None None reason in
  mk (downtimes self) (<[exchange := downtime]> (currentDowntime self)).

Definition recordReconnect (exchange : ExchangeName) (now : Z) (self : t) : t :=
  match currentDowntime self !! exchange with
  | Some downtime =>
      let downtime' :=
        mkDowntime (dt_exchange downtime) (disconnectTime downtime)
                   (Some now) (Some (now - disconnectTime downtime)%Z)
                   (dt_reason downtime) in
      mk (downtimes self ++ [downtime'])%list
         (delete exchange (currentDowntime self))
  | None => self
  end.

Definition getDowntimes (self : t) : list WebSocketDowntime :=
  downtimes self.

(** [Array.from(this.currentDowntime.values())]; the order of the result
    is that of the keys, which is immaterial below. *)
Definition getCurrentDowntimes (self : t) : list WebSocketDowntime :=
  (map_to_list (currentDowntime self)).*2.

Definition clear (self : t) : t := mk [] ∅.

Record VenueStats := mkVenueStats {
  disconnects : nat;
  totalDowntimeMs : Z;
  totalDowntimeMinutes : string
}.

Record Stats := mkStats {
  totalDisconnects : nat;
  stats_binance : VenueStats;
  stats_mexc : VenueStats;
  stats_totalDowntimeMs : Z;
  stats_totalDowntimeMinutes : string
}.

(** [ds.reduce((sum, d) => sum + (d.durationMs || 0), 0)] *)
Definition sumDurations (ds : list WebSocketDowntime) : Z :=
  fold_left (fun sum d => (sum + default 0 (durationMs d))%Z) ds 0%Z.

(** [(ms / 60000).toFixed(2)] *)
Definition minutes (ms : Z) : string :=
  JsNumber.toFixed 2 (inject_Z ms / 60000)%Q.

Definition getStats (self : t) : Stats :=
  let binanceDowntimes :=
    List.filter (fun d => bool_decide (dt_exchange d = binance))
                (downtimes self) in
  let mexcDowntimes :=
    List.filter (fun d => bool_decide (dt_exchange d = mexc))
                (downtimes self) in
  let binanceTotalDowntime := sumDurations binanceDowntimes in
  let mexcTotalDowntime := sumDurations mexcDowntimes in
  mkStats (length (downtimes self))
          (mkVenueStats (length binanceDowntimes) binanceTotalDowntime
                        (minutes binanceTotalDowntime))
          (mkVenueStats (length mexcDowntimes) mexcTotalDowntime
                        (minutes mexcTotalDowntime))
          (binanceTotalDowntime + mexcTotalDowntime)%Z
          (minutes (binanceTotalDowntime + mexcTotalDowntime)%Z).

End WebSocketMonitor.

(** ** The socket handlers of the feed clients that report to the monitor
       ([src/exchanges/binance-futures.ts], [src/exchanges/mexc-futures.ts])

    The two clients differ only in the venue name they pass; [venue] is that
    name, [monitor] the [wsMonitor] the client was built with, and [now] the
    clock the monitor reads. *)

Module Socket.

(** [ws.on('error', ...)] *)
Definition onError (venue : ExchangeName) (message : string) (now : Z)
           (monitor : WebSocketMonitor.t) : WebSocketMonitor.t :=
  WebSocketMonitor.recordDisconnect venue ("Error: " +:+ message) now monitor.

(** [reason.toString() || `Code: ${code}`] *)
Definition reasonText (code : N) (reason : string) : string :=
  match reason with
  | EmptyString => "Code: " +:+ pretty code
  | _ => reason
  end.

(** [ws.on('close', ...)], as far as the monitor is concerned. *)
Definition onClose (venue : ExchangeName) (code : N) (reason : string)
           (now : Z) (monitor : WebSocketMonitor.t) : WebSocketMonitor.t :=
  WebSocketMonitor.recordDisconnect venue (reasonText code reason) now monitor.

(** The second [ws.on('open', ...)] *)
Definition onOpen (venue : ExchangeName) (now : Z)
           (monitor : WebSocketMonitor.t) : WebSocketMonitor.t :=
  WebSocketMonitor.recordReconnect venue now monitor.

End Socket.

(** A venue's feed client reports to the monitor by these two calls. *)
Inductive MonitorEvent :=
| Disconnect (exchange : ExchangeName) (reason : string) (now : Z)
| Reconnect (exchange : ExchangeName) (now : Z).

Definition apply_event (self : WebSocketMonitor.t) (ev : MonitorEvent)
  : WebSocketMonitor.t :=
  match ev with
  | Disconnect e r now => WebSocketMonitor.recordDisconnect e r now self
  | Reconnect e now => WebSocketMonitor.recordReconnect e now self
  end.

Definition run_events (evs : list MonitorEvent) (self : WebSocketMonitor.t)
  : WebSocketMonitor.t :=
  fold_left apply_event evs self.

(** ** Comparison of JavaScript numbers, on their rational model *)

Module Num.

Definition lt (x y : Q) : bool := if Qlt_le_dec x y then true else false.
Definition gt (x y : Q) : bool := lt y x.
Definition ge (x y : Q) : bool := negb (lt x y).

End Num.

(** ** The boundary with the logger and the trade executor *)

(** One constructor per method the detector invokes for effect.  A log line
    keeps the symbol of the pairing it is about; its text is not modelled. *)
Inductive Call :=
| logger_warn (pairSymbol : string)
| logger_info (pairSymbol : string)
| openPositionPair (opportunity : ArbitrageOpportunity)
| closePositionManually (pairId : string) (exitBuyPrice exitSellPrice : Q)
| recordSkippedOpportunity
    (opportunity : ArbitrageOpportunity) (reason : SkipReason)
    (availableBalance requiredBalance currentPositionProfit : option Q)
| updatePositionSpread (symbol : string) (buyPrice sellPrice : Q).

(** What the detector reads from the trade executor: the open pairings in
    the iteration order of [getOpenPositions().entries()], and the answer of
    [canOpenNewPosition()]. *)
Record TradeExecutor := mkTradeExecutor {
  getOpenPositions : list (string * PositionPair);
  canOpenNewPosition : bool
}.

Definition is_open_call (c : Call) : bool :=
  match c with openPositionPair _ => true | _ => false end.

Definition is_close_call (c : Call) : bool :=
  match c with closePositionManually _ _ _ => true | _ => false end.

Definition is_log (c : Call) : bool :=
  match c with logger_warn _ | logger_info _ => true | _ => false end.

(** The calls that reach the trade executor. *)
Definition ledgerCalls (calls : list Call) : list Call :=
  List.filter (fun c => negb (is_log c)) calls.

(** The reasons of the skip records written, in order. *)
Definition skipReasons (calls : list Call) : list SkipReason :=
  omap (fun c => match c with
                 | recordSkippedOpportunity _ r _ _ _ => Some r
                 | _ => None
                 end) calls.

(** ** [src/arbitrage-detector.ts] *)

Record CurrentPrices := mkCurrentPrices { buyPrice : Q; sellPrice : Q }.

Module ArbitrageDetector.

Local Open Scope Q_scope.

Record t := mk {
  config : Config;
  binance_client : BinanceFutures.t;
  mexc_client : MexcFutures.t;
  commonSymbols : list string;
  opportunitiesFound : nat;
  totalComparisons : nat
}.

(** [Array.from(new Set(xs))]: first occurrences, in order. *)
Definition Set_from (xs : list string) : list string :=
  fold_left
    (fun acc x => if bool_decide (x ∈ acc) then acc else (acc ++ [x])%list)
    xs [].

(** [fetchTopPairs] after the two [getTopPairs] answers have arrived, given
    as the symbols of the pairs in the order received.  [None] stands for
    the exception thrown when no common pair is left. *)
Definition fetchTopPairs (binancePairs mexcPairs : list string) (self : t)
  : option t :=
  let binanceSymbols := Set_from binancePairs in
  let mexcSymbolsConverted :=
    Set_from (map MexcFutures.toCommonFormat mexcPairs) in
  let common :=
    List.filter (fun symbol => bool_decide (symbol ∈ mexcSymbolsConverted))
                binanceSymbols in
  let common :=
    if (0 <? length (arbitrage_excludePairs (config self)))%nat
    then List.filter
           (fun s =>
              negb (bool_decide (s ∈ arbitrage_excludePairs (config self))))
           common
    else common in
  if (length common =? 0)%nat then None
  else Some (mk (config self) (binance_client self) (mexc_client self)
                common (opportunitiesFound self) (totalComparisons self)).

(** The symbols [startWebSocketMonitoring] subscribes to on MEXC. *)
Definition mexcSymbols (self : t) : list string :=
  map MexcFutures.toMexcFormat (commonSymbols self).

Definition getCurrentPrices (symbol : string) (self : t)
  : option CurrentPrices :=
  match BinanceFutures.getPrice symbol (binance_client self),
        MexcFutures.getPrice (MexcFutures.toMexcFormat symbol)
                             (mexc_client self) with
  | Some binancePrice, Some mexcPrice =>
      if Num.lt (tp_ask binancePrice) (tp_bid mexcPrice)
      then Some (mkCurrentPrices (tp_ask binancePrice) (tp_bid mexcPrice))
      else Some (mkCurrentPrices (tp_ask mexcPrice) (tp_bid binancePrice))
  | _, _ => None
  end.

(** The current profit of an open pairing, as the replacement loop
    computes it ([avgPnl]). *)
Definition avgPnl (self : t) (pair : PositionPair)
           (currentPositionPrices : CurrentPrices) : Q :=
  let longExchange := pos_exchange (longPosition pair) in
  let shortExchange := pos_exchange (shortPosition pair) in
  let longFee := taker (fees (config self) longExchange) / 100 in
  let shortFee := taker (fees (config self) shortExchange) / 100 in
  let slippage := slippage_percent (config self) / 100 in
  let longEntryPrice :=
    pos_entryPrice (longPosition pair) * (1 + longFee + slippage) in
  let longExitPrice :=
    buyPrice currentPositionPrices * (1 - longFee - slippage) in
  let longPnlPercent :=
    ((longExitPrice - longEntryPrice) / longEntryPrice) * 100 in
  let shortEntryPrice :=
    pos_entryPrice (shortPosition pair) * (1 - shortFee - slippage) in
  let shortExitPrice :=
    sellPrice currentPositionPrices * (1 + shortFee + slippage) in
  let shortPnlPercent :=
    ((shortEntryPrice - shortExitPrice) / shortEntryPrice) * 100 in
  (longPnlPercent + shortPnlPercent) / 2.

(** The first loop of [handleNewOpportunity]: is there an open pairing on
    the opportunity's symbol? *)
Fixpoint symbolAlreadyOpen (symbol : string)
         (entries : list (string * PositionPair)) : bool :=
  match entries with
  | [] => false
  | (_, pair_) :: rest =>
      if String.eqb (pair_symbol pair_) symbol then true
      else symbolAlreadyOpen symbol rest
  end.

(** The replacement loop of [handleNewOpportunity] ([pair_] is the source's
    [pair]).  The boolean tells whether the loop left the function by
    [return]. *)
Fixpoint replacementLoop (self : t) (opportunity : ArbitrageOpportunity)
         (entries : list (string * PositionPair)) : list Call * bool :=
  match entries with
  | [] => ([], false)
  | (pairId, pair_) :: rest =>
      match getCurrentPrices (pair_symbol pair_) self with
      | None =>
          let '(calls, returned) := replacementLoop self opportunity rest in
          (logger_warn (pair_symbol pair_) :: calls, returned)
      | Some currentPositionPrices =>
          let avgPnl := avgPnl self pair_ currentPositionPrices in
          if Num.ge avgPnl (notifications_minSpreadToNotify (config self))
          then
            if Num.gt (opp_profitPercent opportunity) avgPnl
            then ([ logger_info (pair_symbol pair_);
                    closePositionManually pairId
                      (buyPrice currentPositionPrices)
                      (sellPrice currentPositionPrices);
                    openPositionPair opportunity ], true)
            else replacementLoop self opportunity rest
          else ([ logger_info (pair_symbol pair_);
                  recordSkippedOpportunity opportunity
                    POSITION_NOT_PROFITABLE None None (Some avgPnl) ], true)
      end
  end.

Definition handleNewOpportunity (tradeExecutor : TradeExecutor)
           (opportunity : ArbitrageOpportunity) (self : t) : list Call :=
  let openPositions := getOpenPositions tradeExecutor in
  if symbolAlreadyOpen (opp_symbol opportunity) openPositions then []
  else if canOpenNewPosition tradeExecutor
  then [ openPositionPair opportunity ]
  else
    let '(calls, returned) :=
      if trading_closeOnNewOpportunity (config self)
      then replacementLoop self opportunity openPositions
      else ([], false) in
    if returned then calls
    else (calls ++ [ recordSkippedOpportunity opportunity NO_FREE_SLOTS
                       None None None ])%list.

(** The direction test of [checkArbitrage]: where to buy, where to sell,
    and at which prices; [None] when neither ask undercuts the other bid. *)
Definition direction (price1 price2 : TickerPrice)
  : option (ExchangeName * ExchangeName * Q * Q) :=
  if Num.lt (tp_ask price1) (tp_bid price2)
  then Some (tp_exchange price1, tp_exchange price2,
             tp_ask price1, tp_bid price2)
  else if Num.lt (tp_ask price2) (tp_bid price1)
  then Some (tp_exchange price2, tp_exchange price1,
             tp_ask price2, tp_bid price1)
  else None.

(** The gross spread, and below the net profit, as [checkArbitrage]
    writes them, here on exact arithmetic.  [Rounding.spreadPercent] and
    [Rounding.profitPercent] are the same two computations over an
    arithmetic that rounds, and agree with these on [Rounding.exact]; the
    statements that bound one figure by the other are made there. *)
Definition spreadPercentOf (buyPrice sellPrice : Q) : Q :=
  ((sellPrice - buyPrice) / buyPrice) * 100.

(** The profit after fees and slippage of buying at [buyPrice] on
    [buyExchange] and selling at [sellPrice] on [sellExchange]. *)
Definition profitPercentOf (config : Config)
           (buyExchange sellExchange : ExchangeName)
           (buyPrice sellPrice : Q) : Q :=
  let buyFee := taker (fees config buyExchange) / 100 in
  let sellFee := taker (fees config sellExchange) / 100 in
  let slippage := slippage_percent config / 100 in
  let buyPriceWithFeeAndSlippage := buyPrice * (1 + buyFee + slippage) in
  let sellPriceWithFeeAndSlippage := sellPrice * (1 - sellFee - slippage) in
  ((sellPriceWithFeeAndSlippage - buyPriceWithFeeAndSlippage)
     / buyPriceWithFeeAndSlippage) * 100.

(** [checkArbitrage] up to the construction of the opportunity: [Some] is
    the object built, [None] one of the two early returns. *)
Definition detectOpportunity (now : Z) (price1 price2 : TickerPrice)
           (symbol : string) (self : t) : option ArbitrageOpportunity :=
  match direction price1 price2 with
  | None => None
  | Some (buyExchange, sellExchange, buyPrice, sellPrice) =>
      let spreadPercent := spreadPercentOf buyPrice sellPrice in
      if Num.lt spreadPercent (arbitrage_minSpreadPercent (config self))
      then None
      else
        let profitPercent :=
          profitPercentOf (config self) buyExchange sellExchange
                          buyPrice sellPrice in
        Some (mkOpportunity symbol buyExchange sellExchange
                            buyPrice sellPrice spreadPercent profitPercent
                            now)
  end.

Definition checkArbitrage (tradeExecutor : TradeExecutor) (now : Z)
           (price1 price2 : TickerPrice) (symbol : string) (self : t)
  : t * list Call :=
  let self :=
    mk (config self) (binance_client self) (mexc_client self)
       (commonSymbols self) (opportunitiesFound self)
       (S (totalComparisons self)) in
  match detectOpportunity now price1 price2 symbol self with
  | None => (self, [])
  | Some opportunity =>
      let self' :=
        mk (config self) (binance_client self) (mexc_client self)
           (commonSymbols self) (S (opportunitiesFound self))
           (totalComparisons self) in
      (self',
       ((if trading_enabled (config self)
         then handleNewOpportunity tradeExecutor opportunity self'
         else [])
        ++ [ updatePositionSpread symbol (opp_buyPrice opportunity)
                                  (opp_sellPrice opportunity) ])%list)
  end.

(** The price the other venue last quoted for the tick's instrument. *)
Definition otherPrice (price : TickerPrice) (self : t) : option TickerPrice :=
  let normalizedSymbol := MexcFutures.toCommonFormat (tp_symbol price) in
  match tp_exchange price with
  | binance =>
      let mexcSymbol := MexcFutures.toMexcFormat normalizedSymbol in
      MexcFutures.getPrice mexcSymbol (mexc_client self)
  | mexc => BinanceFutures.getPrice normalizedSymbol (binance_client self)
  end.

Definition onPriceUpdate (tradeExecutor : TradeExecutor) (now : Z)
           (price : TickerPrice) (self : t) : t * list Call :=
  let normalizedSymbol := MexcFutures.toCommonFormat (tp_symbol price) in
  match otherPrice price self with
  | None => (self, [])
  | Some otherPrice =>
      checkArbitrage tradeExecutor now price otherPrice normalizedSymbol self
  end.

(** [fetchTopPairs] from the outcomes of the two REST calls;
    [topPairsCount] is [config.arbitrage.topPairsCount]. *)
Definition fetchTopPairsFrom (topPairsCount : Z)
           (binanceResponse : Fetched (list Ticker24h))
           (mexcResponse : Fetched MexcFutures.MexcTickerResponse) (self : t)
  : option t :=
  match BinanceFutures.getTopPairs topPairsCount binanceResponse,
        MexcFutures.getTopPairs topPairsCount mexcResponse with
  | Some binancePairs, Some mexcPairs =>
      fetchTopPairs (map symbol binancePairs) (map symbol mexcPairs) self
  | _, _ => None
  end.

(** A Binance stream message, as wired by [startWebSocketMonitoring]: the
    client files the quote, then calls [onPriceUpdate] back with it.  [now]
    is the clock read by the client, [detectedAt] the one read by
    [checkArbitrage]. *)
Definition onBinanceMessage (tradeExecutor : TradeExecutor)
           (now detectedAt : Z) (msg : BinanceFutures.Message) (self : t)
  : t * list Call :=
  let '(client, outcome) :=
    BinanceFutures.onMessage now msg (binance_client self) in
  let self :=
    mk (config self) client (mexc_client self) (commonSymbols self)
       (opportunitiesFound self) (totalComparisons self) in
  match outcome with
  | delivered price => onPriceUpdate tradeExecutor detectedAt price self
  | _ => (self, [])
  end.

(** The same for a MEXC stream message. *)
Definition onMexcMessage (tradeExecutor : TradeExecutor)
           (now detectedAt : Z) (msg : MexcFutures.Message) (self : t)
  : t * list Call :=
  let '(client, outcome) :=
    MexcFutures.onMessage now msg (mexc_client self) in
  let self :=
    mk (config self) (binance_client self) client (commonSymbols self)
       (opportunitiesFound self) (totalComparisons self) in
  match outcome with
  | delivered price => onPriceUpdate tradeExecutor detectedAt price self
  | _ => (self, [])
  end.

(** [formatPercent(value, decimals = 2)], written to avoid [-0.00%] in the
    log lines. *)
Definition formatPercent (value : Q) (decimals : nat) : string :=
  if Num.lt (Qabs value) 0.005 then "0.00"
  else JsNumber.toFixed decimals value.

End ArbitrageDetector.

(** ** Vocabulary of the statements *)

Definition venueOf (ev : MonitorEvent) : ExchangeName :=
  match ev with
  | Disconnect e _ _ => e
  | Reconnect e _ => e
  end.

(** Number of [recordDisconnect] calls in a sequence of events. *)
Definition disconnectCount (evs : list MonitorEvent) : nat :=
  length (List.filter (fun ev => match ev with
                                 | Disconnect _ _ _ => true
                                 | Reconnect _ _ => false
                                 end) evs).

(** Number of [recordReconnect] calls, in a sequence of events of one venue,
    that arrive while a disconnect of that venue is pending; [pending] tells
    whether one is pending before the first event. *)
Fixpoint closedOutages (pending : bool) (evs : list MonitorEvent) : nat :=
  match evs with
  | [] => 0
  | Disconnect _ _ _ :: rest => closedOutages true rest
  | Reconnect _ _ :: rest =>
      ((if pending then 1 else 0) + closedOutages false rest)%nat
  end.

(** Is a downtime record open for venue [e]? *)
Definition pending (e : ExchangeName) (m : WebSocketMonitor.t) : bool :=
  match WebSocketMonitor.currentDowntime m !! e with
  | Some _ => true
  | None => false
  end.

(** Every open record is filed under its own venue. *)
Definition keyed (m : WebSocketMonitor.t) : Prop :=
  forall e d,
    WebSocketMonitor.currentDowntime m !! e = Some d -> dt_exchange d = e.

(** An archived downtime is complete: both times are known and the duration
    is their difference. *)
Definition completed (d : WebSocketDowntime) : Prop :=
  exists reconnect : Z,
    reconnectTime d = Some reconnect /\
    durationMs d = Some (reconnect - disconnectTime d)%Z.

(** [n] outages of one venue, each closed before the next one starts. *)
Fixpoint alternating (e : ExchangeName) (start : Z) (n : nat)
  : list MonitorEvent :=
  match n with
  | O => []
  | S n' =>
      Disconnect e "close" start :: Reconnect e (start + 3000)
        :: alternating e (start + 5000) n'
  end.

(** The first open pairing, in ledger order, for which both venues have a
    cached price, with those prices. *)
Fixpoint firstPriced (self : ArbitrageDetector.t)
         (entries : list (string * PositionPair))
  : option (PositionPair * CurrentPrices) :=
  match entries with
  | [] => None
  | (_, p) :: rest =>
      match ArbitrageDetector.getCurrentPrices (pair_symbol p) self with
      | Some prices => Some (p, prices)
      | None => firstPriced self rest
      end
  end.

(** The skip record the slot decision engine writes when every open pairing
    is below the notify threshold. *)
Definition skipWhenAllBelow (tradeExecutor : TradeExecutor)
           (opportunity : ArbitrageOpportunity) (self : ArbitrageDetector.t)
  : Call :=
  match
    (if trading_closeOnNewOpportunity (ArbitrageDetector.config self)
     then firstPriced self (getOpenPositions tradeExecutor)
     else None)
  with
  | Some (p, prices) =>
      recordSkippedOpportunity opportunity POSITION_NOT_PROFITABLE None None
        (Some (ArbitrageDetector.avgPnl self p prices))
  | None => recordSkippedOpportunity opportunity NO_FREE_SLOTS None None None
  end.

(** The clock reading an event carries. *)
Definition timeOf (ev : MonitorEvent) : Z :=
  match ev with
  | Disconnect _ _ now => now
  | Reconnect _ now => now
  end.

Definition onVenue (e : ExchangeName) (ev : MonitorEvent) : bool :=
  bool_decide (venueOf ev = e).

(** The archived downtimes of one venue. *)
Definition archiveOf (e : ExchangeName) (m : WebSocketMonitor.t)
  : list WebSocketDowntime :=
  List.filter (fun d => bool_decide (dt_exchange d = e))
              (WebSocketMonitor.getDowntimes m).

(** The record a venue's events leave open: that of its last event when
    this is a disconnect, none otherwise. *)
Definition openRecordAfter (e : ExchangeName) (evs : list MonitorEvent)
  : option WebSocketDowntime :=
  match last (List.filter (onVenue e) evs) with
  | Some (Disconnect _ r now) => Some (mkDowntime e now None None r)
  | _ => None
  end.

Definition venueStats (e : ExchangeName) (s : WebSocketMonitor.Stats)
  : WebSocketMonitor.VenueStats :=
  match e with
  | binance => WebSocketMonitor.stats_binance s
  | mexc => WebSocketMonitor.stats_mexc s
  end.

(** An archived downtime with a known, non-negative duration. *)
Definition nonNegative (d : WebSocketDowntime) : Prop :=
  exists duration : Z, durationMs d = Some duration /\ (0 <= duration)%Z.

(** A quote whose bid does not exceed its ask. *)
Definition uncrossed (p : TickerPrice) : Prop := (tp_bid p <= tp_ask p)%Q.

(** Every quote of a cache is filed under its own symbol and carries the
    venue's name. *)
Definition tagged (venue : ExchangeName) (cache : gmap string TickerPrice)
  : Prop :=
  forall key p, cache !! key = Some p ->
                tp_symbol p = key /\ tp_exchange p = venue.

(** Has the open pairing no current prices? *)
Definition unpriced (self : ArbitrageDetector.t) (e : string * PositionPair)
  : bool :=
  match ArbitrageDetector.getCurrentPrices (pair_symbol (snd e)) self with
  | Some _ => false
  | None => true
  end.

(** A symbol passes [fetchTopPairs] when Binance lists it, it is the
    canonical form of a symbol MEXC lists, and the configuration does not
    exclude it. *)
Definition passes (binancePairs mexcPairs : list string)
           (self : ArbitrageDetector.t) (s : string) : Prop :=
  s ∈ binancePairs /\
  (exists m, m ∈ mexcPairs /\ MexcFutures.toCommonFormat m = s) /\
  s ∉ arbitrage_excludePairs (ArbitrageDetector.config self).

(** One stream message reaching the detector, with the state of the trade
    executor and the two clock readings at that moment. *)
Inductive FeedEvent :=
| from_binance (tradeExecutor : TradeExecutor) (now detectedAt : Z)
               (msg : BinanceFutures.Message)
| from_mexc (tradeExecutor : TradeExecutor) (now detectedAt : Z)
            (msg : MexcFutures.Message).

Definition feed_step (self : ArbitrageDetector.t) (ev : FeedEvent)
  : ArbitrageDetector.t * list Call :=
  match ev with
  | from_binance te now detectedAt msg =>
      ArbitrageDetector.onBinanceMessage te now detectedAt msg self
  | from_mexc te now detectedAt msg =>
      ArbitrageDetector.onMexcMessage te now detectedAt msg self
  end.

(** The detector after a sequence of messages, and all the calls made. *)
Fixpoint run_feed (evs : list FeedEvent) (self : ArbitrageDetector.t)
  : ArbitrageDetector.t * list Call :=
  match evs with
  | [] => (self, [])
  | ev :: rest =>
      let '(self', calls) := feed_step self ev in
      let '(self'', calls') := run_feed rest self' in
      (self'', (calls ++ calls')%list)
  end.

(** The price a message delivers to the detector, if any. *)
Definition deliveredPrice (ev : FeedEvent) : option TickerPrice :=
  match ev with
  | from_binance _ now _ msg =>
      match snd (BinanceFutures.onMessage now msg (BinanceFutures.mk ∅)) with
      | delivered price => Some price
      | _ => None
      end
  | from_mexc _ now _ msg =>
      match snd (MexcFutures.onMessage now msg (MexcFutures.mk ∅)) with
      | delivered price => Some price
      | _ => None
      end
  end.

Definition is_update_call (c : Call) : bool :=
  match c with updatePositionSpread _ _ _ => true | _ => false end.

(** The last price a venue delivered for a symbol in a sequence of
    messages. *)
Definition lastQuote (venue : ExchangeName) (s : string)
           (evs : list FeedEvent) : option TickerPrice :=
  last (List.filter
          (fun p => bool_decide (tp_exchange p = venue /\ tp_symbol p = s))
          (omap deliveredPrice evs)).

(** The price cache of a venue's client. *)
Definition cacheOf (venue : ExchangeName) (self : ArbitrageDetector.t)
  : gmap string TickerPrice :=
  match venue with
  | binance => BinanceFutures.priceCache (ArbitrageDetector.binance_client self)
  | mexc => MexcFutures.priceCache (ArbitrageDetector.mexc_client self)
  end.

(** What the slot decision engine may call when it handles [o]: anything
    but [updatePositionSpread], and [openPositionPair] on [o] only. *)
Definition mayCall (o : ArbitrageOpportunity) (c : Call) : Prop :=
  is_update_call c = false /\
  forall o', c = openPositionPair o' -> o' = o.

(** The ledger calls of a replacement: one open pairing of the ledger, with
    current prices, at or above the notify threshold and less profitable
    than the opportunity, is closed at those prices and the opportunity is
    opened. *)
Definition replaces (te : TradeExecutor) (o : ArbitrageOpportunity)
           (self : ArbitrageDetector.t) (calls : list Call) : Prop :=
  exists pairId p prices,
    (pairId, p) ∈ getOpenPositions te /\
    ArbitrageDetector.getCurrentPrices (pair_symbol p) self = Some prices /\
    (notifications_minSpreadToNotify (ArbitrageDetector.config self)
       <= ArbitrageDetector.avgPnl self p prices)%Q /\
    (ArbitrageDetector.avgPnl self p prices < opp_profitPercent o)%Q /\
    calls = [closePositionManually pairId (buyPrice prices) (sellPrice prices);
             openPositionPair o].

(** The ledger calls of a refusal: one open pairing of the ledger, with
    current prices, is below the notify threshold, and the opportunity is
    recorded as skipped with that pairing's current profit. *)
Definition declines (te : TradeExecutor) (o : ArbitrageOpportunity)
           (self : ArbitrageDetector.t) (calls : list Call) : Prop :=
  exists pairId p prices,
    (pairId, p) ∈ getOpenPositions te /\
    ArbitrageDetector.getCurrentPrices (pair_symbol p) self = Some prices /\
    (ArbitrageDetector.avgPnl self p prices
       < notifications_minSpreadToNotify (ArbitrageDetector.config self))%Q /\
    calls = [recordSkippedOpportunity o POSITION_NOT_PROFITABLE None None
               (Some (ArbitrageDetector.avgPnl self p prices))].

(** The comparator the two [getTopPairs] sort with, [(a, b) => key(b) -
    key(a)] for the venue's volume field, and the order it produces: an
    element comes no later than another when its key is no less. *)
Definition byDescending {A : Type} (key : A -> Q) (a b : A) : Q :=
  (key b - key a)%Q.

Definition noLess {A : Type} (key : A -> Q) (a b : A) : Prop :=
  (key b <= key a)%Q.

(** The 24 h volume a trading pair carries. *)
Definition volumeOf (p : TradingPair) : Q := default 0%Q (volume24h p).

(** The trading pair [getTopPairs] builds from an entry of Binance's
    answer, and from one of MEXC's. *)
Definition binancePairOf (ticker : Ticker24h) : TradingPair :=
  mkTradingPair (t24_symbol ticker)
                (JsString.replace "USDT" "" (t24_symbol ticker))
                "USDT" (Some (t24_quoteVolume ticker)).

Definition mexcPairOf (ticker : MexcFutures.TickerEntry) : TradingPair :=
  mkTradingPair (MexcFutures.entry_symbol ticker)
                (JsString.replace "_USDT" "" (MexcFutures.entry_symbol ticker))
                "USDT" (Some (MexcFutures.entry_amount24 ticker)).

(** ** Sample data: the figures of the cost-model example (buy at 100, sell
       at 100.5, taker fee 0.08 % on either venue, slippage 0.1 %) *)

Module Sample.

Definition config (minSpreadPercent : Q) (closeOnNewOpportunity : bool)
  : Config :=
  mkConfig minSpreadPercent [] 0.2
           (mkFeeConfig 0.02 0.08) (mkFeeConfig 0.02 0.08) 0.1
           true closeOnNewOpportunity.

Definition ticker (venue : ExchangeName) (symbol : string) (bid ask : Q)
  : TickerPrice :=
  mkTickerPrice symbol bid bid ask 1700000000000 venue.

Definition cache (quotes : list TickerPrice) : gmap string TickerPrice :=
  list_to_map (map (fun q => (tp_symbol q, q)) quotes).

Definition detector (minSpreadPercent : Q) (closeOnNewOpportunity : bool)
           (binanceQuotes mexcQuotes : list TickerPrice)
  : ArbitrageDetector.t :=
  ArbitrageDetector.mk (config minSpreadPercent closeOnNewOpportunity)
                       (BinanceFutures.mk (cache binanceQuotes))
                       (MexcFutures.mk (cache mexcQuotes))
                       [] 0 0.

(** Binance asks 100 for BTC and MEXC bids 100.5. *)
Definition btcBinance : TickerPrice := ticker binance "BTCUSDT" 99.9 100.
Definition btcMexc : TickerPrice := ticker mexc "BTC_USDT" 100.5 100.6.

(** An open pairing: long on Binance, short on MEXC. *)
Definition pairing (id symbol : string) (longEntry shortEntry : Q)
  : string * PositionPair :=
  (id, mkPositionPair id symbol
         (mkPosition (id +:+ "-long") symbol binance longEntry)
         (mkPosition (id +:+ "-short") symbol mexc shortEntry)).

(** Every slot taken. *)
Definition full (openPositions : list (string * PositionPair))
  : TradeExecutor :=
  mkTradeExecutor openPositions false.

Definition opportunity (symbol : string) (profitPercent : Q)
  : ArbitrageOpportunity :=
  mkOpportunity symbol binance mexc 100 100.5 0.5 profitPercent
                1700000000000.

(** Current quotes for two further instruments. *)
Definition ethBinance : TickerPrice := ticker binance "ETHUSDT" 1989 1990.
Definition ethMexc : TickerPrice := ticker mexc "ETH_USDT" 2000 2001.
Definition solBinance : TickerPrice := ticker binance "SOLUSDT" 149.9 150.
Definition solMexc : TickerPrice := ticker mexc "SOL_USDT" 150.2 150.3.

Definition quoted (closeOnNewOpportunity : bool) : ArbitrageDetector.t :=
  detector 0.3 closeOnNewOpportunity
           [ethBinance; solBinance] [ethMexc; solMexc].

(** An ETH pairing entered at a wide spread, now well in profit, and a SOL
    pairing that has not yet earned back its costs. *)
Definition ethPairing : string * PositionPair :=
  pairing "pair-eth" "ETHUSDT" 1900 2100.
Definition solPairing : string * PositionPair :=
  pairing "pair-sol" "SOLUSDT" 150 150.3.

(** A venue errors, closes, and comes back: the feed client reports the
    error and the close as two disconnects. *)
Definition dropAndRecover : list MonitorEvent :=
  [ Disconnect binance "Error: read ECONNRESET" 1000;
    Disconnect binance "Code: 1006" 1005;
    Reconnect binance 4005 ].

(** A MEXC quote for BTC followed by a Binance quote for it, each arriving
    while a slot is free. *)
Definition feed : list FeedEvent :=
  [ from_mexc (mkTradeExecutor [] true) 1700000000000 1700000000001
      (MexcFutures.push_ticker
         (Some (MexcFutures.mkTicker "BTC_USDT" 100.5 100.5 100.6 None)));
    from_binance (mkTradeExecutor [] true) 1700000000002 1700000000003
      (BinanceFutures.with_data
         (BinanceFutures.mkTicker "BTCUSDT" None 99.9 100
                                  (Some 1700000000002%Z))) ].

(** The 24 h tickers of the two venues: three instruments in common, one
    only on Binance, and one not quoted in USDT. *)
Definition binanceTickers : list Ticker24h :=
  [ mkTicker24h "ETHUSDT" 900; mkTicker24h "BTCUSDT" 1500;
    mkTicker24h "BTCBUSD" 2000; mkTicker24h "SOLUSDT" 300;
    mkTicker24h "XRPUSDT" 100 ].

Definition mexcTickers : list MexcFutures.TickerEntry :=
  [ MexcFutures.mkTickerEntry "BTC_USDT" 700;
    MexcFutures.mkTickerEntry "SOL_USDT" 800;
    MexcFutures.mkTickerEntry "ETH_USDT" 650;
    MexcFutures.mkTickerEntry "BTC_USD" 5000 ].

(** A configuration whose cost rates are positive but tiny: 1e-15 % for
    both taker fees and for the slippage. *)
Definition tinyCosts : Config :=
  mkConfig 0.3 [] 0.2
           (mkFeeConfig 0.02 (1 # 1000000000000000))
           (mkFeeConfig 0.02 (1 # 1000000000000000))
           (1 # 1000000000000000)
           true true.

End Sample.

(** ** The cost model of [checkArbitrage] under rounding *)

Module Rounding.

(** The four operations of an arithmetic on numbers.  The values of
    binary64 are rationals, so an operation takes and returns rationals. *)
Record Arithmetic := mkArithmetic {
  add : Q -> Q -> Q;
  sub : Q -> Q -> Q;
  mul : Q -> Q -> Q;
  div : Q -> Q -> Q
}.

Definition exact : Arithmetic := mkArithmetic Qplus Qminus Qmult Qdiv.

(** One operation performed: the exact result on its operands, and the
    result the arithmetic returned. *)
Record Step := mkStep { ideal : Q; returned : Q }.

(** A computation that keeps the list of the operations it performed. *)
Definition Traced (T : Type) : Type := (T * list Step)%type.

#[global] Instance traced_ret : MRet Traced := fun T x => (x, []).

#[global] Instance traced_bind : MBind Traced :=
  fun T U f m => let '(y, steps) := f (fst m) in (y, (snd m ++ steps)%list).

Definition plus (A : Arithmetic) (x y : Q) : Traced Q :=
  (add A x y, [mkStep (x + y) (add A x y)]).

Definition minus (A : Arithmetic) (x y : Q) : Traced Q :=
  (sub A x y, [mkStep (x - y) (sub A x y)]).

Definition times (A : Arithmetic) (x y : Q) : Traced Q :=
  (mul A x y, [mkStep (x * y) (mul A x y)]).

Definition over (A : Arithmetic) (x y : Q) : Traced Q :=
  (div A x y, [mkStep (x / y) (div A x y)]).

(** [r] is [e] up to a relative error of [u]. *)
Definition near (u e r : Q) : Prop := (Qabs (r - e) <= u * Qabs e)%Q.

(** An operation returned its exact result up to a relative error of [u].
    This is what round-to-nearest guarantees on binary64 with
    [u] = 2^-53 as long as the result neither overflows nor underflows; with
    [u] = 0 the operation is exact. *)
Definition within (u : Q) (step : Step) : Prop :=
  near u (ideal step) (returned step).

(** [spreadPercent] of [checkArbitrage]:
    [((sellPrice - buyPrice) / buyPrice) * 100]. *)
Definition spreadPercent (A : Arithmetic) (buyPrice sellPrice : Q)
  : Traced Q :=
  difference ← minus A sellPrice buyPrice;
  ratio ← over A difference buyPrice;
  times A ratio 100.

(** [profitPercent] of [checkArbitrage], operation by operation:
    the three rates as fractions, [buyPrice * (1 + buyFee + slippage)],
    [sellPrice * (1 - sellFee - slippage)], and the quotient times 100. *)
Definition profitPercent (A : Arithmetic) (config : Config)
           (buyExchange sellExchange : ExchangeName)
           (buyPrice sellPrice : Q) : Traced Q :=
  buyFee ← over A (taker (fees config buyExchange)) 100;
  sellFee ← over A (taker (fees config sellExchange)) 100;
  slippage ← over A (slippage_percent config) 100;
  onePlusFee ← plus A 1 buyFee;
  buyFactor ← plus A onePlusFee slippage;
  buyPriceWithFeeAndSlippage ← times A buyPrice buyFactor;
  oneMinusFee ← minus A 1 sellFee;
  sellFactor ← minus A oneMinusFee slippage;
  sellPriceWithFeeAndSlippage ← times A sellPrice sellFactor;
  difference ←
    minus A sellPriceWithFeeAndSlippage buyPriceWithFeeAndSlippage;
  ratio ← over A difference buyPriceWithFeeAndSlippage;
  times A ratio 100.

End Rounding.

(** ** The cost model on IEEE binary64, the arithmetic the program runs on *)

Module Binary64.

Local Open Scope float_scope.

Definition spreadPercentOf (buyPrice sellPrice : float) : float :=
  ((sellPrice - buyPrice) / buyPrice) * 100.

Definition profitPercentOf (buyTaker sellTaker slippagePercent : float)
           (buyPrice sellPrice : float) : float :=
  let buyFee := buyTaker / 100 in
  let sellFee := sellTaker / 100 in
  let slippage := slippagePercent / 100 in
  let buyPriceWithFeeAndSlippage := buyPrice * (1 + buyFee + slippage) in
  let sellPriceWithFeeAndSlippage := sellPrice * (1 - sellFee - slippage) in
  ((sellPriceWithFeeAndSlippage - buyPriceWithFeeAndSlippage)
     / buyPriceWithFeeAndSlippage) * 100.

(** The float nearest to an integer, and to a rational: the quotient of
    the floats of its numerator and denominator.  The latter is the float
    nearest to the rational when both are below 2^53, as for a decimal
    literal of up to 15 digits, and it is the float itself on the value of
    a float (of exponent -1023 at least). *)
Definition fromZ (z : Z) : float :=
  SF2Prim (binary_normalize prec emax z 0 false).

Definition ofQ (q : Q) : float := fromZ (Qnum q) / fromZ (Zpos (Qden q)).

(** The rational a finite float stands for.  An infinity or NaN stands for
    none; it is sent to 0, where [Rounding.within] tells it from the exact
    result. *)
Definition toQ (x : float) : Q :=
  match Prim2SF x with
  | S754_finite negative m e =>
      let n := if negative then Zneg m else Zpos m in
      if (e <? 0)%Z then (n # 2 ^ Z.to_pos (- e))%Q
      else inject_Z (n * 2 ^ e)
  | _ => 0%Q
  end.

Definition lift (op : float -> float -> float) (x y : Q) : Q :=
  toQ (op (ofQ x) (ofQ y)).

(** The arithmetic of the program: each operation is the one of binary64. *)
Definition arithmetic : Rounding.Arithmetic :=
  Rounding.mkArithmetic (lift PrimFloat.add) (lift PrimFloat.sub)
                        (lift PrimFloat.mul) (lift PrimFloat.div).

(** The unit roundoff of binary64, 2^-53. *)
Definition unitRoundoff : Q := (1 # 9007199254740992)%Q.

End Binary64.

(** * Properties *)

(** ** Strings *)

Section Strings.
Import JsString.

Lemma append_nil_l (s : string) : "" +:+ s = s.
Proof. reflexivity. Qed.

Lemma append_cons (c : Ascii.ascii) (s r : string) :
  String c s +:+ r = String c (s +:+ r).
Proof. reflexivity. Qed.

Lemma strip_prefix_app (pat r : string) :
  strip_prefix pat (pat +:+ r) = Some r.
Proof.
  induction pat as [|a pat IH]; [done|].
  rewrite append_cons. simpl. by rewrite Ascii.eqb_refl.
Qed.

Lemma replace_unfold (pat rep s : string) :
  replace pat rep s =
  match strip_prefix pat s with
  | Some rest => rep +:+ rest
  | None =>
      match s with
      | EmptyString => EmptyString
      | String c s' => String c (replace pat rep s')
      end
  end.
Proof. by destruct s. Qed.

Lemma indexOf_unfold (pat s : string) :
  indexOf pat s =
  match strip_prefix pat s with
  | Some _ => Some 0
  | None =>
      match s with
      | EmptyString => None
      | String _ s' => S <$> indexOf pat s'
      end
  end.
Proof. by destruct s. Qed.

(** A string without the pattern is left alone. *)
Lemma replace_absent (pat rep s : string) :
  indexOf pat s = None -> replace pat rep s = s.
Proof.
  induction s as [|c s IH]; rewrite indexOf_unfold, replace_unfold;
    destruct (strip_prefix pat _); try done.
  destruct (indexOf pat s); simpl; [done|].
  intros _. by rewrite IH.
Qed.

(** The occurrence replaced is the first one. *)
Lemma replace_at_index (pat rep a r : string) :
  indexOf pat (a +:+ pat +:+ r) = Some (String.length a) ->
  replace pat rep (a +:+ pat +:+ r) = a +:+ rep +:+ r.
Proof.
  induction a as [|c a IH].
  - intros _. rewrite !append_nil_l.
    by rewrite replace_unfold, strip_prefix_app.
  - rewrite !append_cons, indexOf_unfold, replace_unfold.
    destruct (strip_prefix pat _); [done|].
    destruct (indexOf pat (a +:+ pat +:+ r)); simpl; [|done].
    intros [= ->]. by rewrite IH.
Qed.

Lemma indexOf_char_after (ch : Ascii.ascii) (a r : string) :
  includes (String ch "") a = false ->
  indexOf (String ch "") (a +:+ String ch r) = Some (String.length a).
Proof.
  unfold includes.
  induction a as [|c a IH].
  - intros _. rewrite append_nil_l. simpl. by rewrite Ascii.eqb_refl.
  - rewrite append_cons. simpl.
    destruct (Ascii.eqb ch c); [done|].
    destruct (indexOf (String ch "") a); simpl; [done|].
    intros _. by rewrite IH.
Qed.

End Strings.

(** ** Symbol normaliser *)

(** C10.  A symbol without an underscore, such as a Binance symbol, is its
    own canonical form.  Hence a Binance tick on [s] is compared under [s]
    itself, against the MEXC quote filed under the MEXC spelling of [s]; and a
    MEXC tick whose canonical form is [s] is compared under [s] as well,
    against the Binance quote filed under [s]. *)
Theorem toCommonFormat_without_underscore (s : string) :
  JsString.includes "_" s = false ->
  MexcFutures.toCommonFormat s = s /\
  (forall (tradeExecutor : TradeExecutor) (now : Z) (price : TickerPrice)
          (self : ArbitrageDetector.t),
     tp_symbol price = s ->
     tp_exchange price = binance ->
     ArbitrageDetector.onPriceUpdate tradeExecutor now price self =
     match MexcFutures.getPrice (MexcFutures.toMexcFormat s)
                                (ArbitrageDetector.mexc_client self) with
     | None => (self, [])
     | Some other =>
         ArbitrageDetector.checkArbitrage tradeExecutor now price other s self
     end) /\
  (forall (tradeExecutor : TradeExecutor) (now : Z) (price : TickerPrice)
          (self : ArbitrageDetector.t),
     MexcFutures.toCommonFormat (tp_symbol price) = s ->
     tp_exchange price = mexc ->
     ArbitrageDetector.onPriceUpdate tradeExecutor now price self =
     match BinanceFutures.getPrice s
                                   (ArbitrageDetector.binance_client self) with
     | None => (self, [])
     | Some other =>
         ArbitrageDetector.checkArbitrage tradeExecutor now price other s self
     end).
Proof.
  intros Hs.
  assert (MexcFutures.toCommonFormat s = s) as Hid.
  { unfold MexcFutures.toCommonFormat. apply replace_absent.
    unfold JsString.includes in Hs. by destruct (JsString.indexOf "_" s). }
  split; [done|]. split.
  - intros te now price self Hsym Hex.
    unfold ArbitrageDetector.onPriceUpdate, ArbitrageDetector.otherPrice.
    by rewrite Hsym, Hex, Hid.
  - intros te now price self Hsym Hex.
    unfold ArbitrageDetector.onPriceUpdate, ArbitrageDetector.otherPrice.
    by rewrite Hsym, Hex.
Qed.

Lemma toCommonFormat_without_underscore_witness :
  MexcFutures.toCommonFormat "BTCUSDT" = "BTCUSDT" /\
  ArbitrageDetector.onPriceUpdate
    (mkTradeExecutor [] true) 1700000000001 Sample.btcBinance
    (Sample.detector 0.3 true [Sample.btcBinance] []) =
  (Sample.detector 0.3 true [Sample.btcBinance] [], []).
Proof.
  destruct (toCommonFormat_without_underscore "BTCUSDT" eq_refl)
    as [Hid [Hjoin _]].
  split; [exact Hid|].
  exact (Hjoin (mkTradeExecutor [] true) 1700000000001%Z Sample.btcBinance
               (Sample.detector 0.3 true [Sample.btcBinance] [])
               eq_refl eq_refl).
Defined.

(** C3 (amended).  For a MEXC symbol made of a base without underscore
    followed by [_USDT] (and possibly more), where the first [USDT] of the
    canonical form is the one that follows the base, converting to the
    canonical form and back yields the symbol again. *)
Theorem roundtrip_on_quote_suffixed_symbols (base rest : string) :
  JsString.includes "_" base = false ->
  JsString.indexOf "USDT" (base +:+ "USDT" +:+ rest)
    = Some (String.length base) ->
  MexcFutures.toMexcFormat
    (MexcFutures.toCommonFormat (base +:+ "_USDT" +:+ rest))
  = base +:+ "_USDT" +:+ rest.
Proof.
  intros Hbase Hfirst.
  unfold MexcFutures.toCommonFormat, MexcFutures.toMexcFormat.
  change (base +:+ "_USDT" +:+ rest)
    with (base +:+ "_" +:+ ("USDT" +:+ rest)).
  rewrite (replace_at_index "_" "" base ("USDT" +:+ rest))
    by (by apply indexOf_char_after).
  rewrite append_nil_l.
  by rewrite (replace_at_index "USDT" "_USDT" base rest).
Qed.

Lemma roundtrip_on_quote_suffixed_symbols_witness :
  MexcFutures.toCommonFormat "BTC_USDT" = "BTCUSDT" /\
  MexcFutures.toMexcFormat (MexcFutures.toCommonFormat "BTC_USDT")
  = "BTC_USDT".
Proof.
  split; [reflexivity|].
  exact (roundtrip_on_quote_suffixed_symbols "BTC" "" eq_refl eq_refl).
Defined.

(** C3, as stated, fails.  When Binance lists [AB_C_USDT] and MEXC lists
    [A_B_C_USDT], both pass the venue filters and the instrument is tracked.
    The MEXC symbol does not survive the round trip, and neither does the
    symbol the detector subscribes to on MEXC. *)
Lemma roundtrip_fails_on_tracked_symbol :
  JsString.endsWith "USDT" "AB_C_USDT" = true /\
  JsString.endsWith "_USDT" "A_B_C_USDT" = true /\
  (ArbitrageDetector.commonSymbols
     <$> ArbitrageDetector.fetchTopPairs
           ["AB_C_USDT"] ["A_B_C_USDT"] (Sample.detector 0.3 true [] []))
    = Some ["AB_C_USDT"] /\
  MexcFutures.toCommonFormat "A_B_C_USDT" = "AB_C_USDT" /\
  MexcFutures.toMexcFormat (MexcFutures.toCommonFormat "A_B_C_USDT")
    = "AB_C__USDT" /\
  "AB_C__USDT" <> "A_B_C_USDT" /\
  (ArbitrageDetector.mexcSymbols
     <$> ArbitrageDetector.fetchTopPairs
           ["AB_C_USDT"] ["A_B_C_USDT"] (Sample.detector 0.3 true [] []))
    = Some ["AB_C__USDT"] /\
  MexcFutures.toMexcFormat (MexcFutures.toCommonFormat "AB_C__USDT")
    = "ABC___USDT" /\
  "ABC___USDT" <> "AB_C__USDT".
Proof. repeat split; try reflexivity; discriminate. Qed.

(** ** Connection health monitor *)

Section Monitor.
Import WebSocketMonitor.

Lemma archive_length_from (e : ExchangeName) (evs : list MonitorEvent) :
  forall m : t,
    Forall (fun ev => venueOf ev = e) evs ->
    length (getDowntimes (run_events evs m)) =
    (length (getDowntimes m) + closedOutages (pending e m) evs)%nat.
Proof.
  unfold getDowntimes.
  induction evs as [|ev evs IH]; intros m Hall.
  - cbn. lia.
  - inversion Hall as [|? ? Hev Hrest]; subst.
    change (run_events (ev :: evs) m)
      with (run_events evs (apply_event m ev)).
    rewrite IH by done. clear IH.
    destruct ev as [e' r now|e' now]; cbn.
    + unfold pending at 1. cbn. by rewrite lookup_insert_eq.
    + unfold recordReconnect, pending.
      destruct (currentDowntime m !! e') as [d|] eqn:E; cbn.
      * rewrite lookup_delete_eq, length_app. cbn. lia.
      * rewrite E. lia.
Qed.

Lemma closedOutages_bound (evs : list MonitorEvent) :
  forall p : bool,
    (closedOutages p evs <= (if p then 1 else 0) + disconnectCount evs)%nat.
Proof.
  unfold disconnectCount.
  induction evs as [|[e r now|e now] evs IH]; intros p; simpl.
  - lia.
  - specialize (IH true). simpl in IH. destruct p; lia.
  - specialize (IH false). simpl in IH. destruct p; lia.
Qed.

Lemma archive_completed (evs : list MonitorEvent) :
  forall m : t,
    Forall completed (getDowntimes m) ->
    Forall completed (getDowntimes (run_events evs m)).
Proof.
  induction evs as [|ev evs IH]; intros m Hm; simpl; [done|].
  apply IH. destruct ev as [e r now|e now]; simpl; [done|].
  unfold recordReconnect.
  destruct (currentDowntime m !! e) as [d|]; [|done].
  simpl. apply Forall_app. split; [done|].
  apply Forall_singleton. by exists now.
Qed.

Lemma keyed_run (evs : list MonitorEvent) :
  forall m : t, keyed m -> keyed (run_events evs m).
Proof.
  induction evs as [|ev evs IH]; intros m Hm; simpl; [done|].
  apply IH. destruct ev as [e r now|e now]; simpl.
  - intros e' d. simpl. rewrite lookup_insert.
    case_decide; [intros [= <-]; by subst | apply Hm].
  - unfold recordReconnect.
    destruct (currentDowntime m !! e) as [d0|]; [|done].
    intros e' d. simpl. rewrite lookup_delete.
    case_decide; [done | apply Hm].
Qed.

Lemma keyed_recordDisconnect (e : ExchangeName) (r : string) (now : Z)
      (m : t) :
  keyed m -> keyed (recordDisconnect e r now m).
Proof. intros Hm. apply (keyed_run [Disconnect e r now] m Hm). Qed.

Lemma keyed_NoDup (m : t) :
  keyed m -> NoDup (dt_exchange <$> getCurrentDowntimes m).
Proof.
  intros Hm. unfold getCurrentDowntimes.
  assert (dt_exchange <$> (map_to_list (currentDowntime m)).*2
          = (map_to_list (currentDowntime m)).*1) as ->.
  { rewrite <-list_fmap_compose. apply list_fmap_ext.
    intros i [e d] Hi. cbn. apply Hm.
    apply elem_of_map_to_list. eapply list_elem_of_lookup_2, Hi. }
  apply NoDup_fst_map_to_list.
Qed.

(** When every outage is closed before the next one starts, the archive
    has one entry per disconnect. *)
Lemma alternating_archive (e : ExchangeName) (n : nat) :
  forall (start : Z) (m : t),
    currentDowntime m !! e = None ->
    length (getDowntimes (run_events (alternating e start n) m)) =
    (length (getDowntimes m) + disconnectCount (alternating e start n))%nat.
Proof.
  unfold getDowntimes, disconnectCount.
  induction n as [|n IH]; intros start m Hm; cbn; [lia|].
  unfold recordReconnect, recordDisconnect. cbn.
  rewrite lookup_insert_eq. cbn. unfold run_events in IH.
  rewrite IH; cbn.
  - rewrite length_app. cbn. lia.
  - by rewrite lookup_delete_eq.
Qed.

End Monitor.

(** C4 (amended).  For any sequence of disconnect and reconnect events of
    one venue on a fresh monitor, the archive has one entry per reconnect
    that arrives while a disconnect is pending, hence no more entries than
    there were disconnects, and every entry's duration is its reconnect time
    minus its disconnect time. *)
Theorem archive_counts_closed_outages
        (e : ExchangeName) (evs : list MonitorEvent) :
  Forall (fun ev => venueOf ev = e) evs ->
  let m := run_events evs WebSocketMonitor.new in
  length (WebSocketMonitor.getDowntimes m) = closedOutages false evs /\
  (length (WebSocketMonitor.getDowntimes m) <= disconnectCount evs)%nat /\
  Forall completed (WebSocketMonitor.getDowntimes m).
Proof.
  intros Hall m.
  assert (length (WebSocketMonitor.getDowntimes m) = closedOutages false evs)
    as Hlen.
  { unfold m. by rewrite (archive_length_from e evs _ Hall). }
  split; [done|]. split.
  - rewrite Hlen. apply (closedOutages_bound evs false).
  - apply archive_completed. constructor.
Qed.

Lemma archive_counts_closed_outages_witness :
  length (WebSocketMonitor.getDowntimes
            (run_events Sample.dropAndRecover WebSocketMonitor.new))
    = closedOutages false Sample.dropAndRecover /\
  (length (WebSocketMonitor.getDowntimes
             (run_events Sample.dropAndRecover WebSocketMonitor.new))
     <= disconnectCount Sample.dropAndRecover)%nat /\
  Forall completed
         (WebSocketMonitor.getDowntimes
            (run_events Sample.dropAndRecover WebSocketMonitor.new)).
Proof.
  apply (archive_counts_closed_outages binance Sample.dropAndRecover).
  repeat constructor.
Defined.

(** C4, as stated, fails.  An error followed by a close makes two
    disconnects; the reconnect that follows archives one entry. *)
Lemma archive_shorter_than_disconnects :
  disconnectCount Sample.dropAndRecover = 2%nat /\
  WebSocketMonitor.getDowntimes
    (run_events Sample.dropAndRecover WebSocketMonitor.new)
  = [ mkDowntime binance 1005 (Some 4005%Z) (Some 3000%Z) "Code: 1006" ].
Proof. split; reflexivity. Qed.

(** C7 (amended).  In every state the monitor can reach there is at most
    one open record per venue.  [recordDisconnect] files a fresh record, with
    the new time and reason, under the venue, replacing whatever record was
    open for it; the records of the other venues and the archive are left
    as they were. *)
Theorem recordDisconnect_replaces_open_record
        (evs : list MonitorEvent) (e : ExchangeName) (r : string) (now : Z) :
  let m := run_events evs WebSocketMonitor.new in
  let m' := WebSocketMonitor.recordDisconnect e r now m in
  NoDup (dt_exchange <$> WebSocketMonitor.getCurrentDowntimes m) /\
  NoDup (dt_exchange <$> WebSocketMonitor.getCurrentDowntimes m') /\
  WebSocketMonitor.currentDowntime m' !! e
    = Some (mkDowntime e now None None r) /\
  delete e (WebSocketMonitor.currentDowntime m')
    = delete e (WebSocketMonitor.currentDowntime m) /\
  WebSocketMonitor.getDowntimes m' = WebSocketMonitor.getDowntimes m.
Proof.
  intros m m'.
  assert (keyed m) as Hm.
  { apply keyed_run. intros e0 d H. cbn in H. by rewrite lookup_empty in H. }
  split; [by apply keyed_NoDup|].
  split; [by apply keyed_NoDup, keyed_recordDisconnect|].
  split; [apply lookup_insert_eq|].
  split; [apply delete_insert_eq | done].
Qed.

(** C7, as stated, fails.  A second disconnect while a record is open is not
    ignored: the open record takes the time and the reason of the second. *)
Lemma second_disconnect_overwrites :
  WebSocketMonitor.currentDowntime
    (WebSocketMonitor.recordDisconnect binance "Error: read ECONNRESET" 1000
       WebSocketMonitor.new) !! binance
  = Some (mkDowntime binance 1000 None None "Error: read ECONNRESET") /\
  WebSocketMonitor.currentDowntime
    (WebSocketMonitor.recordDisconnect binance "Code: 1006" 1005
       (WebSocketMonitor.recordDisconnect binance "Error: read ECONNRESET" 1000
          WebSocketMonitor.new)) !! binance
  = Some (mkDowntime binance 1005 None None "Code: 1006").
Proof. split; reflexivity. Qed.

(** ** Comparisons *)

Lemma lt_true (x y : Q) : Num.lt x y = true <-> (x < y)%Q.
Proof.
  unfold Num.lt. destruct (Qlt_le_dec x y) as [H|H]; split; try done.
  intros H'. exfalso. apply (Qlt_not_le _ _ H'), H.
Qed.

Lemma lt_false (x y : Q) : Num.lt x y = false <-> (y <= x)%Q.
Proof.
  unfold Num.lt. destruct (Qlt_le_dec x y) as [H|H]; split; try done.
  intros H'. exfalso. apply (Qlt_not_le _ _ H), H'.
Qed.

Lemma ge_true (x y : Q) : Num.ge x y = true <-> (y <= x)%Q.
Proof. unfold Num.ge. rewrite negb_true_iff. apply lt_false. Qed.

Lemma ge_false (x y : Q) : Num.ge x y = false <-> (x < y)%Q.
Proof. unfold Num.ge. rewrite negb_false_iff. apply lt_true. Qed.

(** ** Opportunity detector *)

Section Detector.
Import ArbitrageDetector.
Local Open Scope Q_scope.

(** The direction test only ever proposes to buy below the selling price. *)
Lemma direction_buys_low (price1 price2 : TickerPrice)
      (be se : ExchangeName) (b s : Q) :
  direction price1 price2 = Some (be, se, b, s) -> b < s.
Proof.
  unfold direction. intros Hdir.
  destruct (Num.lt (tp_ask price1) (tp_bid price2)) eqn:E1.
  - injection Hdir as <- <- <- <-. by apply lt_true.
  - destruct (Num.lt (tp_ask price2) (tp_bid price1)) eqn:E2; [|done].
    injection Hdir as <- <- <- <-. by apply lt_true.
Qed.

End Detector.

(** ** The cost model under rounding *)

Section RoundedCosts.
Local Open Scope Q_scope.

Lemma near_bounds_nonneg (u e r : Q) :
  Rounding.near u e r -> 0 <= e -> e * (1 - u) <= r /\ r <= e * (1 + u).
Proof.
  unfold Rounding.near. intros H He. rewrite (Qabs_pos e) in H by done.
  apply Qabs_Qle_condition in H. lra.
Qed.

Lemma near_bounds_nonpos (u e r : Q) :
  Rounding.near u e r -> e <= 0 -> e * (1 + u) <= r /\ r <= e * (1 - u).
Proof.
  unfold Rounding.near. intros H He. rewrite (Qabs_neg e) in H by done.
  apply Qabs_Qle_condition in H. lra.
Qed.

(** Rounding keeps the sign. *)
Lemma near_pos (u e r : Q) :
  0 <= u -> u < 1 -> Rounding.near u e r -> 0 < e -> 0 < r.
Proof.
  intros Hu Hu1 H He.
  destruct (near_bounds_nonneg u e r H) as [Hl _]; [lra|]. nra.
Qed.

Lemma near_nonpos (u e r : Q) :
  0 <= u -> u < 1 -> Rounding.near u e r -> e <= 0 -> r <= 0.
Proof.
  intros Hu Hu1 H He.
  destruct (near_bounds_nonpos u e r H He) as [_ Hr]. nra.
Qed.

Lemma near_lower (u e r : Q) :
  Rounding.near u e r -> 0 <= e -> e * (1 - u) <= r.
Proof. intros H He. by destruct (near_bounds_nonneg u e r H He). Qed.

Lemma near_upper (u e r : Q) :
  Rounding.near u e r -> 0 <= e -> r <= e * (1 + u).
Proof. intros H He. by destruct (near_bounds_nonneg u e r H He). Qed.

Lemma near_lower_neg (u e r : Q) :
  Rounding.near u e r -> e <= 0 -> e * (1 + u) <= r.
Proof. intros H He. by destruct (near_bounds_nonpos u e r H He). Qed.

Lemma near_refl (u e : Q) : 0 <= u -> Rounding.near u e e.
Proof.
  intros Hu. unfold Rounding.near.
  assert (e - e == 0) as -> by ring.
  apply Qmult_le_0_compat; [done|apply Qabs_nonneg].
Qed.

Lemma cube_below (u : Q) :
  0 <= u -> u <= 1 # 16 -> 1 - 3 * u <= (1 - u) * (1 - u) * (1 - u).
Proof.
  intros Hu Hu1. assert (0 <= u * u) by nra.
  assert (u * u * u <= u * u) by nra. nra.
Qed.

Lemma cube_above (u : Q) :
  0 <= u -> u <= 1 # 16 -> (1 + u) * (1 + u) * (1 + u) <= 1 + 4 * u.
Proof.
  intros Hu Hu1. assert (0 <= u * u) by nra.
  assert (u * u <= u * (1 # 16)) by nra.
  assert (0 <= u * u * u) by nra.
  assert (u * u * u <= u * u * (1 # 16)) by nra. nra.
Qed.

Lemma Qmult_le_mono_r (a b c : Q) : a <= b -> 0 <= c -> a * c <= b * c.
Proof. intros. nra. Qed.

(** A rate of [p] percent, as the fraction the program computes. *)
Lemma fee_lower (u p fee : Q) :
  0 <= u -> 0 <= p -> Rounding.near u (p / 100) fee ->
  p * (1 # 100) * (1 - u) <= fee.
Proof.
  intros Hu Hp H.
  assert (p / 100 == p * (1 # 100)) as E by field.
  assert (0 <= p / 100) as H0 by (rewrite E; lra).
  pose proof (near_lower _ _ _ H H0) as Hl. rewrite E in Hl. done.
Qed.

(** A rate above 1100 u percent is, as a fraction, above 10 u. *)
Lemma fee_registers (u p fee : Q) :
  0 <= u -> u <= 1 # 16 -> 1100 * u < p ->
  Rounding.near u (p / 100) fee -> 10 * u < fee.
Proof.
  intros Hu Hu1 Hp H.
  pose proof (fee_lower u p fee Hu ltac:(lra) H) as Hl. nra.
Qed.

(** With rates that register, the buy price with costs is no lower than
    the buy price. *)
Lemma buy_side (u b buyFee slippage t1 t2 bp : Q) :
  0 <= u -> u <= 1 # 16 -> 0 < b ->
  10 * u < buyFee -> 10 * u < slippage ->
  Rounding.near u (1 + buyFee) t1 ->
  Rounding.near u (t1 + slippage) t2 ->
  Rounding.near u (b * t2) bp ->
  b <= bp.
Proof.
  intros Hu Hu1 Hb Hf Hs H1 H2 H3.
  assert (0 <= u * u) as Huu by nra.
  assert (u * u <= u * (1 # 16)) as Huu' by nra.
  assert (1 + 8 * u <= t1) as Ht1.
  { pose proof (near_lower _ _ _ H1 ltac:(lra)) as L.
    assert (0 <= (buyFee - 10 * u) * (1 - u))
      by (apply Qmult_le_0_compat; lra).
    nra. }
  assert (1 + 15 * u <= t2) as Ht2.
  { pose proof (near_lower _ _ _ H2 ltac:(lra)) as L.
    assert (0 <= (t1 + slippage - (1 + 18 * u)) * (1 - u))
      by (apply Qmult_le_0_compat; lra).
    nra. }
  assert (0 <= b * t2) as Hbt by (apply Qmult_le_0_compat; lra).
  pose proof (near_lower _ _ _ H3 Hbt) as Hbp.
  assert (1 <= t2 * (1 - u)) as Hone.
  { assert (0 <= (t2 - (1 + 15 * u)) * (1 - u))
      by (apply Qmult_le_0_compat; lra).
    nra. }
  assert (0 <= b * (t2 * (1 - u) - 1)) by (apply Qmult_le_0_compat; lra).
  nra.
Qed.

(** With rates that register, the sell price with costs, when positive, is
    below the sell price by a margin that rounding cannot make up. *)
Lemma sell_side (u s sellFee slippage w1 w2 sp : Q) :
  0 <= u -> u <= 1 # 16 -> 0 < s ->
  10 * u < sellFee -> 10 * u < slippage ->
  Rounding.near u (1 - sellFee) w1 ->
  Rounding.near u (w1 - slippage) w2 ->
  Rounding.near u (s * w2) sp ->
  0 < sp -> sp < s * (1 - 17 * u).
Proof.
  intros Hu Hu1 Hs Hf Hsl H1 H2 H3 Hsp.
  assert (0 < w2) as Hw2.
  { destruct (Qlt_le_dec 0 w2) as [|Hle]; [done|].
    pose proof (near_nonpos _ _ _ Hu ltac:(lra) H3 ltac:(nra)). lra. }
  assert (0 < w1 - slippage) as He2.
  { destruct (Qlt_le_dec 0 (w1 - slippage)) as [|Hle]; [done|].
    pose proof (near_nonpos _ _ _ Hu ltac:(lra) H2 Hle). lra. }
  assert (0 < 1 - sellFee) as He1.
  { destruct (Qlt_le_dec 0 (1 - sellFee)) as [|Hle]; [done|].
    pose proof (near_nonpos _ _ _ Hu ltac:(lra) H1 Hle). lra. }
  pose proof (near_upper _ _ _ H1 ltac:(lra)) as U1.
  assert (w1 <= 1 - 9 * u) as Hw1 by nra.
  pose proof (near_upper _ _ _ H2 ltac:(lra)) as U2.
  assert (w2 < 1 - 18 * u) as Hw2' by nra.
  pose proof (near_upper _ _ _ H3 ltac:(nra)) as U3.
  assert (w2 * (1 + u) < 1 - 17 * u) by nra.
  nra.
Qed.

(** The computed spread from below, for a sell price above the buy price
    and for one at or below it. *)
Lemma spread_side (u b s d r S : Q) :
  0 <= u -> u <= 1 # 16 -> 0 < b -> b < s ->
  Rounding.near u (s - b) d -> Rounding.near u (d / b) r ->
  Rounding.near u (r * 100) S ->
  (1 - 3 * u) * ((s - b) / b * 100) <= S /\ 0 < S.
Proof.
  intros Hu Hu1 Hb Hbs H1 H2 H3.
  unfold Qdiv in *. set (ib := / b) in *.
  assert (0 < ib) as Hib by (by apply Qinv_lt_0_compat).
  pose proof (near_lower _ _ _ H1 ltac:(lra)) as L1.
  assert (0 < d) as Hd by nra.
  assert (0 < d * ib) as Hdi by nra.
  pose proof (near_lower _ _ _ H2 ltac:(lra)) as L2.
  assert (0 < r) as Hr by nra.
  pose proof (near_lower _ _ _ H3 ltac:(lra)) as L3.
  assert ((s - b) * ib * (1 - u) <= d * ib) by nra.
  assert ((s - b) * ib * ((1 - u) * (1 - u)) <= r) by nra.
  assert (0 < (s - b) * ib) by nra.
  split; [|nra].
  assert ((1 - 3 * u) <= (1 - u) * (1 - u) * (1 - u)) by nra.
  assert ((s - b) * ib * ((1 - u) * (1 - u)) * 100 * (1 - u) <= S) by nra.
  nra.
Qed.

Lemma spread_side_neg (u b s d r S : Q) :
  0 <= u -> u <= 1 # 16 -> 0 < b -> s <= b ->
  Rounding.near u (s - b) d -> Rounding.near u (d / b) r ->
  Rounding.near u (r * 100) S ->
  (1 + 4 * u) * ((s - b) / b * 100) <= S.
Proof.
  intros Hu Hu1 Hb Hbs H1 H2 H3.
  unfold Qdiv in *. set (ib := / b) in *.
  assert (0 < ib) as Hib by (by apply Qinv_lt_0_compat).
  pose proof (near_lower_neg _ _ _ H1 ltac:(lra)) as L1.
  pose proof (near_nonpos _ _ _ Hu ltac:(lra) H1 ltac:(lra)) as Hd.
  assert (d * ib <= 0) as Hdi by nra.
  pose proof (near_lower_neg _ _ _ H2 Hdi) as L2.
  pose proof (near_nonpos _ _ _ Hu ltac:(lra) H2 Hdi) as Hr.
  pose proof (near_lower_neg _ _ _ H3 ltac:(lra)) as L3.
  set (Y := (s - b) * ib) in *.
  assert (Y <= 0) as HY by (unfold Y; nra).
  assert (Y * (1 + u) <= d * ib) as A1.
  { unfold Y. assert (0 <= (d - (s - b) * (1 + u)) * ib)
      by (apply Qmult_le_0_compat; lra). nra. }
  assert (Y * ((1 + u) * (1 + u)) <= r) as A2.
  { assert (0 <= (d * ib - Y * (1 + u)) * (1 + u))
      by (apply Qmult_le_0_compat; lra). nra. }
  assert (Y * ((1 + u) * (1 + u) * (1 + u)) * 100 <= S) as A3.
  { assert (0 <= (r - Y * ((1 + u) * (1 + u))) * (1 + u))
      by (apply Qmult_le_0_compat; lra). nra. }
  pose proof (cube_above u Hu Hu1) as Hc.
  assert (0 <= (- Y) * ((1 + 4 * u) - (1 + u) * (1 + u) * (1 + u)))
    by (apply Qmult_le_0_compat; lra).
  nra.
Qed.

(** The computed profit from above. *)
Lemma profit_side (u bp sp n q P : Q) :
  0 <= u -> u <= 1 # 16 -> 0 < bp ->
  Rounding.near u (sp - bp) n -> Rounding.near u (n / bp) q ->
  Rounding.near u (q * 100) P ->
  (sp - bp <= 0 -> P <= 0) /\
  (0 < sp - bp -> P <= (1 + 4 * u) * ((sp - bp) / bp * 100)).
Proof.
  intros Hu Hu1 Hbp H1 H2 H3.
  unfold Qdiv in *. set (ib := / bp) in *.
  assert (0 < ib) as Hib by (by apply Qinv_lt_0_compat).
  split; intros He.
  - pose proof (near_nonpos _ _ _ Hu ltac:(lra) H1 He) as Hn.
    assert (n * ib <= 0) as Hq by nra.
    pose proof (near_nonpos _ _ _ Hu ltac:(lra) H2 Hq) as Hq'.
    apply (near_nonpos u (q * 100) P); [lra|lra|done|lra].
  - pose proof (near_upper _ _ _ H1 ltac:(lra)) as U1.
    pose proof (near_pos _ _ _ Hu ltac:(lra) H1 He) as Hn.
    assert (0 < n * ib) as Hni by nra.
    pose proof (near_upper _ _ _ H2 ltac:(lra)) as U2.
    pose proof (near_pos _ _ _ Hu ltac:(lra) H2 Hni) as Hq.
    pose proof (near_upper _ _ _ H3 ltac:(lra)) as U3.
    assert (0 < (sp - bp) * ib) as HX by nra.
    set (X := (sp - bp) * ib) in *.
    assert (n * ib <= X * (1 + u)) as A1.
    { unfold X. assert (0 <= ((sp - bp) * (1 + u) - n) * ib)
        by (apply Qmult_le_0_compat; lra). nra. }
    assert (q <= X * ((1 + u) * (1 + u))) as A2.
    { assert (0 <= (X * (1 + u) - n * ib) * (1 + u))
        by (apply Qmult_le_0_compat; lra). nra. }
    assert (P <= X * ((1 + u) * (1 + u) * (1 + u)) * 100) as A3.
    { assert (0 <= (X * ((1 + u) * (1 + u)) - q) * (1 + u))
        by (apply Qmult_le_0_compat; lra). nra. }
    pose proof (cube_above u Hu Hu1) as A4.
    assert (0 <= X * ((1 + 4 * u) - (1 + u) * (1 + u) * (1 + u)))
      by (apply Qmult_le_0_compat; lra).
    nra.
Qed.

(** The two sides put together: costs that register keep the computed
    profit strictly below the computed spread. *)
Lemma rounded_cost_bites (u b s bp sp n q P d r S : Q) :
  0 <= u -> u <= 1 # 16 -> 0 < b -> b < s ->
  b <= bp -> (0 < sp -> sp < s * (1 - 17 * u)) ->
  Rounding.near u (sp - bp) n -> Rounding.near u (n / bp) q ->
  Rounding.near u (q * 100) P ->
  Rounding.near u (s - b) d -> Rounding.near u (d / b) r ->
  Rounding.near u (r * 100) S ->
  P < S.
Proof.
  intros Hu Hu1 Hb Hbs Hbp Hsp N1 N2 N3 S1 S2 S3.
  destruct (spread_side u b s d r S) as [HS HS0]; try done.
  destruct (profit_side u bp sp n q P) as [Hneg Hpos]; try done; [lra|].
  destruct (Qlt_le_dec 0 (sp - bp)) as [He|He]; [|specialize (Hneg He); lra].
  specialize (Hpos He). specialize (Hsp ltac:(lra)).
  unfold Qdiv in *.
  set (ib := / b) in *. set (ibp := / bp) in *.
  assert (0 < ib) as Hib by (by apply Qinv_lt_0_compat).
  assert (0 < ibp) as Hibp by (apply Qinv_lt_0_compat; lra).
  assert (b * ib == 1) as Eb by (unfold ib; field; lra).
  assert (bp * ibp == 1) as Ebp by (unfold ibp; field; lra).
  set (X := (sp - bp) * ibp) in *. set (Y := (s - b) * ib) in *.
  assert (0 < X) as HX by (unfold X; nra).
  assert (0 < Y) as HY by (unfold Y; nra).
  assert (X * bp == sp - bp) as EX by (unfold X; nra).
  assert (Y * b == s - b) as EY by (unfold Y; nra).
  assert (X * b <= X * bp) as X1 by nra.
  assert (X * b < (Y * (1 - 17 * u)) * b) as X2.
  { assert (s == Y * b + b) as Es by lra.
    assert (sp < (Y * b + b) * (1 - 17 * u)) by (rewrite <-Es; done).
    assert (0 <= 17 * u * b) by nra. nra. }
  assert (X < Y * (1 - 17 * u)) as X3.
  { apply (Qmult_lt_r _ _ b); done. }
  assert ((1 + 4 * u) * X < (1 - 3 * u) * Y) as X4.
  { assert (0 <= u * u) by nra.
    assert ((1 + 4 * u) * X < (1 + 4 * u) * (Y * (1 - 17 * u)))
      by (apply Qmult_lt_l; lra).
    assert (0 <= Y * (10 * u + 68 * (u * u)))
      by (apply Qmult_le_0_compat; lra).
    nra. }
  nra.
Qed.

(** The buy price with costs from below and the sell price with costs from
    above, in terms of the cost rates [cb], [cs], [csl] as fractions. *)
Lemma buy_side_cost (u b cb csl buyFee slippage t1 t2 bp : Q) :
  0 <= u -> u <= 1 # 16 -> 0 < b -> 0 <= cb -> 0 <= csl ->
  cb * (1 - u) <= buyFee -> csl * (1 - u) <= slippage ->
  Rounding.near u (1 + buyFee) t1 ->
  Rounding.near u (t1 + slippage) t2 ->
  Rounding.near u (b * t2) bp ->
  b * ((1 - 3 * u) * (1 + (cb + csl) * (1 - u))) <= bp.
Proof.
  intros Hu Hu1 Hb Hcb Hcsl Hf Hs H1 H2 H3.
  assert (0 <= cb * (1 - u)) by (apply Qmult_le_0_compat; lra).
  assert (0 <= csl * (1 - u)) by (apply Qmult_le_0_compat; lra).
  set (G := 1 + (cb + csl) * (1 - u)).
  assert (1 <= G) as HG by (unfold G; nra).
  pose proof (near_lower _ _ _ H1 ltac:(lra)) as L1.
  assert ((1 + cb * (1 - u)) * (1 - u) <= t1) as Ht1.
  { pose proof (Qmult_le_mono_r (1 + cb * (1 - u)) (1 + buyFee) (1 - u)
                                ltac:(lra) ltac:(lra)). lra. }
  assert (0 <= csl * (1 - u) * u) by (apply Qmult_le_0_compat; lra).
  assert (G * (1 - u) <= t1 + slippage) as Hsum by (unfold G; nra).
  assert (0 <= t1 + slippage) by nra.
  pose proof (near_lower _ _ _ H2 ltac:(lra)) as L2.
  assert (G * (1 - u) * (1 - u) <= t2) as Ht2.
  { pose proof (Qmult_le_mono_r _ _ (1 - u) Hsum ltac:(lra)). lra. }
  assert (0 <= t2) by nra.
  assert (0 <= b * t2) as Hbt by (apply Qmult_le_0_compat; lra).
  pose proof (near_lower _ _ _ H3 Hbt) as L3.
  assert (G * (1 - u) * (1 - u) * (1 - u) <= t2 * (1 - u)) as Ht3
    by (apply Qmult_le_mono_r; [done|lra]).
  pose proof (cube_below u Hu Hu1) as Hc.
  assert (G * (1 - 3 * u) <= G * ((1 - u) * (1 - u) * (1 - u))) as Hc'
    by (apply Qmult_le_l; lra).
  assert ((1 - 3 * u) * G <= t2 * (1 - u)) as Hfin by lra.
  assert (b * ((1 - 3 * u) * G) <= b * (t2 * (1 - u)))
    by (apply Qmult_le_l; done).
  lra.
Qed.

Lemma sell_side_cost (u s cs csl sellFee slippage w1 w2 sp : Q) :
  0 <= u -> u <= 1 # 16 -> 0 < s -> 0 <= cs -> 0 <= csl ->
  cs * (1 - u) <= sellFee -> csl * (1 - u) <= slippage ->
  Rounding.near u (1 - sellFee) w1 ->
  Rounding.near u (w1 - slippage) w2 ->
  Rounding.near u (s * w2) sp ->
  0 < sp ->
  0 < 1 - (cs + csl) * (1 - 2 * u) /\
  sp <= s * ((1 + 4 * u) * (1 - (cs + csl) * (1 - 2 * u))).
Proof.
  intros Hu Hu1 Hs Hcs Hcsl Hf Hsl H1 H2 H3 Hsp.
  assert (0 < w2) as Hw2.
  { destruct (Qlt_le_dec 0 w2) as [|Hle]; [done|].
    pose proof (near_nonpos _ _ _ Hu ltac:(lra) H3 ltac:(nra)). lra. }
  assert (0 < w1 - slippage) as He2.
  { destruct (Qlt_le_dec 0 (w1 - slippage)) as [|Hle]; [done|].
    pose proof (near_nonpos _ _ _ Hu ltac:(lra) H2 Hle). lra. }
  assert (0 <= cs * (1 - u)) by (apply Qmult_le_0_compat; lra).
  assert (0 <= csl * (1 - u)) by (apply Qmult_le_0_compat; lra).
  assert (0 < 1 - sellFee) as He1.
  { destruct (Qlt_le_dec 0 (1 - sellFee)) as [|Hle]; [done|].
    pose proof (near_nonpos _ _ _ Hu ltac:(lra) H1 Hle). lra. }
  set (Hh := 1 - (cs + csl) * (1 - 2 * u)).
  pose proof (near_upper _ _ _ H1 ltac:(lra)) as U1.
  assert (w1 <= (1 - cs * (1 - u)) * (1 + u)) as Hw1.
  { pose proof (Qmult_le_mono_r (1 - sellFee) (1 - cs * (1 - u)) (1 + u)
                                ltac:(lra) ltac:(lra)). lra. }
  assert (0 <= csl * (u * u)) by (apply Qmult_le_0_compat; nra).
  assert (0 <= cs * u) by (apply Qmult_le_0_compat; lra).
  assert (0 <= cs * u * (1 + u)) by (apply Qmult_le_0_compat; lra).
  assert (w1 - slippage <= Hh * (1 + u)) as Hsum by (unfold Hh; nra).
  assert (0 < Hh) as HH0.
  { destruct (Qlt_le_dec 0 Hh) as [|Hle]; [done|].
    assert (Hh * (1 + u) <= 0) by nra. lra. }
  split; [done|].
  pose proof (near_upper _ _ _ H2 ltac:(lra)) as U2.
  assert (w2 <= Hh * (1 + u) * (1 + u)) as Hw2'.
  { pose proof (Qmult_le_mono_r _ _ (1 + u) Hsum ltac:(lra)). lra. }
  assert (0 < s * w2) as Hsw by (apply Qmult_lt_0_compat; done).
  pose proof (near_upper _ _ _ H3 ltac:(lra)) as U3.
  assert (w2 * (1 + u) <= Hh * (1 + u) * (1 + u) * (1 + u)) as Hw3
    by (apply Qmult_le_mono_r; [done|lra]).
  pose proof (cube_above u Hu Hu1) as Hc.
  assert (Hh * ((1 + u) * (1 + u) * (1 + u)) <= Hh * (1 + 4 * u)) as Hc'
    by (apply Qmult_le_l; lra).
  assert (w2 * (1 + u) <= (1 + 4 * u) * Hh) as Hfin by lra.
  assert (s * (w2 * (1 + u)) <= s * ((1 + 4 * u) * Hh))
    by (apply Qmult_le_l; done).
  lra.
Qed.

(** A positive computed profit puts the computed spread above the costs,
    up to rounding. *)
Lemma rounded_breakeven (u b s cb cs csl bp sp n q P d r S : Q) :
  0 <= u -> u <= 1 # 16 -> 0 < b -> 0 <= cb -> 0 <= cs -> 0 <= csl ->
  b * ((1 - 3 * u) * (1 + (cb + csl) * (1 - u))) <= bp ->
  (0 < sp ->
   0 < 1 - (cs + csl) * (1 - 2 * u) /\
   sp <= s * ((1 + 4 * u) * (1 - (cs + csl) * (1 - 2 * u)))) ->
  0 < bp ->
  Rounding.near u (sp - bp) n -> Rounding.near u (n / bp) q ->
  Rounding.near u (q * 100) P ->
  Rounding.near u (s - b) d -> Rounding.near u (d / b) r ->
  Rounding.near u (r * 100) S ->
  0 < P ->
  (cb + cs + 2 * csl) * 100 * (1 - 12 * u) - 700 * u < S.
Proof.
  intros Hu Hu1 Hb Hcb Hcs Hcsl Hbuy Hsell Hbp N1 N2 N3 S1 S2 S3 HP.
  destruct (profit_side u bp sp n q P) as [Hneg _]; try done.
  assert (0 < sp - bp) as Hnet.
  { destruct (Qlt_le_dec 0 (sp - bp)) as [|Hle]; [done|].
    specialize (Hneg Hle). lra. }
  destruct (Hsell ltac:(lra)) as [HH0 Hsp].
  set (D1 := (cb + csl) * (1 - u)) in *.
  set (D2 := (cs + csl) * (1 - 2 * u)) in *.
  set (D' := cb + cs + 2 * csl).
  assert (0 <= D1) as HD1 by (apply Qmult_le_0_compat; lra).
  assert (0 <= D2) as HD2 by (apply Qmult_le_0_compat; lra).
  assert (0 <= D1 * D2) as HD12 by (apply Qmult_le_0_compat; lra).
  assert (0 <= D2 * D2) as HD22 by (apply Qmult_le_0_compat; lra).
  assert (0 < s) as Hs.
  { destruct (Qlt_le_dec 0 s) as [|Hle]; [done|].
    assert (0 <= (- s) * ((1 + 4 * u) * (1 - D2)))
      by (apply Qmult_le_0_compat; [lra|apply Qmult_le_0_compat; lra]).
    lra. }
  assert (b * ((1 - 3 * u) * (1 + D1)) < s * ((1 + 4 * u) * (1 - D2))) as E1
    by lra.
  assert (b * ((1 - 3 * u) * (1 + D1)) * (1 + D2)
          < s * ((1 + 4 * u) * (1 - D2)) * (1 + D2)) as E2
    by (apply Qmult_lt_compat_r; lra).
  assert (0 <= s * (1 + 4 * u) * (D2 * D2)) as E3
    by (apply Qmult_le_0_compat; [apply Qmult_le_0_compat; lra|lra]).
  assert (0 <= b * (1 - 3 * u) * (D1 * D2)) as E4
    by (apply Qmult_le_0_compat; [apply Qmult_le_0_compat; lra|lra]).
  assert (b * ((1 - 3 * u) * (1 + D1 + D2)) < s * (1 + 4 * u)) as E5 by nra.
  assert (0 <= (cb + csl) * u) by (apply Qmult_le_0_compat; lra).
  assert (D' * (1 - 2 * u) <= D1 + D2) as E6 by (unfold D', D1, D2; nra).
  assert (0 <= D') as HD' by (unfold D'; lra).
  assert (0 <= D' * (u * u)) by (apply Qmult_le_0_compat; nra).
  assert (0 <= D' * u) by (apply Qmult_le_0_compat; nra).
  assert (1 - 3 * u + D' * (1 - 5 * u) <= (1 - 3 * u) * (1 + D1 + D2)) as E7.
  { assert ((1 - 3 * u) * (D' * (1 - 2 * u)) <= (1 - 3 * u) * (D1 + D2))
      by (apply Qmult_le_l; lra). nra. }
  assert (b * (1 - 3 * u + D' * (1 - 5 * u)) < s * (1 + 4 * u)) as E8.
  { assert (b * (1 - 3 * u + D' * (1 - 5 * u))
            <= b * ((1 - 3 * u) * (1 + D1 + D2)))
      by (apply Qmult_le_l; lra). lra. }
  set (ib := / b).
  assert (0 < ib) as Hib by (by apply Qinv_lt_0_compat).
  assert (b * ib == 1) as Eb by (unfold ib; field; lra).
  set (Y := (s - b) * ib).
  assert (Y * b == s - b) as EY by (unfold Y; nra).
  set (Tq := D' * (1 - 5 * u) - 7 * u).
  assert (Tq * b < Y * (1 + 4 * u) * b) as E9.
  { assert (s == Y * b + b) as Es by lra.
    assert (b * (1 - 3 * u + D' * (1 - 5 * u)) < (Y * b + b) * (1 + 4 * u))
      by (rewrite <-Es; done).
    unfold Tq. nra. }
  assert (Tq < Y * (1 + 4 * u)) as E10 by (apply (Qmult_lt_r _ _ b); done).
  assert (0 <= u * u) as Huu by nra.
  destruct (Qlt_le_dec b s) as [Hbs|Hbs].
  - destruct (spread_side u b s d r S) as [HS HS0]; try done.
    unfold Qdiv in HS. fold ib in HS. fold Y in HS.
    assert (0 < Y) as HY by (unfold Y; nra).
    assert (D' * (1 - 12 * u) - 7 * u < (1 - 3 * u) * Y) as E11.
    { destruct (Qlt_le_dec Tq 0) as [Hn|Hp].
      - assert (0 < (1 - 3 * u) * Y) by (apply Qmult_lt_0_compat; lra).
        unfold Tq in Hn. nra.
      - assert (Tq * ((1 - 3 * u) * (1 - 4 * u))
                < Y * (1 + 4 * u) * ((1 - 3 * u) * (1 - 4 * u)))
          by (apply Qmult_lt_compat_r; [nra|done]).
        assert (0 <= Y * (u * u)) by (apply Qmult_le_0_compat; lra).
        assert (0 <= Y * (u * u) * u) by (apply Qmult_le_0_compat; lra).
        assert (Y * (1 + 4 * u) * ((1 - 3 * u) * (1 - 4 * u))
                <= (1 - 3 * u) * Y) by nra.
        assert (0 <= Tq * (12 * (u * u))) by (apply Qmult_le_0_compat; lra).
        assert (Tq * (1 - 7 * u) <= Tq * ((1 - 3 * u) * (1 - 4 * u))) by nra.
        assert (D' * (1 - 12 * u) - 7 * u <= Tq * (1 - 7 * u))
          by (unfold Tq; nra).
        lra. }
    unfold D' in *. nra.
  - pose proof (spread_side_neg u b s d r S Hu Hu1 Hb Hbs S1 S2 S3) as HS.
    unfold Qdiv in HS. fold ib in HS. fold Y in HS.
    unfold Tq, D' in *. nra.
Qed.

End RoundedCosts.

(** The figures the detector attaches to an opportunity are those of the
    cost model run on exact arithmetic, and every operation of that run is
    exact. *)
Lemma detected_figures_are_exact
      (now : Z) (price1 price2 : TickerPrice) (symbol : string)
      (self : ArbitrageDetector.t) (o : ArbitrageOpportunity) :
  ArbitrageDetector.detectOpportunity now price1 price2 symbol self = Some o ->
  ArbitrageDetector.direction price1 price2
    = Some (opp_buyExchange o, opp_sellExchange o,
            opp_buyPrice o, opp_sellPrice o) /\
  opp_spreadPercent o
    = fst (Rounding.spreadPercent Rounding.exact
             (opp_buyPrice o) (opp_sellPrice o)) /\
  opp_profitPercent o
    = fst (Rounding.profitPercent Rounding.exact
             (ArbitrageDetector.config self)
             (opp_buyExchange o) (opp_sellExchange o)
             (opp_buyPrice o) (opp_sellPrice o)).
Proof.
  unfold ArbitrageDetector.detectOpportunity. intros Hdet.
  destruct (ArbitrageDetector.direction price1 price2)
    as [[[[be se] b] s]|]; [|done].
  destruct (Num.lt _ _); [done|]. by injection Hdet as <-.
Qed.

Lemma exact_arithmetic_is_within
      (u : Q) (config : Config) (be se : ExchangeName) (b s : Q) :
  (0 <= u)%Q ->
  Forall (Rounding.within u)
         (snd (Rounding.spreadPercent Rounding.exact b s)) /\
  Forall (Rounding.within u)
         (snd (Rounding.profitPercent Rounding.exact config be se b s)).
Proof.
  intros Hu.
  cbv [Rounding.spreadPercent Rounding.profitPercent mbind
       Rounding.traced_bind Rounding.plus Rounding.minus Rounding.times
       Rounding.over fst snd app Rounding.exact Rounding.add Rounding.sub
       Rounding.mul Rounding.div].
  split; repeat (apply Forall_cons; split); try apply Forall_nil_2;
    by apply near_refl.
Qed.

(** C5 (amended).  Let every operation of the spread and profit
    computations of [checkArbitrage] return its exact result up to a
    relative error of [u]: [u] = 0 is exact arithmetic, [u] = 2^-53 is
    binary64 while nothing overflows or underflows.  Then for every
    direction [checkArbitrage] finds with a positive buy price, when both
    taker fees and the slippage are above 1100 [u] percent (just positive
    in exact arithmetic, about 1.2e-13 % on binary64), the net profit
    percent is strictly below the gross spread percent. *)
Theorem net_profit_below_gross_spread
        (A : Rounding.Arithmetic) (u : Q) (config : Config)
        (price1 price2 : TickerPrice)
        (buyExchange sellExchange : ExchangeName) (buyPrice sellPrice : Q) :
  ArbitrageDetector.direction price1 price2
    = Some (buyExchange, sellExchange, buyPrice, sellPrice) ->
  (0 < buyPrice)%Q ->
  (0 <= u)%Q -> (u <= 1 # 16)%Q ->
  Forall (Rounding.within u)
         (snd (Rounding.spreadPercent A buyPrice sellPrice)) ->
  Forall (Rounding.within u)
         (snd (Rounding.profitPercent A config buyExchange sellExchange
                                      buyPrice sellPrice)) ->
  (1100 * u < taker (fees_binance config))%Q ->
  (1100 * u < taker (fees_mexc config))%Q ->
  (1100 * u < slippage_percent config)%Q ->
  (fst (Rounding.profitPercent A config buyExchange sellExchange
                               buyPrice sellPrice)
   < fst (Rounding.spreadPercent A buyPrice sellPrice))%Q.
Proof.
  intros Hdir Hb Hu Hu1 Hspread Hprofit Hfb Hfm Hsl.
  pose proof (direction_buys_low _ _ _ _ _ _ Hdir) as Hbs.
  assert (1100 * u < taker (fees config buyExchange))%Q as Hbuy
    by (by destruct buyExchange).
  assert (1100 * u < taker (fees config sellExchange))%Q as Hsell
    by (by destruct sellExchange).
  cbv [Rounding.spreadPercent Rounding.profitPercent mbind
       Rounding.traced_bind Rounding.plus Rounding.minus Rounding.times
       Rounding.over fst snd app] in Hspread, Hprofit |- *.
  set (buyFee := Rounding.div A (taker (fees config buyExchange)) 100) in *.
  set (sellFee := Rounding.div A (taker (fees config sellExchange)) 100) in *.
  set (slippage := Rounding.div A (slippage_percent config) 100) in *.
  set (onePlusFee := Rounding.add A 1 buyFee) in *.
  set (buyFactor := Rounding.add A onePlusFee slippage) in *.
  set (oneMinusFee := Rounding.sub A 1 sellFee) in *.
  set (sellFactor := Rounding.sub A oneMinusFee slippage) in *.
  set (buyCost := Rounding.mul A buyPrice buyFactor) in *.
  set (sellCost := Rounding.mul A sellPrice sellFactor) in *.
  set (net := Rounding.sub A sellCost buyCost) in *.
  set (netRatio := Rounding.div A net buyCost) in *.
  set (gross := Rounding.sub A sellPrice buyPrice) in *.
  set (grossRatio := Rounding.div A gross buyPrice) in *.
  repeat match goal with
         | H : Forall _ (_ :: _) |- _ =>
             let H' := fresh "Hstep" in apply Forall_cons in H as [H' H]
         end.
  clear Hspread Hprofit.
  cbv [Rounding.within Rounding.ideal Rounding.returned] in *.
  assert (10 * u < buyFee)%Q as Hbf
    by (by apply (fee_registers u (taker (fees config buyExchange)))).
  assert (10 * u < sellFee)%Q as Hsf
    by (by apply (fee_registers u (taker (fees config sellExchange)))).
  assert (10 * u < slippage)%Q as Hslip
    by (by apply (fee_registers u (slippage_percent config))).
  apply (rounded_cost_bites u buyPrice sellPrice buyCost sellCost
                            net netRatio _ gross grossRatio);
    try assumption.
  - by apply (buy_side u buyPrice buyFee slippage onePlusFee buyFactor).
  - intros Hpos. assert (0 < sellPrice)%Q by lra.
    by apply (sell_side u sellPrice sellFee slippage oneMinusFee sellFactor).
Qed.

(** The figures of the example on binary64: buy at 100, sell at 100.5,
    taker fee 0.08 % on either venue, slippage 0.1 %.  Every operation of
    the run is within 2^-53 of its exact result. *)
Lemma net_profit_below_gross_spread_witness :
  (fst (Rounding.profitPercent Binary64.arithmetic (Sample.config 0.3 true)
                               binance mexc 100 100.5)
   < fst (Rounding.spreadPercent Binary64.arithmetic 100 100.5))%Q.
Proof.
  apply (net_profit_below_gross_spread
           Binary64.arithmetic Binary64.unitRoundoff (Sample.config 0.3 true)
           Sample.btcBinance Sample.btcMexc binance mexc 100 100.5);
    try reflexivity; try discriminate;
    cbv [Rounding.spreadPercent Rounding.profitPercent mbind
         Rounding.traced_bind Rounding.plus Rounding.minus Rounding.times
         Rounding.over fst snd app];
    repeat (apply Forall_cons; split); try apply Forall_nil_2;
    vm_compute; discriminate.
Defined.

(** C5, as stated, fails of the program.  With both taker fees and the
    slippage at 1e-15 %, positive, buying at 100 and selling at 100.5, every
    operation of the run on binary64 is within 2^-53 of its exact result,
    yet [1 + buyFee + slippage] and [1 - sellFee - slippage] both round to
    1 and the net profit percent equals the gross spread percent. *)
#[local] Set Warnings "-inexact-float".
Lemma tiny_costs_vanish_on_binary64 :
  ArbitrageDetector.direction Sample.btcBinance Sample.btcMexc
    = Some (binance, mexc, 100%Q, 100.5%Q) /\
  (0 < taker (fees_binance Sample.tinyCosts))%Q /\
  (0 < taker (fees_mexc Sample.tinyCosts))%Q /\
  (0 < slippage_percent Sample.tinyCosts)%Q /\
  Forall (Rounding.within Binary64.unitRoundoff)
         (snd (Rounding.spreadPercent Binary64.arithmetic 100 100.5)) /\
  Forall (Rounding.within Binary64.unitRoundoff)
         (snd (Rounding.profitPercent Binary64.arithmetic Sample.tinyCosts
                                      binance mexc 100 100.5)) /\
  fst (Rounding.profitPercent Binary64.arithmetic Sample.tinyCosts
                              binance mexc 100 100.5)
    = fst (Rounding.spreadPercent Binary64.arithmetic 100 100.5) /\
  ~ (fst (Rounding.profitPercent Binary64.arithmetic Sample.tinyCosts
                                 binance mexc 100 100.5)
     < fst (Rounding.spreadPercent Binary64.arithmetic 100 100.5))%Q /\
  PrimFloat.eqb (Binary64.profitPercentOf 1e-15 1e-15 1e-15 100 100.5)
                (Binary64.spreadPercentOf 100 100.5) = true.
Proof.
  split; [reflexivity|]. split; [reflexivity|]. split; [reflexivity|].
  split; [reflexivity|].
  split.
  { cbv [Rounding.spreadPercent mbind Rounding.traced_bind Rounding.minus
         Rounding.times Rounding.over fst snd app].
    repeat (apply Forall_cons; split); try apply Forall_nil_2;
      vm_compute; discriminate. }
  split.
  { cbv [Rounding.profitPercent mbind Rounding.traced_bind Rounding.plus
         Rounding.minus Rounding.times Rounding.over fst snd app].
    repeat (apply Forall_cons; split); try apply Forall_nil_2;
      vm_compute; discriminate. }
  split; [vm_compute; reflexivity|].
  split; [vm_compute; discriminate|].
  vm_compute. reflexivity.
Qed.

(** On the figures of the example, the run of the cost model through
    [Binary64.arithmetic] is the computation on floats. *)
Example binary64_arithmetic_is_the_float_computation :
  Binary64.ofQ
    (fst (Rounding.profitPercent Binary64.arithmetic (Sample.config 0.3 true)
                                 binance mexc 100 100.5))
  = Binary64.profitPercentOf 0.08 0.08 0.1 100 100.5 /\
  Binary64.ofQ (fst (Rounding.spreadPercent Binary64.arithmetic 100 100.5))
  = Binary64.spreadPercentOf 100 100.5.
Proof. split; vm_compute; reflexivity. Qed.

(** On binary64 the figures of the example give the verdict of exact
    arithmetic (the decimal literals denote, as in the program, the nearest
    binary64 values). *)
Example net_profit_below_gross_spread_binary64 :
  PrimFloat.ltb
    (Binary64.profitPercentOf 0.08 0.08 0.1 100 100.5)
    (Binary64.spreadPercentOf 100 100.5) = true.
Proof. vm_compute. reflexivity. Qed.
#[local] Set Warnings "inexact-float".

(** C1 (amended).  [checkArbitrage] filters on the gross spread and on
    nothing else.  When the gross spread percent of the direction found is
    below [minSpreadPercent], nothing is built, nothing is counted and no
    call is made.  When it is at or above [minSpreadPercent], the
    opportunity is built, whatever its net profit percent, which is
    computed afterwards and compared with no threshold; it is counted, and
    the calls made end with the spread update at its prices. *)
Theorem checkArbitrage_filters_on_gross_spread
        (tradeExecutor : TradeExecutor) (now : Z)
        (price1 price2 : TickerPrice) (symbol : string)
        (self : ArbitrageDetector.t) :
  match ArbitrageDetector.detectOpportunity now price1 price2 symbol self with
  | Some o =>
      (arbitrage_minSpreadPercent (ArbitrageDetector.config self)
         <= opp_spreadPercent o)%Q /\
      ArbitrageDetector.opportunitiesFound
        (ArbitrageDetector.checkArbitrage
           tradeExecutor now price1 price2 symbol self).1
      = S (ArbitrageDetector.opportunitiesFound self) /\
      exists calls : list Call,
        (ArbitrageDetector.checkArbitrage
           tradeExecutor now price1 price2 symbol self).2
        = (calls ++ [ updatePositionSpread symbol (opp_buyPrice o)
                                           (opp_sellPrice o) ])%list
  | None =>
      ArbitrageDetector.opportunitiesFound
        (ArbitrageDetector.checkArbitrage
           tradeExecutor now price1 price2 symbol self).1
      = ArbitrageDetector.opportunitiesFound self /\
      (ArbitrageDetector.checkArbitrage
         tradeExecutor now price1 price2 symbol self).2 = []
  end /\
  forall (be se : ExchangeName) (b s : Q),
    ArbitrageDetector.direction price1 price2 = Some (be, se, b, s) ->
    ((ArbitrageDetector.spreadPercentOf b s
        < arbitrage_minSpreadPercent (ArbitrageDetector.config self))%Q ->
     ArbitrageDetector.detectOpportunity now price1 price2 symbol self
     = None) /\
    ((arbitrage_minSpreadPercent (ArbitrageDetector.config self)
        <= ArbitrageDetector.spreadPercentOf b s)%Q ->
     ArbitrageDetector.detectOpportunity now price1 price2 symbol self
     = Some (mkOpportunity
               symbol be se b s
               (ArbitrageDetector.spreadPercentOf b s)
               (ArbitrageDetector.profitPercentOf
                  (ArbitrageDetector.config self) be se b s)
               now)).
Proof.
  split.
  - unfold ArbitrageDetector.checkArbitrage,
      ArbitrageDetector.detectOpportunity. cbn.
    destruct (ArbitrageDetector.direction price1 price2)
      as [[[[be se] b] s]|]; [|done].
    destruct (Num.lt _ _) eqn:E; [done|].
    apply lt_false in E. cbn. split; [done|]. split; [done|].
    by eexists.
  - intros be se b s Hdir.
    unfold ArbitrageDetector.detectOpportunity. rewrite Hdir.
    split.
    + intros Hlow. apply lt_true in Hlow. by rewrite Hlow.
    + intros Hhigh. apply lt_false in Hhigh. by rewrite Hhigh.
Qed.

(** C1, as stated, fails.  With a minimum of 0.3 %, a Binance tick asking 100
    against a cached MEXC bid of 100.5 has a gross spread of 0.5 % and a net
    profit of about 0.14 %, below the minimum; the opportunity is built all
    the same and a pairing is opened from it. *)
Lemma net_profit_below_minimum_still_emitted :
  exists o : ArbitrageOpportunity,
    ArbitrageDetector.detectOpportunity
      1700000000001 Sample.btcBinance Sample.btcMexc "BTCUSDT"
      (Sample.detector 0.3 true [Sample.btcBinance] [Sample.btcMexc])
    = Some o /\
    (opp_profitPercent o == 1391 # 10018)%Q /\
    (opp_profitPercent o < 0.3)%Q /\
    (ArbitrageDetector.onPriceUpdate
       (mkTradeExecutor [] true) 1700000000001 Sample.btcBinance
       (Sample.detector 0.3 true [Sample.btcBinance] [Sample.btcMexc])).2
    = [ openPositionPair o; updatePositionSpread "BTCUSDT" 100 100.5 ].
Proof.
  eexists. split; [vm_compute; reflexivity|].
  split; [reflexivity|]. split; [reflexivity|].
  vm_compute. reflexivity.
Qed.

(** ** Slot decision engine *)

Section SlotEngine.
Import ArbitrageDetector.
Local Open Scope Q_scope.

Lemma symbolAlreadyOpen_true (symbol : string)
      (entries : list (string * PositionPair)) :
  symbolAlreadyOpen symbol entries = true <->
  exists pairId p, (pairId, p) ∈ entries /\ pair_symbol p = symbol.
Proof.
  induction entries as [|[pairId p] rest IH]; cbn.
  - split; [done|]. intros (? & ? & H & _). by apply elem_of_nil in H.
  - destruct (String.eqb_spec (pair_symbol p) symbol) as [Heq|Hne].
    + split; [|done]. intros _. exists pairId, p. split; [left|done].
    + rewrite IH. split.
      * intros (i & q & Hin & Hq). exists i, q. split; [by right|done].
      * intros (i & q & Hin & Hq).
        apply elem_of_cons in Hin as [[= -> ->]|Hin]; [done|].
        by exists i, q.
Qed.

Lemma ledgerCalls_app (xs ys : list Call) :
  ledgerCalls (xs ++ ys) = (ledgerCalls xs ++ ledgerCalls ys)%list.
Proof. unfold ledgerCalls. apply List.filter_app. Qed.

(** When every priced pairing is below the threshold, the loop stops at the
    first priced one and records why. *)
Lemma replacementLoop_all_below (self : t) (o : ArbitrageOpportunity)
      (entries : list (string * PositionPair)) :
  Forall (fun e => forall prices,
            getCurrentPrices (pair_symbol (snd e)) self = Some prices ->
            avgPnl self (snd e) prices
              < notifications_minSpreadToNotify (config self))
         entries ->
  let '(calls, returned) := replacementLoop self o entries in
  ledgerCalls calls =
    match firstPriced self entries with
    | Some (p, prices) =>
        [recordSkippedOpportunity o POSITION_NOT_PROFITABLE None None
           (Some (avgPnl self p prices))]
    | None => []
    end /\
  returned =
    match firstPriced self entries with Some _ => true | None => false end.
Proof.
  induction entries as [|[pairId p] rest IH]; intros Hall; cbn; [done|].
  inversion Hall as [|? ? Hp Hrest]; subst. cbn in Hp.
  destruct (getCurrentPrices (pair_symbol p) self) as [prices|] eqn:E.
  - specialize (Hp prices eq_refl). apply ge_false in Hp. rewrite Hp.
    by cbn.
  - specialize (IH Hrest).
    destruct (replacementLoop self o rest) as [calls returned].
    by cbn.
Qed.

(** The loop passes over unpriced pairings and over pairings at least as
    profitable as the opportunity, and replaces the first pairing that is at
    or above the threshold and less profitable than the opportunity. *)
Lemma replacementLoop_first_fit (self : t) (o : ArbitrageOpportunity)
      (before after : list (string * PositionPair))
      (pairId : string) (p : PositionPair) (prices : CurrentPrices) :
  Forall (fun e => forall quoted,
            getCurrentPrices (pair_symbol (snd e)) self = Some quoted ->
            notifications_minSpreadToNotify (config self)
              <= avgPnl self (snd e) quoted /\
            opp_profitPercent o <= avgPnl self (snd e) quoted)
         before ->
  getCurrentPrices (pair_symbol p) self = Some prices ->
  notifications_minSpreadToNotify (config self) <= avgPnl self p prices ->
  avgPnl self p prices < opp_profitPercent o ->
  let '(calls, returned) :=
    replacementLoop self o (before ++ (pairId, p) :: after) in
  ledgerCalls calls =
    [closePositionManually pairId (buyPrice prices) (sellPrice prices);
     openPositionPair o] /\
  returned = true.
Proof.
  intros Hbefore Hprices Hthr Hbetter.
  induction before as [|[i q] before IH]; cbn.
  - rewrite Hprices. apply ge_true in Hthr. rewrite Hthr.
    unfold Num.gt. apply lt_true in Hbetter. rewrite Hbetter. by cbn.
  - inversion Hbefore as [|? ? Hq Hrest]; subst. cbn in Hq.
    specialize (IH Hrest).
    destruct (replacementLoop self o (before ++ (pairId, p) :: after))
      as [calls returned].
    destruct (getCurrentPrices (pair_symbol q) self) as [quoted|]; [|by cbn].
    destruct (Hq quoted eq_refl) as [Hq1 Hq2].
    apply ge_true in Hq1. rewrite Hq1.
    unfold Num.gt. apply lt_false in Hq2. by rewrite Hq2.
Qed.

End SlotEngine.

(** C8.  An opportunity on an instrument that already has an open pairing
    is discarded: the slot decision engine makes no call at all, so nothing
    is opened, nothing is closed and no skip record is written. *)
Theorem duplicate_symbol_discarded
        (tradeExecutor : TradeExecutor) (o : ArbitrageOpportunity)
        (self : ArbitrageDetector.t) (pairId : string) (p : PositionPair) :
  (pairId, p) ∈ getOpenPositions tradeExecutor ->
  pair_symbol p = opp_symbol o ->
  ArbitrageDetector.handleNewOpportunity tradeExecutor o self = [].
Proof.
  intros Hin Hsym. unfold ArbitrageDetector.handleNewOpportunity.
  assert (ArbitrageDetector.symbolAlreadyOpen
            (opp_symbol o) (getOpenPositions tradeExecutor) = true) as ->;
    [|done].
  apply symbolAlreadyOpen_true. by exists pairId, p.
Qed.

Lemma duplicate_symbol_discarded_witness :
  ArbitrageDetector.handleNewOpportunity
    (mkTradeExecutor [Sample.ethPairing] true)
    (Sample.opportunity "ETHUSDT" 5) (Sample.quoted true) = [].
Proof.
  apply (duplicate_symbol_discarded
           (mkTradeExecutor [Sample.ethPairing] true)
           (Sample.opportunity "ETHUSDT" 5) (Sample.quoted true)
           (fst Sample.ethPairing) (snd Sample.ethPairing)).
  - left.
  - reflexivity.
Defined.

(** C9.  A tick whose instrument has no cached price on the other venue is a
    silent no-op: [onPriceUpdate] returns with the detector unchanged (no
    comparison and no opportunity counted) and without any call to the
    logger or to the trade executor. *)
Theorem no_counterpart_price_is_silent
        (tradeExecutor : TradeExecutor) (now : Z) (price : TickerPrice)
        (self : ArbitrageDetector.t) :
  (tp_exchange price = binance ->
   MexcFutures.priceCache (ArbitrageDetector.mexc_client self)
     !! MexcFutures.toMexcFormat (MexcFutures.toCommonFormat (tp_symbol price))
   = None) ->
  (tp_exchange price = mexc ->
   BinanceFutures.priceCache (ArbitrageDetector.binance_client self)
     !! MexcFutures.toCommonFormat (tp_symbol price)
   = None) ->
  ArbitrageDetector.onPriceUpdate tradeExecutor now price self = (self, []).
Proof.
  intros Hb Hm.
  unfold ArbitrageDetector.onPriceUpdate, ArbitrageDetector.otherPrice.
  destruct (tp_exchange price).
  - unfold MexcFutures.getPrice. by rewrite Hb.
  - unfold BinanceFutures.getPrice. by rewrite Hm.
Qed.

(** One venue populated, the other empty. *)
Lemma no_counterpart_price_is_silent_witness :
  ArbitrageDetector.onPriceUpdate
    (mkTradeExecutor [] true) 1700000000001 Sample.btcBinance
    (Sample.detector 0.3 true [Sample.btcBinance; Sample.ethBinance] [])
  = (Sample.detector 0.3 true [Sample.btcBinance; Sample.ethBinance] [], []).
Proof.
  apply no_counterpart_price_is_silent.
  - intros _. reflexivity.
  - intros H. discriminate H.
Defined.

(** C2 (amended).  When every slot is taken, the opportunity's instrument
    has no open pairing, and every open pairing has a current profit below
    the notify threshold, the opportunity is skipped with exactly one skip
    record and nothing is closed or opened.  The reason is
    [POSITION_NOT_PROFITABLE], with the current profit of the first open
    pairing that has current prices, when replacement on a new opportunity
    is enabled and there is such a pairing; it is [NO_FREE_SLOTS]
    otherwise. *)
Theorem all_below_threshold_skips_once
        (tradeExecutor : TradeExecutor) (o : ArbitrageOpportunity)
        (self : ArbitrageDetector.t) :
  ArbitrageDetector.symbolAlreadyOpen
    (opp_symbol o) (getOpenPositions tradeExecutor) = false ->
  canOpenNewPosition tradeExecutor = false ->
  Forall (fun e => forall prices,
            ArbitrageDetector.getCurrentPrices (pair_symbol (snd e)) self
              = Some prices ->
            (ArbitrageDetector.avgPnl self (snd e) prices
               < notifications_minSpreadToNotify
                   (ArbitrageDetector.config self))%Q)
         (getOpenPositions tradeExecutor) ->
  ledgerCalls (ArbitrageDetector.handleNewOpportunity tradeExecutor o self)
  = [skipWhenAllBelow tradeExecutor o self].
Proof.
  intros Hsym Hfull Hall.
  unfold ArbitrageDetector.handleNewOpportunity, skipWhenAllBelow.
  rewrite Hsym, Hfull.
  destruct (trading_closeOnNewOpportunity (ArbitrageDetector.config self));
    [|done].
  pose proof (replacementLoop_all_below self o _ Hall) as H.
  destruct (ArbitrageDetector.replacementLoop
              self o (getOpenPositions tradeExecutor)) as [calls returned].
  destruct H as [Hcalls ->].
  destruct (firstPriced self (getOpenPositions tradeExecutor))
    as [[p prices]|].
  - done.
  - rewrite ledgerCalls_app, Hcalls. done.
Qed.

Lemma all_below_threshold_skips_once_witness :
  ledgerCalls
    (ArbitrageDetector.handleNewOpportunity
       (Sample.full [Sample.solPairing]) (Sample.opportunity "BTCUSDT" 5)
       (Sample.quoted true))
  = [skipWhenAllBelow (Sample.full [Sample.solPairing])
                      (Sample.opportunity "BTCUSDT" 5) (Sample.quoted true)].
Proof.
  apply all_below_threshold_skips_once.
  - reflexivity.
  - reflexivity.
  - apply Forall_cons. split; [|apply Forall_nil_2].
    intros prices H. vm_compute in H. injection H as <-. reflexivity.
Defined.

(** C2, as stated, fails.  Every slot is taken by a SOL pairing whose current
    profit is negative, below the threshold of 0.2 %; a BTC opportunity is
    skipped with reason [POSITION_NOT_PROFITABLE], not [NO_FREE_SLOTS]. *)
Lemma all_below_threshold_reason_is_not_profitable :
  canOpenNewPosition (Sample.full [Sample.solPairing]) = false /\
  (exists prices : CurrentPrices,
     ArbitrageDetector.getCurrentPrices "SOLUSDT" (Sample.quoted true)
       = Some prices /\
     (ArbitrageDetector.avgPnl
        (Sample.quoted true) (snd Sample.solPairing) prices < 0.2)%Q) /\
  skipReasons
    (ArbitrageDetector.handleNewOpportunity
       (Sample.full [Sample.solPairing]) (Sample.opportunity "BTCUSDT" 5)
       (Sample.quoted true))
  = [POSITION_NOT_PROFITABLE].
Proof.
  split; [reflexivity|]. split.
  - eexists. split; [vm_compute; reflexivity | reflexivity].
  - vm_compute. reflexivity.
Qed.

(** C6 (amended).  When every slot is taken, the opportunity's instrument
    has no open pairing, replacement on a new opportunity is enabled, and,
    in ledger order, an open pairing with current profit at or above the
    notify threshold and below the opportunity's profit is preceded only by
    pairings that have no current prices or that are at or above the
    threshold and at least as profitable as the opportunity, then exactly
    two calls reach the ledger: the close of that pairing at its current
    prices, and the open of the opportunity.  The pairings after it are not
    examined. *)
Theorem first_fit_replacement
        (tradeExecutor : TradeExecutor) (o : ArbitrageOpportunity)
        (self : ArbitrageDetector.t)
        (before after : list (string * PositionPair))
        (pairId : string) (p : PositionPair) (prices : CurrentPrices) :
  ArbitrageDetector.symbolAlreadyOpen
    (opp_symbol o) (getOpenPositions tradeExecutor) = false ->
  canOpenNewPosition tradeExecutor = false ->
  trading_closeOnNewOpportunity (ArbitrageDetector.config self) = true ->
  getOpenPositions tradeExecutor = (before ++ (pairId, p) :: after)%list ->
  Forall (fun e => forall quoted,
            ArbitrageDetector.getCurrentPrices (pair_symbol (snd e)) self
              = Some quoted ->
            (notifications_minSpreadToNotify (ArbitrageDetector.config self)
               <= ArbitrageDetector.avgPnl self (snd e) quoted)%Q /\
            (opp_profitPercent o
               <= ArbitrageDetector.avgPnl self (snd e) quoted)%Q)
         before ->
  ArbitrageDetector.getCurrentPrices (pair_symbol p) self = Some prices ->
  (notifications_minSpreadToNotify (ArbitrageDetector.config self)
     <= ArbitrageDetector.avgPnl self p prices)%Q ->
  (ArbitrageDetector.avgPnl self p prices < opp_profitPercent o)%Q ->
  ledgerCalls (ArbitrageDetector.handleNewOpportunity tradeExecutor o self)
  = [closePositionManually pairId (buyPrice prices) (sellPrice prices);
     openPositionPair o].
Proof.
  intros Hsym Hfull Hflag Hopen Hbefore Hprices Hthr Hbetter.
  unfold ArbitrageDetector.handleNewOpportunity.
  rewrite Hsym, Hfull, Hflag, Hopen.
  pose proof (replacementLoop_first_fit self o before after pairId p prices
                Hbefore Hprices Hthr Hbetter) as H.
  destruct (ArbitrageDetector.replacementLoop
              self o (before ++ (pairId, p) :: after)) as [calls returned].
  destruct H as [Hcalls ->]. exact Hcalls.
Qed.

(** An unquoted XRP pairing is passed over, the ETH pairing behind it is
    replaced, and the SOL pairing after it is left alone. *)
Lemma first_fit_replacement_witness :
  ledgerCalls
    (ArbitrageDetector.handleNewOpportunity
       (Sample.full [Sample.pairing "pair-xrp" "XRPUSDT" 0.5 0.51;
                     Sample.ethPairing; Sample.solPairing])
       (Sample.opportunity "BTCUSDT" 5) (Sample.quoted true))
  = [closePositionManually "pair-eth" 1990 2000;
     openPositionPair (Sample.opportunity "BTCUSDT" 5)].
Proof.
  apply (first_fit_replacement
           (Sample.full [Sample.pairing "pair-xrp" "XRPUSDT" 0.5 0.51;
                         Sample.ethPairing; Sample.solPairing])
           (Sample.opportunity "BTCUSDT" 5) (Sample.quoted true)
           [Sample.pairing "pair-xrp" "XRPUSDT" 0.5 0.51]
           [Sample.solPairing]
           "pair-eth" (snd Sample.ethPairing) (mkCurrentPrices 1990 2000)).
  - reflexivity.
  - reflexivity.
  - reflexivity.
  - reflexivity.
  - apply Forall_cons. split; [|apply Forall_nil_2].
    intros quoted H. vm_compute in H. discriminate H.
  - vm_compute. reflexivity.
  - vm_compute. discriminate.
  - reflexivity.
Defined.

(** C6, as stated, fails, in two ways.  The ETH pairing is at about 4.39 %,
    above the threshold of 0.2 % and below the opportunity's 5 %.  With
    replacement on a new opportunity disabled, the opportunity is skipped
    with [NO_FREE_SLOTS]; with it enabled but a SOL pairing below the
    threshold ahead of the ETH pairing, the opportunity is skipped with
    [POSITION_NOT_PROFITABLE].  Either way nothing is closed or opened. *)
Lemma replacement_not_guaranteed :
  (exists prices : CurrentPrices,
     ArbitrageDetector.getCurrentPrices "ETHUSDT" (Sample.quoted true)
       = Some prices /\
     (0.2 <= ArbitrageDetector.avgPnl
               (Sample.quoted true) (snd Sample.ethPairing) prices)%Q /\
     (ArbitrageDetector.avgPnl
        (Sample.quoted true) (snd Sample.ethPairing) prices < 5)%Q) /\
  ledgerCalls
    (ArbitrageDetector.handleNewOpportunity
       (Sample.full [Sample.ethPairing]) (Sample.opportunity "BTCUSDT" 5)
       (Sample.quoted false))
  = [recordSkippedOpportunity (Sample.opportunity "BTCUSDT" 5)
       NO_FREE_SLOTS None None None] /\
  skipReasons
    (ArbitrageDetector.handleNewOpportunity
       (Sample.full [Sample.solPairing; Sample.ethPairing])
       (Sample.opportunity "BTCUSDT" 5) (Sample.quoted true))
  = [POSITION_NOT_PROFITABLE] /\
  List.filter (fun c => is_open_call c || is_close_call c)
    (ArbitrageDetector.handleNewOpportunity
       (Sample.full [Sample.solPairing; Sample.ethPairing])
       (Sample.opportunity "BTCUSDT" 5) (Sample.quoted true))
  = [].
Proof.
  split.
  - eexists. split; [vm_compute; reflexivity|].
    split; [vm_compute; discriminate | reflexivity].
  - split; [vm_compute; reflexivity|].
    split; vm_compute; reflexivity.
Qed.

(** * Further properties of the code *)

(** ** Connection health monitor: pairing, archive and statistics *)

Section MonitorExtras.
Import WebSocketMonitor.
Lemma run_events_snoc evs ev m :
  run_events (evs ++ [ev]) m = apply_event (run_events evs m) ev.
Proof. unfold run_events. by rewrite fold_left_app. Qed.

Lemma run_events_app evs1 evs2 m :
  run_events (evs1 ++ evs2) m = run_events evs2 (run_events evs1 m).
Proof. unfold run_events. by rewrite fold_left_app. Qed.

(** X1.  A reconnect that finds no open record for its venue changes
    nothing.  This is so on a fresh monitor, as when the socket opens for
    the first time, and after a reconnect of the venue, which leaves no
    record open for it: reporting a reconnect twice is the same as
    reporting it once. *)
Theorem recordReconnect_idempotent e t1 t2 m :
  (currentDowntime m !! e = None -> recordReconnect e t1 m = m) /\
  recordReconnect e t1 new = new /\
  currentDowntime (recordReconnect e t1 m) !! e = None /\
  recordReconnect e t2 (recordReconnect e t1 m) = recordReconnect e t1 m.
Proof.
  assert (forall t m', currentDowntime m' !! e = None ->
                       recordReconnect e t m' = m') as Hnone.
  { intros t m' E. unfold recordReconnect. by rewrite E. }
  assert (currentDowntime (recordReconnect e t1 m) !! e = None) as Hclosed.
  { unfold recordReconnect.
    destruct (currentDowntime m !! e) as [d|] eqn:E; [|done].
    cbn. by rewrite lookup_delete_eq. }
  split; [apply Hnone|].
  split; [apply Hnone; cbn; by rewrite lookup_empty|].
  split; [exact Hclosed|].
  by apply Hnone.
Qed.

(** X2.  After any sequence of events on a fresh monitor, the record open
    for a venue is the one of that venue's last event when this is a
    disconnect, with its time and reason, and there is none when the last
    event is a reconnect or the venue had no event. *)
Theorem open_record_is_last_disconnect e evs :
  currentDowntime (run_events evs new) !! e = openRecordAfter e evs.
Proof.
  induction evs as [|ev evs IH] using rev_ind.
  - cbn. by rewrite lookup_empty.
  - rewrite run_events_snoc. unfold openRecordAfter in *.
    rewrite List.filter_app. cbn. unfold onVenue at 2.
    destruct ev as [e' r now|e' now]; cbn.
    + case_bool_decide as He; subst.
      * rewrite last_snoc. by rewrite lookup_insert_eq.
      * rewrite app_nil_r, lookup_insert_ne by done. exact IH.
    + unfold recordReconnect.
      case_bool_decide as He; subst.
      * rewrite last_snoc.
        destruct (currentDowntime (run_events evs new) !! e) eqn:E; cbn.
        -- by rewrite lookup_delete_eq.
        -- by rewrite E.
      * rewrite app_nil_r.
        destruct (currentDowntime (run_events evs new) !! e'); cbn.
        -- rewrite lookup_delete_ne by done. exact IH.
        -- exact IH.
Qed.

(** X3.  The archive only grows at its end: whatever events follow, the
    entries archived so far stay in place, unchanged. *)
Theorem archive_is_append_only evs m :
  getDowntimes m `prefix_of` getDowntimes (run_events evs m).
Proof.
  revert m. induction evs as [|ev evs IH]; intros m; [done|].
  change (run_events (ev :: evs) m) with (run_events evs (apply_event m ev)).
  etrans; [|apply IH].
  destruct ev as [e r now|e now]; cbn; [done|].
  unfold recordReconnect. destruct (currentDowntime m !! e); cbn; [|done].
  by apply prefix_app_r.
Qed.

Lemma keyed_new : keyed new.
Proof. intros e d H. cbn in H. by rewrite lookup_empty in H. Qed.

Lemma venue_projection e evs :
  forall m m',
    keyed m ->
    archiveOf e m = getDowntimes m' ->
    currentDowntime m !! e = currentDowntime m' !! e ->
    archiveOf e (run_events evs m)
      = getDowntimes (run_events (List.filter (onVenue e) evs) m') /\
    currentDowntime (run_events evs m) !! e
      = currentDowntime (run_events (List.filter (onVenue e) evs) m') !! e.
Proof.
  induction evs as [|ev evs IH]; intros m m' Hk Ha Hc; [done|].
  change (run_events (ev :: evs) m) with (run_events evs (apply_event m ev)).
  cbn [List.filter].
  assert (keyed (apply_event m ev)) as Hk' by apply (keyed_run [ev] m Hk).
  destruct (onVenue e ev) eqn:Hon; unfold onVenue in Hon;
    [apply bool_decide_eq_true in Hon as He
    |apply bool_decide_eq_false in Hon as He].
  - change (run_events (ev :: ?l) m') with (run_events l (apply_event m' ev)).
    apply IH; [done|..]; destruct ev as [e' r now|e' now]; cbn in He;
      subst e'; cbn.
    + done.
    + unfold recordReconnect. rewrite <-Hc.
      destruct (currentDowntime m !! e) as [d|] eqn:E; [|done].
      unfold archiveOf, getDowntimes in *. cbn.
      rewrite List.filter_app, Ha. cbn.
      rewrite (Hk _ _ E). by rewrite bool_decide_eq_true_2.
    + by rewrite !lookup_insert_eq.
    + unfold recordReconnect. rewrite <-Hc.
      destruct (currentDowntime m !! e) as [d|] eqn:E; cbn.
      * by rewrite !lookup_delete_eq.
      * by rewrite E.
  - apply IH; [done|..]; destruct ev as [e' r now|e' now]; cbn in *.
    + done.
    + unfold recordReconnect.
      destruct (currentDowntime m !! e') as [d|] eqn:E; [|done].
      unfold archiveOf, getDowntimes in *. cbn.
      rewrite List.filter_app, Ha. cbn.
      rewrite (Hk _ _ E). rewrite bool_decide_eq_false_2 by done.
      by rewrite app_nil_r.
    + by rewrite lookup_insert_ne.
    + unfold recordReconnect.
      destruct (currentDowntime m !! e') as [d|] eqn:E; cbn; [|done].
      by rewrite lookup_delete_ne.
Qed.

(** X4.  The venues do not interfere: after any interleaving of events on a
    fresh monitor, the archived downtimes of a venue are those the monitor
    would hold had it seen that venue's events alone. *)
Theorem venues_are_independent e evs :
  archiveOf e (run_events evs new)
  = getDowntimes (run_events (List.filter (onVenue e) evs) new).
Proof. by apply venue_projection; [apply keyed_new|..]. Qed.

Lemma sumDurations_from (ds : list WebSocketDowntime) :
  forall acc : Z,
    fold_left (fun sum d => (sum + default 0 (durationMs d))%Z) ds acc
    = (acc + sumDurations ds)%Z.
Proof.
  unfold sumDurations.
  induction ds as [|d ds IH]; intros acc; cbn [fold_left]; [lia|].
  rewrite (IH (acc + _)%Z), (IH (0 + _)%Z). lia.
Qed.

Lemma sumDurations_snoc ds d :
  sumDurations (ds ++ [d]) = (sumDurations ds + default 0 (durationMs d))%Z.
Proof.
  unfold sumDurations at 1. rewrite fold_left_app. cbn.
  by rewrite sumDurations_from.
Qed.

Lemma sumDurations_cons d ds :
  sumDurations (d :: ds) = (default 0 (durationMs d) + sumDurations ds)%Z.
Proof. unfold sumDurations at 1. cbn. by rewrite sumDurations_from. Qed.

Lemma sumDurations_nonneg ds :
  Forall nonNegative ds -> (0 <= sumDurations ds)%Z.
Proof.
  induction 1 as [|d ds (dur & Hd & Hdur) _ IH]; [done|].
  rewrite sumDurations_cons, Hd. cbn. lia.
Qed.

(** X5.  [getStats] counts every archived downtime under exactly one venue:
    the total number of disconnects is the sum of the two venues' counts. *)
Theorem getStats_counts_partition m :
  totalDisconnects (getStats m)
  = (disconnects (stats_binance (getStats m))
     + disconnects (stats_mexc (getStats m)))%nat.
Proof.
  cbn. induction (downtimes m) as [|d ds IH]; [done|].
  cbn [List.filter length].
  destruct (dt_exchange d); repeat case_bool_decide; try done; cbn [length]; lia.
Qed.

(** X6.  [getStats] sees closed outages only.  A disconnect alone leaves the
    statistics as they were; once the reconnect follows, the archive has one
    more entry, no record is open for the venue, the venue's count is up by
    one and its downtime by the time between the two calls, and the other
    venue's figures are unchanged. *)
Theorem getStats_counts_closed_outages_only m e r t1 t2 :
  getStats (recordDisconnect e r t1 m) = getStats m /\
  let m' := recordReconnect e t2 (recordDisconnect e r t1 m) in
  getDowntimes m'
    = (getDowntimes m ++ [mkDowntime e t1 (Some t2) (Some (t2 - t1)%Z) r])%list /\
  currentDowntime m' !! e = None /\
  disconnects (venueStats e (getStats m'))
    = S (disconnects (venueStats e (getStats m))) /\
  totalDowntimeMs (venueStats e (getStats m'))
    = (totalDowntimeMs (venueStats e (getStats m)) + (t2 - t1))%Z /\
  forall e', e' <> e ->
    disconnects (venueStats e' (getStats m'))
      = disconnects (venueStats e' (getStats m)) /\
    totalDowntimeMs (venueStats e' (getStats m'))
      = totalDowntimeMs (venueStats e' (getStats m)).
Proof.
  split; [done|]. intros m'.
  assert (getDowntimes m'
          = (getDowntimes m ++ [mkDowntime e t1 (Some t2) (Some (t2 - t1)%Z) r])%list)
    as Hd.
  { unfold m', recordReconnect, recordDisconnect. cbn.
    by rewrite lookup_insert_eq. }
  assert (currentDowntime m' !! e = None) as Hc.
  { unfold m', recordReconnect, recordDisconnect. cbn.
    rewrite lookup_insert_eq. cbn. by rewrite lookup_delete_eq. }
  split; [done|]. split; [done|].
  unfold getDowntimes in Hd.
  assert (forall e',
    List.filter (fun d => bool_decide (dt_exchange d = e')) (downtimes m')
    = (List.filter (fun d => bool_decide (dt_exchange d = e')) (downtimes m)
       ++ if bool_decide (e = e')
          then [mkDowntime e t1 (Some t2) (Some (t2 - t1)%Z) r] else [])%list)
    as Hf.
  { intros e'. rewrite Hd, List.filter_app. cbn. done. }
  repeat split.
  - destruct e; cbn; rewrite Hf, bool_decide_eq_true_2 by done;
      rewrite length_app; cbn; lia.
  - destruct e; cbn; rewrite Hf, bool_decide_eq_true_2 by done;
      by rewrite sumDurations_snoc.
  - destruct e, e'; try done; cbn; rewrite Hf, bool_decide_eq_false_2 by done;
      by rewrite app_nil_r.
  - destruct e, e'; try done; cbn; rewrite Hf, bool_decide_eq_false_2 by done;
      by rewrite app_nil_r.
Qed.

Lemma downtimes_nonneg evs :
  forall m,
    StronglySorted Z.le (timeOf <$> evs) ->
    Forall nonNegative (getDowntimes m) ->
    (forall e d, currentDowntime m !! e = Some d ->
                 Forall (fun ev => (disconnectTime d <= timeOf ev)%Z) evs) ->
    Forall nonNegative (getDowntimes (run_events evs m)).
Proof.
  induction evs as [|ev evs IH]; intros m Hs Ha Hp; [done|].
  change (run_events (ev :: evs) m) with (run_events evs (apply_event m ev)).
  cbn in Hs. apply StronglySorted_inv in Hs as [Hs Hhd].
  apply IH; [done|..]; destruct ev as [e r now|e now]; cbn in *.
  - done.
  - unfold recordReconnect.
    destruct (currentDowntime m !! e) as [d|] eqn:E; [|done]. cbn.
    apply Forall_app. split; [done|]. apply Forall_singleton.
    exists (now - disconnectTime d)%Z. split; [done|].
    specialize (Hp _ _ E). apply Forall_cons in Hp as [Hp _]. cbn in Hp. lia.
  - intros e' d. rewrite lookup_insert. case_decide.
    + intros [= <-]. cbn. rewrite Forall_fmap in Hhd. exact Hhd.
    + intros Hd. specialize (Hp _ _ Hd). by apply Forall_cons in Hp as [_ Hp].
  - unfold recordReconnect.
    destruct (currentDowntime m !! e) as [d0|] eqn:E; cbn.
    + intros e' d. rewrite lookup_delete. case_decide; [done|].
      intros Hd. specialize (Hp _ _ Hd). by apply Forall_cons in Hp as [_ Hp].
    + intros e' d Hd. specialize (Hp _ _ Hd). by apply Forall_cons in Hp as [_ Hp].
Qed.

(** X7.  When the clock readings of the events never go back, no archived
    downtime has a negative duration and the downtime totals of [getStats]
    are non-negative. *)
Theorem downtime_never_negative evs :
  StronglySorted Z.le (timeOf <$> evs) ->
  let stats := getStats (run_events evs new) in
  Forall nonNegative (getDowntimes (run_events evs new)) /\
  (0 <= totalDowntimeMs (stats_binance stats))%Z /\
  (0 <= totalDowntimeMs (stats_mexc stats))%Z /\
  (0 <= stats_totalDowntimeMs stats)%Z.
Proof.
  intros Hs stats.
  assert (Forall nonNegative (getDowntimes (run_events evs new))) as Hn.
  { apply downtimes_nonneg; [done|constructor|].
    intros e d H. cbn in H. by rewrite lookup_empty in H. }
  split; [done|].
  assert (forall e, (0 <= sumDurations
            (List.filter (fun d => bool_decide (dt_exchange d = e))
                         (downtimes (run_events evs new))))%Z) as Hsum.
  { intros e. apply sumDurations_nonneg.
    apply Forall_forall. intros d Hd. apply list_elem_of_In, List.filter_In in Hd as [Hd _].
    apply list_elem_of_In in Hd. by eapply Forall_forall in Hn. }
  cbn. pose proof (Hsum binance). pose proof (Hsum mexc). lia.
Qed.

End MonitorExtras.

Lemma downtime_never_negative_witness :
  Forall nonNegative
         (WebSocketMonitor.getDowntimes
            (run_events Sample.dropAndRecover WebSocketMonitor.new)) /\
  (0 <= WebSocketMonitor.totalDowntimeMs
          (WebSocketMonitor.stats_binance
             (WebSocketMonitor.getStats
                (run_events Sample.dropAndRecover WebSocketMonitor.new))))%Z /\
  (0 <= WebSocketMonitor.totalDowntimeMs
          (WebSocketMonitor.stats_mexc
             (WebSocketMonitor.getStats
                (run_events Sample.dropAndRecover WebSocketMonitor.new))))%Z /\
  (0 <= WebSocketMonitor.stats_totalDowntimeMs
          (WebSocketMonitor.getStats
             (run_events Sample.dropAndRecover WebSocketMonitor.new)))%Z.
Proof.
  apply (downtime_never_negative Sample.dropAndRecover).
  repeat constructor; cbn; lia.
Defined.

(** X8.  An outage reported by a feed client is timed from the close of the
    socket: when an error, the close that follows it and the reopening are
    reported in turn, the archive gains exactly one entry, which carries the
    time and the reason text of the close (the text of the close reason, or
    the close code when that is empty) and lasts until the reopening; the
    error's own time and message are not kept. *)
Theorem outage_is_timed_from_the_close
        (venue : ExchangeName) (message reason : string) (code : N)
        (errorAt closeAt openAt : Z) (monitor : WebSocketMonitor.t) :
  let after :=
    Socket.onOpen venue openAt
      (Socket.onClose venue code reason closeAt
         (Socket.onError venue message errorAt monitor)) in
  WebSocketMonitor.getDowntimes after
  = (WebSocketMonitor.getDowntimes monitor
     ++ [mkDowntime venue closeAt (Some openAt) (Some (openAt - closeAt)%Z)
                    (Socket.reasonText code reason)])%list /\
  WebSocketMonitor.currentDowntime after !! venue = None /\
  Socket.reasonText code "" = "Code: " +:+ pretty code /\
  (reason <> "" -> Socket.reasonText code reason = reason).
Proof.
  intros after. unfold after, Socket.onOpen, Socket.onClose, Socket.onError.
  unfold WebSocketMonitor.recordReconnect, WebSocketMonitor.recordDisconnect.
  cbn. rewrite lookup_insert_eq. cbn. rewrite lookup_delete_eq.
  repeat split. by destruct reason.
Qed.

(** ** Symbol normaliser: what the two conversions change *)

Section StringExtras.
Import JsString.
Lemma strip_prefix_Some (pat s r : string) :
  strip_prefix pat s = Some r -> s = pat +:+ r.
Proof.
  revert s; induction pat as [|a pat IH]; intros s; cbn.
  - by intros [= ->].
  - destruct s as [|b s]; [done|].
    destruct (Ascii.eqb a b) eqn:E; [|done].
    apply Ascii.eqb_eq in E as ->. intros H. by rewrite (IH _ H).
Qed.

Lemma indexOf_Some_split (pat s : string) :
  forall i, indexOf pat s = Some i ->
  exists a r, s = a +:+ pat +:+ r /\ String.length a = i.
Proof.
  induction s as [|c s IH]; intros i; rewrite indexOf_unfold.
  - destruct (strip_prefix pat "") as [r|] eqn:E; [|done].
    intros [= <-]. exists "", r. split; [|done].
    by apply strip_prefix_Some in E.
  - destruct (strip_prefix pat (String c s)) as [r|] eqn:E.
    + intros [= <-]. exists "", r. split; [|done].
      by apply strip_prefix_Some in E.
    + destruct (indexOf pat s) as [j|]; [|done]. cbn. intros [= <-].
      destruct (IH j eq_refl) as (a & r & -> & <-).
      by exists (String c a), r.
Qed.

Lemma includes_char_app_l (ch : Ascii.ascii) (a b : string) :
  includes (String ch "") (a +:+ b) = false ->
  includes (String ch "") a = false.
Proof.
  unfold includes. induction a as [|c a IH]; [done|].
  rewrite append_cons. cbn.
  destruct (Ascii.eqb ch c); [done|].
  destruct (indexOf (String ch "") (a +:+ b)); [done|].
  intros _. specialize (IH eq_refl).
  by destruct (indexOf (String ch "") a).
Qed.

Lemma length_append (a b : string) :
  String.length (a +:+ b) = (String.length a + String.length b)%nat.
Proof. induction a as [|c a IH]; [done|]. rewrite append_cons. cbn. by rewrite IH. Qed.

Lemma replace_length (pat rep s : string) :
  String.length (replace pat rep s) =
  if includes pat s
  then (String.length s + String.length rep - String.length pat)%nat
  else String.length s.
Proof.
  unfold includes. destruct (indexOf pat s) as [i|] eqn:E.
  - destruct (indexOf_Some_split _ _ _ E) as (a & r & -> & <-).
    rewrite replace_at_index by done. rewrite !length_append. lia.
  - by rewrite replace_absent.
Qed.

End StringExtras.

(** X9.  Each conversion touches one occurrence at most: [toCommonFormat]
    shortens a symbol by one character when it contains an underscore and
    leaves its length alone otherwise; [toMexcFormat] lengthens it by one
    character when it contains [USDT] and leaves its length alone
    otherwise. *)
Theorem conversions_touch_one_occurrence (s : string) :
  String.length (MexcFutures.toCommonFormat s)
    = (String.length s - if JsString.includes "_" s then 1 else 0)%nat /\
  String.length (MexcFutures.toMexcFormat s)
    = (String.length s + if JsString.includes "USDT" s then 1 else 0)%nat.
Proof.
  unfold MexcFutures.toCommonFormat, MexcFutures.toMexcFormat.
  rewrite !replace_length. cbn [String.length].
  split.
  - destruct (JsString.includes "_" s); lia.
  - destruct (JsString.includes "USDT" s) eqn:E; [|lia].
    unfold JsString.includes in E. destruct (JsString.indexOf "USDT" s) as [i|] eqn:Ei; [|done].
    destruct (indexOf_Some_split _ _ _ Ei) as (a & r & -> & _).
    rewrite !length_append. cbn. lia.
Qed.

(** X10.  For a symbol without underscore, such as the symbols the detector
    tracks when they come from Binance, converting to the MEXC spelling and
    back yields the symbol again. *)
Theorem toMexcFormat_then_toCommonFormat (c : string) :
  JsString.includes "_" c = false ->
  MexcFutures.toCommonFormat (MexcFutures.toMexcFormat c) = c.
Proof.
  intros Hc. unfold MexcFutures.toMexcFormat.
  destruct (JsString.indexOf "USDT" c) as [i|] eqn:E.
  - destruct (indexOf_Some_split _ _ _ E) as (a & r & -> & <-).
    rewrite replace_at_index by done.
    unfold MexcFutures.toCommonFormat.
    change (a +:+ "_USDT" +:+ r) with (a +:+ "_" +:+ ("USDT" +:+ r)).
    rewrite (replace_at_index "_" "" a ("USDT" +:+ r)); [done|].
    apply indexOf_char_after. by eapply includes_char_app_l.
  - rewrite replace_absent by done.
    unfold MexcFutures.toCommonFormat. apply replace_absent.
    unfold JsString.includes in Hc. by destruct (JsString.indexOf "_" c).
Qed.

Lemma toMexcFormat_then_toCommonFormat_witness :
  MexcFutures.toMexcFormat "1000PEPEUSDT" = "1000PEPE_USDT" /\
  MexcFutures.toCommonFormat (MexcFutures.toMexcFormat "1000PEPEUSDT")
  = "1000PEPEUSDT".
Proof.
  split; [reflexivity|].
  exact (toMexcFormat_then_toCommonFormat "1000PEPEUSDT" eq_refl).
Defined.

(** ** Number formatting: no negative zero in the log lines *)

Section FormatExtras.
Import JsString JsNumber.

Lemma includes_point_digit (d : N) (s : string) :
  includes "." (String (pretty_N_char d) s) = includes "." s.
Proof.
  unfold includes. rewrite (indexOf_unfold "." (String _ s)).
  cbn [strip_prefix].
  destruct (Ascii.eqb _ (pretty_N_char d)) eqn:E.
  - apply Ascii.eqb_eq in E. unfold pretty_N_char in E.
    by repeat case_match.
  - by destruct (indexOf "." s).
Qed.

Lemma pretty_N_go_no_point (x : N) :
  forall s, includes "." s = false -> includes "." (pretty_N_go x s) = false.
Proof.
  induction (N.lt_wf_0 x) as [x _ IH]; intros s Hs.
  destruct (decide (x = 0)%N) as [->|Hx]; [by rewrite pretty_N_go_0|].
  rewrite pretty_N_go_step by lia.
  apply IH; [apply N.div_lt; lia|]. by rewrite includes_point_digit.
Qed.

Lemma pretty_N_no_point (x : N) : includes "." (pretty x) = false.
Proof.
  unfold pretty, pretty_N. case_decide; [done|]. by apply pretty_N_go_no_point.
Qed.

Lemma pretty_N_no_dash (x : N) (s : string) : pretty x <> "-" +:+ s.
Proof.
  unfold pretty, pretty_N. case_decide; [done|]. by apply pretty_N_go_ne_dash.
Qed.

Lemma fractionDigits_zero (f : nat) (m : N) :
  fractionDigits f m = fractionDigits f 0 -> (m `mod` 10 ^ N.of_nat f = 0)%N.
Proof.
  induction f as [|f IH]; cbn [fractionDigits].
  - intros _. cbn. apply N.mod_1_r.
  - intros [= Hc Hrest].
    apply (pretty_N_char_inj _ 0) in Hc; [|by apply N.mod_lt|done].
    specialize (IH Hrest).
    replace (N.of_nat (S f)) with (N.succ (N.of_nat f)) by lia.
    rewrite N.pow_succ_r', (N.mul_comm 10).
    rewrite N.Div0.mod_mul_r. lia.
Qed.

Lemma rounded_positive (f : nat) (x : Q) :
  (2 <= f)%nat -> (0.005 <= Qabs x)%Q ->
  (1 <= Z.to_N (Qfloor (Qabs x * inject_Z (10 ^ Z.of_nat f) + (1 # 2))))%N.
Proof.
  intros Hf Hx.
  assert (100 <= 10 ^ Z.of_nat f)%Z as Hpow.
  { change 100%Z with (10 ^ 2)%Z. apply Z.pow_le_mono_r; lia. }
  assert (1 <= Qabs x * inject_Z (10 ^ Z.of_nat f) + (1 # 2))%Q as Hone.
  { assert (inject_Z 100 <= inject_Z (10 ^ Z.of_nat f))%Q as Hq
      by (by rewrite <-Zle_Qle).
    change (inject_Z 100) with 100%Q in Hq.
    pose proof (Qabs_nonneg x). nra. }
  apply Qfloor_resp_le in Hone. change (Qfloor 1) with 1%Z in Hone. lia.
Qed.

Lemma toFixed_zero (f : nat) :
  toFixed f 0 =
  "0" +:+ (if (f =? 0)%nat then "" else "." +:+ fractionDigits f 0).
Proof.
  unfold toFixed.
  assert (Qfloor (Qabs 0 * inject_Z (10 ^ Z.of_nat f) + (1 # 2)) = 0%Z) as ->.
  { assert (Qabs 0 * inject_Z (10 ^ Z.of_nat f) + (1 # 2) == 1 # 2)%Q as ->
      by (change (Qabs 0) with 0%Q; ring).
    reflexivity. }
  change (Z.to_N 0) with 0%N.
  rewrite N.Div0.div_0_l, N.Div0.mod_0_l.
  destruct (Qlt_le_dec 0 0) as [H|_]; [by apply Qlt_irrefl in H|done].
Qed.

End FormatExtras.

(** X11.  With two decimals or more, [formatPercent] never prints a negative
    zero, that is a minus sign followed by the rendering of zero: a value
    small enough to round to zero is printed as [0.00] without sign. *)
Theorem formatPercent_never_negative_zero (value : Q) (decimals : nat) :
  (2 <= decimals)%nat ->
  ArbitrageDetector.formatPercent value decimals
  <> "-" +:+ JsNumber.toFixed decimals 0.
Proof.
  intros Hf. unfold ArbitrageDetector.formatPercent.
  destruct (Num.lt (Qabs value) 0.005) eqn:Hsmall; [done|].
  apply lt_false in Hsmall.
  pose proof (rounded_positive decimals value Hf Hsmall) as Hn.
  rewrite toFixed_zero. unfold JsNumber.toFixed.
  set (n := Z.to_N _) in *. set (scale := (10 ^ N.of_nat decimals)%N).
  assert ((decimals =? 0)%nat = false) as -> by (apply Nat.eqb_neq; lia).
  pose proof (pretty_N_no_point (n `div` scale)) as Hpoint.
  pose proof (pretty_N_no_dash (n `div` scale)) as Hdash.
  destruct (Qlt_le_dec value 0) as [Hneg|Hpos].
  - rewrite !(append_cons _ ""), !append_nil_l. intros [= Heq].
    match type of Heq with
    | ?l = _ =>
        assert (JsString.indexOf "." l
                = Some (String.length (pretty (n `div` scale)%N))) as Hi
          by (by apply indexOf_char_after)
    end.
    rewrite Heq in Hi. cbn in Hi.
    destruct (pretty (n `div` scale)%N) as [|c [|c' rest]] eqn:Hp;
      try discriminate Hi.
    injection Heq as -> Hfrac.
    assert (n `div` scale = 0)%N as Hq
      by (apply (inj pretty); by rewrite Hp).
    apply fractionDigits_zero in Hfrac.
    fold scale in Hfrac. rewrite N.Div0.mod_mod in Hfrac.
    pose proof (N.Div0.div_mod n scale) as Hdm.
    rewrite Hq, Hfrac in Hdm. lia.
  - rewrite !(append_cons _ ""), !append_nil_l.
    destruct (pretty (n `div` scale)%N) as [|c rest] eqn:Hp.
    + rewrite append_nil_l. discriminate.
    + rewrite append_cons. intros [= -> _]. by apply (Hdash rest).
Qed.
Lemma formatPercent_never_negative_zero_witness :
  ArbitrageDetector.formatPercent (-0.001) 2 = "0.00" /\
  ArbitrageDetector.formatPercent (-0.001) 2 <> "-0.00".
Proof.
  split; [reflexivity|].
  exact (formatPercent_never_negative_zero (-0.001) 2 (le_n 2)).
Defined.

(** ** Opportunity detector: what an opportunity looks like *)

Section DetectorExtras.
Import ArbitrageDetector.
Local Open Scope Q_scope.

(** X12.  Every opportunity [checkArbitrage] builds buys below the price
    it sells at, takes the ask of one tick as its buy price and the bid of
    the other as its sell price, on the venues of those ticks, carries the
    symbol and the clock reading it was given, and has a positive gross
    spread when its buy price is positive. *)
Theorem detected_opportunity_shape now price1 price2 symbol self o :
  detectOpportunity now price1 price2 symbol self = Some o ->
  opp_symbol o = symbol /\ opp_timestamp o = now /\
  opp_buyPrice o < opp_sellPrice o /\
  ((opp_buyExchange o, opp_sellExchange o, opp_buyPrice o, opp_sellPrice o)
     = (tp_exchange price1, tp_exchange price2, tp_ask price1, tp_bid price2)
   \/
   (opp_buyExchange o, opp_sellExchange o, opp_buyPrice o, opp_sellPrice o)
     = (tp_exchange price2, tp_exchange price1, tp_ask price2, tp_bid price1)) /\
  opp_spreadPercent o = spreadPercentOf (opp_buyPrice o) (opp_sellPrice o) /\
  opp_profitPercent o
    = profitPercentOf (config self) (opp_buyExchange o) (opp_sellExchange o)
                      (opp_buyPrice o) (opp_sellPrice o) /\
  (0 < opp_buyPrice o -> 0 < opp_spreadPercent o).
Proof.
  unfold detectOpportunity. intros Hdet.
  destruct (direction price1 price2) as [[[[be se] b] s]|] eqn:Hdir; [|done].
  destruct (Num.lt _ _); [done|]. injection Hdet as <-. cbn.
  pose proof (direction_buys_low _ _ _ _ _ _ Hdir) as Hbs.
  repeat split; try done.
  - unfold direction in Hdir.
    destruct (Num.lt (tp_ask price1) (tp_bid price2)).
    + left. by injection Hdir as <- <- <- <-.
    + destruct (Num.lt (tp_ask price2) (tp_bid price1)); [|done].
      right. by injection Hdir as <- <- <- <-.
  - intros Hb. unfold spreadPercentOf.
    apply Qmult_lt_0_compat; [|done].
    apply Qlt_shift_div_l; [done|]. lra.
Qed.

(** X13.  When neither quote is crossed (bid at most ask), the order in
    which the two ticks are compared does not matter: both orders find the
    same opportunity, or none. *)
Theorem detection_is_symmetric now price1 price2 symbol self :
  uncrossed price1 -> uncrossed price2 ->
  detectOpportunity now price1 price2 symbol self
  = detectOpportunity now price2 price1 symbol self.
Proof.
  unfold uncrossed. intros H1 H2.
  assert (direction price1 price2 = direction price2 price1) as Hdir.
  { unfold direction.
    destruct (Num.lt (tp_ask price1) (tp_bid price2)) eqn:E1;
      destruct (Num.lt (tp_ask price2) (tp_bid price1)) eqn:E2; try done.
    apply lt_true in E1, E2. lra. }
  unfold detectOpportunity. by rewrite Hdir.
Qed.

(** X14.  [getCurrentPrices] compares the cached Binance quote with the
    cached MEXC quote, in this order.  When that comparison finds a
    direction, as [checkArbitrage] does on a Binance tick, it returns the
    buy and sell prices of that direction.  On a MEXC tick [checkArbitrage]
    compares in the other order; when neither quote is crossed (bid at
    most ask) the direction it finds has the prices [getCurrentPrices]
    returns as well.  When the two quotes give no direction,
    [getCurrentPrices] still returns the MEXC ask and the Binance bid, a
    buy price that is no lower than the sell price. *)
Theorem getCurrentPrices_agrees_with_direction
        symbol self binancePrice mexcPrice :
  BinanceFutures.getPrice symbol (binance_client self) = Some binancePrice ->
  MexcFutures.getPrice (MexcFutures.toMexcFormat symbol) (mexc_client self)
    = Some mexcPrice ->
  (forall be se b s,
     direction binancePrice mexcPrice = Some (be, se, b, s) ->
     getCurrentPrices symbol self = Some (mkCurrentPrices b s)) /\
  (uncrossed binancePrice -> uncrossed mexcPrice ->
   forall be se b s,
     direction mexcPrice binancePrice = Some (be, se, b, s) ->
     getCurrentPrices symbol self = Some (mkCurrentPrices b s)) /\
  (direction binancePrice mexcPrice = None ->
   getCurrentPrices symbol self
     = Some (mkCurrentPrices (tp_ask mexcPrice) (tp_bid binancePrice)) /\
   tp_bid binancePrice <= tp_ask mexcPrice).
Proof.
  intros Hb Hm. unfold getCurrentPrices. rewrite Hb, Hm.
  unfold direction, uncrossed.
  destruct (Num.lt (tp_ask binancePrice) (tp_bid mexcPrice)) eqn:E1;
    destruct (Num.lt (tp_ask mexcPrice) (tp_bid binancePrice)) eqn:E2.
  - apply lt_true in E1, E2. split; [|split; [|done]].
    + intros be se b s Hdir. by injection Hdir as <- <- <- <-.
    + intros H1 H2. lra.
  - split; [|split; [|done]].
    + intros be se b s Hdir. by injection Hdir as <- <- <- <-.
    + intros _ _ be se b s Hdir. by injection Hdir as <- <- <- <-.
  - split; [|split; [|done]].
    + intros be se b s Hdir. by injection Hdir as <- <- <- <-.
    + intros _ _ be se b s Hdir. by injection Hdir as <- <- <- <-.
  - apply lt_false in E2. split; [done|]. split; [done|]. by intros _.
Qed.

End DetectorExtras.

Lemma detected_opportunity_shape_witness :
  exists o : ArbitrageOpportunity,
    ArbitrageDetector.detectOpportunity
      1700000000001 Sample.btcBinance Sample.btcMexc "BTCUSDT"
      (Sample.detector 0.3 true [] []) = Some o /\
    opp_symbol o = "BTCUSDT" /\
    (opp_buyPrice o < opp_sellPrice o)%Q /\
    (0 < opp_spreadPercent o)%Q.
Proof.
  destruct (ArbitrageDetector.detectOpportunity
              1700000000001 Sample.btcBinance Sample.btcMexc "BTCUSDT"
              (Sample.detector 0.3 true [] [])) as [o|] eqn:E;
    [|vm_compute in E; discriminate E].
  exists o. split; [reflexivity|].
  destruct (detected_opportunity_shape _ _ _ _ _ _ E)
    as (Hsym & _ & Hlow & _ & _ & _ & Hspread).
  split; [exact Hsym|]. split; [exact Hlow|].
  apply Hspread. vm_compute in E. injection E as <-. reflexivity.
Defined.

Lemma detection_is_symmetric_witness :
  ArbitrageDetector.detectOpportunity
    1700000000001 Sample.btcBinance Sample.btcMexc "BTCUSDT"
    (Sample.detector 0.3 true [] [])
  = ArbitrageDetector.detectOpportunity
      1700000000001 Sample.btcMexc Sample.btcBinance "BTCUSDT"
      (Sample.detector 0.3 true [] []).
Proof.
  apply detection_is_symmetric; unfold uncrossed; cbn; discriminate.
Defined.

Lemma getCurrentPrices_agrees_with_direction_witness :
  ArbitrageDetector.getCurrentPrices "ETHUSDT" (Sample.quoted true)
  = Some (mkCurrentPrices 1990 2000).
Proof.
  apply (proj1 (getCurrentPrices_agrees_with_direction
                  "ETHUSDT" (Sample.quoted true)
                  Sample.ethBinance Sample.ethMexc eq_refl eq_refl)
               binance mexc 1990%Q 2000%Q).
  reflexivity.
Defined.

(** With crossed quotes the two orders differ: Binance bidding 110 and
    asking 100, MEXC bidding 105 and asking 102.  [getCurrentPrices] buys
    on Binance at 100 and sells on MEXC at 105, while [checkArbitrage] on a
    MEXC tick buys on MEXC at 102 and sells on Binance at 110. *)
Example getCurrentPrices_differs_on_crossed_quotes :
  ArbitrageDetector.getCurrentPrices
    "BTCUSDT"
    (Sample.detector 0.3 true
       [Sample.ticker binance "BTCUSDT" 110 100]
       [Sample.ticker mexc "BTC_USDT" 105 102])
  = Some (mkCurrentPrices 100 105) /\
  ArbitrageDetector.direction
    (Sample.ticker mexc "BTC_USDT" 105 102)
    (Sample.ticker binance "BTCUSDT" 110 100)
  = Some (mexc, binance, 102%Q, 110%Q).
Proof. split; reflexivity. Qed.

(** X15.  A positive net profit needs a gross spread above the sum of the
    costs, up to rounding.  Let every operation of the spread and profit
    computations of [checkArbitrage] return its exact result up to a
    relative error of [u] ([u] = 0: exact arithmetic; [u] = 2^-53:
    binary64 while nothing overflows or underflows).  With positive prices
    and non-negative rates, when the net profit percent is positive, the
    gross spread percent is above [(1 - 12 u)] times the two taker fees
    plus twice the slippage, less [700 u]: above the costs themselves in
    exact arithmetic, and above them less about 8e-14 percentage points on
    binary64. *)
Theorem profit_needs_spread_above_costs
        (A : Rounding.Arithmetic) (u : Q) (config : Config)
        (buyExchange sellExchange : ExchangeName) (buyPrice sellPrice : Q) :
  (0 <= u)%Q -> (u <= 1 # 16)%Q ->
  Forall (Rounding.within u)
         (snd (Rounding.spreadPercent A buyPrice sellPrice)) ->
  Forall (Rounding.within u)
         (snd (Rounding.profitPercent A config buyExchange sellExchange
                                      buyPrice sellPrice)) ->
  (0 < buyPrice)%Q -> (0 < sellPrice)%Q ->
  (0 <= taker (fees config buyExchange))%Q ->
  (0 <= taker (fees config sellExchange))%Q ->
  (0 <= slippage_percent config)%Q ->
  (0 < fst (Rounding.profitPercent A config buyExchange sellExchange
                                   buyPrice sellPrice))%Q ->
  ((taker (fees config buyExchange) + taker (fees config sellExchange)
    + 2 * slippage_percent config) * (1 - 12 * u) - 700 * u
   < fst (Rounding.spreadPercent A buyPrice sellPrice))%Q.
Proof.
  intros Hu Hu1 Hspread Hprofit Hb Hs Hbuy Hsell Hsl Hpos.
  cbv [Rounding.spreadPercent Rounding.profitPercent mbind
       Rounding.traced_bind Rounding.plus Rounding.minus Rounding.times
       Rounding.over fst snd app] in Hspread, Hprofit, Hpos |- *.
  set (tb := taker (fees config buyExchange)) in *.
  set (ts := taker (fees config sellExchange)) in *.
  set (sl := slippage_percent config) in *.
  set (buyFee := Rounding.div A tb 100) in *.
  set (sellFee := Rounding.div A ts 100) in *.
  set (slippage := Rounding.div A sl 100) in *.
  set (onePlusFee := Rounding.add A 1 buyFee) in *.
  set (buyFactor := Rounding.add A onePlusFee slippage) in *.
  set (oneMinusFee := Rounding.sub A 1 sellFee) in *.
  set (sellFactor := Rounding.sub A oneMinusFee slippage) in *.
  set (buyCost := Rounding.mul A buyPrice buyFactor) in *.
  set (sellCost := Rounding.mul A sellPrice sellFactor) in *.
  set (net := Rounding.sub A sellCost buyCost) in *.
  set (netRatio := Rounding.div A net buyCost) in *.
  set (gross := Rounding.sub A sellPrice buyPrice) in *.
  set (grossRatio := Rounding.div A gross buyPrice) in *.
  repeat match goal with
         | H : Forall _ (_ :: _) |- _ =>
             let H' := fresh "Hstep" in apply Forall_cons in H as [H' H]
         end.
  clear Hspread Hprofit.
  cbv [Rounding.within Rounding.ideal Rounding.returned] in *.
  clearbody tb ts sl.
  pose proof (fee_lower u tb buyFee Hu Hbuy ltac:(assumption)) as Lb.
  pose proof (fee_lower u ts sellFee Hu Hsell ltac:(assumption)) as Ls.
  pose proof (fee_lower u sl slippage Hu Hsl ltac:(assumption)) as Lsl.
  assert (buyPrice * ((1 - 3 * u)
                      * (1 + (tb * (1 # 100) + sl * (1 # 100)) * (1 - u)))
          <= buyCost)%Q as Hbuyside.
  { apply (buy_side_cost u buyPrice (tb * (1 # 100)) (sl * (1 # 100))
                         buyFee slippage onePlusFee buyFactor);
      try assumption; lra. }
  assert (0 < buyCost)%Q as Hbc.
  { assert (0 <= (tb * (1 # 100) + sl * (1 # 100)) * (1 - u))%Q
      by (apply Qmult_le_0_compat; lra).
    assert (0 < buyPrice * ((1 - 3 * u)
                * (1 + (tb * (1 # 100) + sl * (1 # 100)) * (1 - u))))%Q
      by (apply Qmult_lt_0_compat; [done|apply Qmult_lt_0_compat; lra]).
    lra. }
  assert ((tb * (1 # 100) + ts * (1 # 100) + 2 * (sl * (1 # 100))) * 100
            * (1 - 12 * u) - 700 * u
          < Rounding.mul A grossRatio 100)%Q; [|lra].
  apply (rounded_breakeven u buyPrice sellPrice
           (tb * (1 # 100))%Q (ts * (1 # 100))%Q (sl * (1 # 100))%Q
           buyCost sellCost net netRatio (Rounding.mul A netRatio 100)
           gross grossRatio);
    try assumption; try lra.
  intros Hsp.
  apply (sell_side_cost u sellPrice (ts * (1 # 100)) (sl * (1 # 100))
                        sellFee slippage oneMinusFee sellFactor);
    try assumption; lra.
Qed.

(** On binary64, buying at 100 and selling at 101 with the fees of the
    example: the net profit is positive, and the spread of 1 % is above
    the costs of 0.36 %. *)
Lemma profit_needs_spread_above_costs_witness :
  ((0.08 + 0.08 + 2 * 0.1) * (1 - 12 * Binary64.unitRoundoff)
   - 700 * Binary64.unitRoundoff
   < fst (Rounding.spreadPercent Binary64.arithmetic 100 101))%Q.
Proof.
  apply (profit_needs_spread_above_costs
           Binary64.arithmetic Binary64.unitRoundoff (Sample.config 0.3 true)
           binance mexc 100 101);
    try reflexivity; try discriminate;
    try (vm_compute; reflexivity);
    cbv [Rounding.spreadPercent Rounding.profitPercent mbind
         Rounding.traced_bind Rounding.plus Rounding.minus Rounding.times
         Rounding.over fst snd app];
    repeat (apply Forall_cons; split); try apply Forall_nil_2;
    vm_compute; discriminate.
Defined.

(** ** Instrument discovery: the top pairs of a venue and the tracked set *)

Section TopByVolume.
Context {A : Type} (key : A -> Q).

Lemma insert_Permutation (x : A) (l : list A) :
  JsArray.insert (byDescending key) x l ≡ₚ x :: l.
Proof.
  induction l as [|y l IH]; cbn; [done|].
  destruct (Qlt_le_dec 0 (byDescending key x y)); [|done].
  rewrite IH. apply Permutation_swap.
Qed.

Lemma sort_Permutation (l : list A) : JsArray.sort (byDescending key) l ≡ₚ l.
Proof.
  induction l as [|x l IH]; cbn; [done|].
  rewrite insert_Permutation. by rewrite IH.
Qed.

Lemma insert_sorted (x : A) (l : list A) :
  StronglySorted (noLess key) l ->
  StronglySorted (noLess key) (JsArray.insert (byDescending key) x l).
Proof.
  induction 1 as [|y l Hl IH Hy]; cbn.
  - repeat constructor.
  - destruct (Qlt_le_dec 0 (byDescending key x y)) as [Hlt|Hle];
      [unfold byDescending in Hlt|unfold byDescending in Hle].
    + constructor; [done|].
      apply Forall_forall. intros z Hz.
      rewrite insert_Permutation in Hz. apply elem_of_cons in Hz as [->|Hz].
      * unfold noLess. lra.
      * by eapply Forall_forall in Hy.
    + constructor; [by constructor|].
      constructor; [unfold noLess; lra|].
      eapply Forall_impl; [exact Hy|].
      unfold noLess. intros z Hz. cbn in *. lra.
Qed.

Lemma sort_sorted (l : list A) :
  StronglySorted (noLess key) (JsArray.sort (byDescending key) l).
Proof.
  induction l as [|x l IH]; cbn; [constructor|]. by apply insert_sorted.
Qed.

Lemma slice0_take (n : Z) (l : list A) :
  exists k, JsArray.slice0 n l = take k l /\ ((0 <= n)%Z -> k = Z.to_nat n).
Proof.
  unfold JsArray.slice0. destruct (n <? 0)%Z eqn:E.
  - eexists. split; [done|]. apply Z.ltb_lt in E. lia.
  - by eexists.
Qed.

Lemma sorted_take_dominates (k : nat) (l : list A) :
  StronglySorted (noLess key) l ->
  forall x y, x ∈ take k l -> y ∈ drop k l -> (noLess key) x y.
Proof.
  intros Hs x y Hx Hy.
  rewrite <-(take_drop k l) in Hs.
  by eapply StronglySorted_app_1_elem_of.
Qed.

Lemma top_by_volume (keep : A -> bool) (limit : Z) (data : list A) :
  let chosen :=
    JsArray.slice0 limit (JsArray.sort (byDescending key) (List.filter keep data)) in
  ((0 <= limit)%Z -> (length chosen <= Z.to_nat limit)%nat) /\
  Forall (fun x => x ∈ data /\ keep x = true) chosen /\
  StronglySorted (noLess key) chosen /\
  (forall x, x ∈ data -> keep x = true ->
             x ∈ chosen \/ forall c, c ∈ chosen -> (noLess key) c x).
Proof.
  intros chosen.
  destruct (slice0_take limit (JsArray.sort (byDescending key) (List.filter keep data)))
    as (k & Hk & Hlimit).
  fold chosen in Hk.
  pose proof (sort_sorted (List.filter keep data)) as Hs.
  pose proof (sort_Permutation (List.filter keep data)) as Hp.
  set (sorted := JsArray.sort (byDescending key) (List.filter keep data)) in *.
  repeat split.
  - intros Hpos. rewrite Hk, length_take, (Hlimit Hpos). lia.
  - apply Forall_forall. intros x Hx. rewrite Hk in Hx.
    apply elem_of_take in Hx as (i & Hx & _).
    apply list_elem_of_lookup_2 in Hx. rewrite Hp in Hx.
    apply list_elem_of_In, List.filter_In in Hx as [Hx ?].
    by apply list_elem_of_In in Hx.
  - rewrite Hk. rewrite <-(take_drop k sorted) in Hs.
    by apply StronglySorted_app_1_l in Hs.
  - intros x Hx Hkeep.
    assert (x ∈ sorted) as Hin.
    { rewrite Hp. apply list_elem_of_In, List.filter_In.
      by rewrite <-list_elem_of_In. }
    rewrite <-(take_drop k sorted) in Hin.
    apply elem_of_app in Hin as [Hin|Hin].
    + left. by rewrite Hk.
    + right. intros c Hc. rewrite Hk in Hc.
      by apply (sorted_take_dominates k sorted).
Qed.
End TopByVolume.

Lemma StronglySorted_map {A B} (R : A -> A -> Prop) (R' : B -> B -> Prop)
      (f : A -> B) (l : list A) :
  (forall a b, R a b -> R' (f a) (f b)) ->
  StronglySorted R l -> StronglySorted R' (map f l).
Proof.
  intros HR. induction 1 as [|x l _ IH Hx]; cbn; constructor; [done|].
  apply Forall_forall. intros y Hy.
  apply list_elem_of_fmap in Hy as (z & -> & Hz).
  apply HR. by eapply Forall_forall in Hx.
Qed.

(** X16.  Binance's [getTopPairs] fails exactly when the call threw or the
    response was not ok.  Otherwise it returns at most [limit] pairs (for a
    non-negative [limit]), each built from an entry of the answer whose
    symbol ends in [USDT], in order of decreasing volume; and an entry
    ending in [USDT] that is left out has a volume no greater than that of
    any pair returned. *)
Theorem binance_getTopPairs_top limit response :
  match BinanceFutures.getTopPairs limit response with
  | None =>
      response = threw \/ exists body, response = responded false body
  | Some pairs =>
      exists data, response = responded true data /\
      ((0 <= limit)%Z -> (length pairs <= Z.to_nat limit)%nat) /\
      Forall (fun p =>
                JsString.endsWith "USDT" (symbol p) = true /\
                exists ticker, ticker ∈ data /\ p = binancePairOf ticker)
             pairs /\
      StronglySorted (fun p q => (volumeOf q <= volumeOf p)%Q) pairs /\
      (forall ticker,
         ticker ∈ data ->
         JsString.endsWith "USDT" (t24_symbol ticker) = true ->
         binancePairOf ticker ∈ pairs \/
         forall p, p ∈ pairs -> (t24_quoteVolume ticker <= volumeOf p)%Q)
  end.
Proof.
  destruct response as [|[|] data]; cbn; [by left| |by right; eexists].
  exists data. split; [done|].
  destruct (top_by_volume t24_quoteVolume
              (fun ticker => JsString.endsWith "USDT" (t24_symbol ticker))
              limit data) as (Hlen & Hall & Hsorted & Htop).
  cbn zeta in *.
  set (chosen := JsArray.slice0 limit _) in *.
  repeat split.
  - intros Hpos. rewrite length_map. by apply Hlen.
  - apply Forall_forall. intros p Hp.
    apply list_elem_of_fmap in Hp as (ticker & -> & Hticker).
    eapply Forall_forall in Hall as [Hin Hkeep]; [|exact Hticker].
    split; [done|]. by exists ticker.
  - eapply (StronglySorted_map _ _ binancePairOf); [|exact Hsorted]. done.
  - intros ticker Hin Hkeep.
    destruct (Htop ticker Hin Hkeep) as [Hc|Hc].
    + left. apply list_elem_of_fmap. by exists ticker.
    + right. intros p Hp.
      apply list_elem_of_fmap in Hp as (c & -> & Hc').
      by apply Hc.
Qed.

(** X17.  MEXC's [getTopPairs] fails exactly when the call threw, the
    response was not ok, or the answer reports no success or has no data.
    Otherwise it returns at most [limit] pairs (for a non-negative [limit]),
    each built from an entry whose symbol ends in [_USDT], in order of
    decreasing volume; and an entry ending in [_USDT] that is left out has
    a volume no greater than that of any pair returned. *)
Theorem mexc_getTopPairs_top limit response :
  match MexcFutures.getTopPairs limit response with
  | None =>
      response = threw \/
      (exists body, response = responded false body) \/
      exists json, response = responded true json /\
                   (MexcFutures.success json = false \/
                    MexcFutures.data json = None)
  | Some pairs =>
      exists json entries,
      response = responded true json /\
      MexcFutures.success json = true /\
      MexcFutures.data json = Some entries /\
      ((0 <= limit)%Z -> (length pairs <= Z.to_nat limit)%nat) /\
      Forall (fun p =>
                JsString.endsWith "_USDT" (symbol p) = true /\
                exists ticker, ticker ∈ entries /\ p = mexcPairOf ticker)
             pairs /\
      StronglySorted (fun p q => (volumeOf q <= volumeOf p)%Q) pairs /\
      (forall ticker,
         ticker ∈ entries ->
         JsString.endsWith "_USDT" (MexcFutures.entry_symbol ticker) = true ->
         mexcPairOf ticker ∈ pairs \/
         forall p, p ∈ pairs ->
                   (MexcFutures.entry_amount24 ticker <= volumeOf p)%Q)
  end.
Proof.
  destruct response as [|[|] [[|] [entries|]]]; cbn;
    try (by left); try (by right; left; eexists);
    try (right; right; eexists; split; [done|]; cbn; by auto).
  exists (MexcFutures.mkMexcTickerResponse true (Some entries)), entries.
  do 3 (split; [done|]).
  destruct (top_by_volume MexcFutures.entry_amount24
              (fun ticker =>
                 JsString.endsWith "_USDT" (MexcFutures.entry_symbol ticker))
              limit entries) as (Hlen & Hall & Hsorted & Htop).
  cbn zeta in *.
  set (chosen := JsArray.slice0 limit _) in *.
  repeat split.
  - intros Hpos. rewrite length_map. by apply Hlen.
  - apply Forall_forall. intros p Hp.
    apply list_elem_of_fmap in Hp as (ticker & -> & Hticker).
    eapply Forall_forall in Hall as [Hin Hkeep]; [|exact Hticker].
    split; [done|]. by exists ticker.
  - eapply (StronglySorted_map _ _ mexcPairOf); [|exact Hsorted]. done.
  - intros ticker Hin Hkeep.
    destruct (Htop ticker Hin Hkeep) as [Hc|Hc].
    + left. apply list_elem_of_fmap. by exists ticker.
    + right. intros p Hp.
      apply list_elem_of_fmap in Hp as (c & -> & Hc').
      by apply Hc.
Qed.

(** What [fetchTopPairs] needs to know of the two [getTopPairs]. *)
Lemma binance_top_spec (limit : Z) (response : Fetched (list Ticker24h)) :
  match BinanceFutures.getTopPairs limit response with
  | Some pairs =>
      ((0 <= limit)%Z -> (length pairs <= Z.to_nat limit)%nat) /\
      Forall (fun p => JsString.endsWith "USDT" (symbol p) = true) pairs
  | None => True
  end.
Proof.
  destruct response as [|[|] data]; cbn; try done.
  destruct (top_by_volume t24_quoteVolume
              (fun ticker => JsString.endsWith "USDT" (t24_symbol ticker))
              limit data) as (Hlen & Hall & _).
  cbn zeta in *. split.
  - intros Hpos. rewrite length_map. by apply Hlen.
  - apply Forall_fmap. eapply Forall_impl; [exact Hall|]. by intros t [_ ?].
Qed.

Lemma mexc_top_spec (limit : Z)
      (response : Fetched MexcFutures.MexcTickerResponse) :
  match MexcFutures.getTopPairs limit response with
  | Some pairs =>
      ((0 <= limit)%Z -> (length pairs <= Z.to_nat limit)%nat) /\
      Forall (fun p => JsString.endsWith "_USDT" (symbol p) = true) pairs
  | None => True
  end.
Proof.
  destruct response as [|[|] [[|] [entries|]]]; cbn; try done.
  destruct (top_by_volume MexcFutures.entry_amount24
              (fun ticker =>
                 JsString.endsWith "_USDT" (MexcFutures.entry_symbol ticker))
              limit entries) as (Hlen & Hall & _).
  cbn zeta in *. split.
  - intros Hpos. rewrite length_map. by apply Hlen.
  - apply Forall_fmap. eapply Forall_impl; [exact Hall|]. by intros t [_ ?].
Qed.

Section TrackedSet.
Import ArbitrageDetector.

Lemma Set_from_fold (xs : list string) :
  forall acc : list string,
    NoDup acc ->
    let out :=
      fold_left
        (fun acc x => if bool_decide (x ∈ acc) then acc else (acc ++ [x])%list)
        xs acc in
    NoDup out /\ forall s, s ∈ out <-> s ∈ acc \/ s ∈ xs.
Proof.
  induction xs as [|x xs IH]; intros acc Hacc; cbn.
  - split; [done|]. intros s. rewrite elem_of_nil. tauto.
  - case_bool_decide as Hx.
    + destruct (IH acc Hacc) as [Hnd Hin]. split; [done|].
      intros s. rewrite Hin, elem_of_cons. split; [tauto|].
      intros [?|[->|?]]; tauto.
    + assert (NoDup (acc ++ [x])) as Hacc'.
      { apply NoDup_app. split; [done|]. split; [|apply NoDup_singleton].
        intros y Hy Hy'. apply list_elem_of_singleton in Hy' as ->. done. }
      destruct (IH _ Hacc') as [Hnd Hin]. split; [done|].
      intros s. rewrite Hin, elem_of_app, list_elem_of_singleton, elem_of_cons.
      tauto.
Qed.

Lemma Set_from_spec (xs : list string) :
  NoDup (Set_from xs) /\ forall s, s ∈ Set_from xs <-> s ∈ xs.
Proof.
  destruct (Set_from_fold xs [] (NoDup_nil_2)) as [Hnd Hin].
  split; [done|]. intros s. unfold Set_from. rewrite Hin, elem_of_nil. tauto.
Qed.

Lemma elem_of_filter_list {A} (P : A -> bool) (l : list A) (x : A) :
  x ∈ List.filter P l <-> x ∈ l /\ P x = true.
Proof. rewrite !list_elem_of_In. apply List.filter_In. Qed.

Lemma NoDup_filter_list {A} (P : A -> bool) (l : list A) :
  NoDup l -> NoDup (List.filter P l).
Proof.
  induction 1 as [|x l Hx _ IH]; cbn; [constructor|].
  destruct (P x); [|done]. constructor; [|done].
  rewrite elem_of_filter_list. tauto.
Qed.

Lemma fetchTopPairs_cases (binancePairs mexcPairs : list string) (self : t) :
  match fetchTopPairs binancePairs mexcPairs self with
  | Some self' =>
      NoDup (commonSymbols self') /\
      commonSymbols self' <> [] /\
      (forall s, s ∈ commonSymbols self' <-> passes binancePairs mexcPairs self s) /\
      self' = mk (config self) (binance_client self) (mexc_client self)
                 (commonSymbols self') (opportunitiesFound self)
                 (totalComparisons self)
  | None => forall s, ~ passes binancePairs mexcPairs self s
  end.
Proof.
  unfold fetchTopPairs, passes.
  destruct (Set_from_spec binancePairs) as [HndB HinB].
  destruct (Set_from_spec (map MexcFutures.toCommonFormat mexcPairs))
    as [_ HinM].
  set (common1 := List.filter _ (Set_from binancePairs)).
  set (common2 := if (0 <? _)%nat then _ else common1).
  assert (NoDup common1) as Hnd1 by (by apply NoDup_filter_list).
  assert (forall s, s ∈ common1 <->
            s ∈ binancePairs /\
            exists m, m ∈ mexcPairs /\ MexcFutures.toCommonFormat m = s) as Hin1.
  { intros s. unfold common1. rewrite elem_of_filter_list, HinB.
    rewrite bool_decide_eq_true, HinM, list_elem_of_fmap.
    split; intros [? (m & ? & ?)]; split; eauto. }
  assert (NoDup common2 /\ forall s, s ∈ common2 <->
            s ∈ common1 /\ s ∉ arbitrage_excludePairs (config self))
    as [Hnd2 Hin2].
  { unfold common2. destruct (0 <? _)%nat eqn:Hlen.
    - split; [by apply NoDup_filter_list|].
      intros s. rewrite elem_of_filter_list, negb_true_iff, bool_decide_eq_false.
      done.
    - split; [done|]. intros s.
      apply Nat.ltb_ge in Hlen.
      destruct (arbitrage_excludePairs (config self)); [|cbn in Hlen; lia].
      rewrite elem_of_nil. tauto. }
  destruct (length common2 =? 0)%nat eqn:Hempty.
  - apply Nat.eqb_eq in Hempty. apply length_zero_iff_nil in Hempty.
    intros s (Hb & Hm & Hx).
    assert (s ∈ common2) as Hs by (apply Hin2; split; [by apply Hin1|done]).
    rewrite Hempty in Hs. by apply elem_of_nil in Hs.
  - cbn. split; [done|]. split.
    + intros Heq. rewrite Heq in Hempty. done.
    + split; [|done]. intros s. rewrite Hin2, Hin1. tauto.
Qed.

End TrackedSet.

(** X18.  [fetchTopPairs] tracks exactly the symbols that Binance lists,
    that are the canonical form of a symbol MEXC lists, and that the
    configuration does not exclude, each once; it fails exactly when there
    is no such symbol, and it changes nothing else in the detector. *)
Theorem fetchTopPairs_characterisation
        (binancePairs mexcPairs : list string) (self : ArbitrageDetector.t) :
  (ArbitrageDetector.fetchTopPairs binancePairs mexcPairs self = None <->
   forall s, ~ passes binancePairs mexcPairs self s) /\
  forall self',
    ArbitrageDetector.fetchTopPairs binancePairs mexcPairs self = Some self' ->
    NoDup (ArbitrageDetector.commonSymbols self') /\
    (forall s, s ∈ ArbitrageDetector.commonSymbols self'
               <-> passes binancePairs mexcPairs self s) /\
    self' = ArbitrageDetector.mk
              (ArbitrageDetector.config self)
              (ArbitrageDetector.binance_client self)
              (ArbitrageDetector.mexc_client self)
              (ArbitrageDetector.commonSymbols self')
              (ArbitrageDetector.opportunitiesFound self)
              (ArbitrageDetector.totalComparisons self).
Proof.
  pose proof (fetchTopPairs_cases binancePairs mexcPairs self) as H.
  destruct (ArbitrageDetector.fetchTopPairs binancePairs mexcPairs self)
    as [self1|].
  - destruct H as (Hnd & Hne & Hin & Hself). split.
    + split; [done|]. intros Hnone. exfalso.
      destruct (ArbitrageDetector.commonSymbols self1) as [|s rest] eqn:E;
        [done|].
      apply (Hnone s), Hin. left.
    + intros self' [= <-]. done.
  - split; [done|]. intros self' [=].
Qed.

(** X19.  The set the detector tracks comes from the top of both venues:
    when [fetchTopPairs] succeeds on the answers of the two REST calls with
    a non-negative [topPairsCount], it tracks at most [topPairsCount]
    symbols, and each of them ends in [USDT] and is the canonical form of a
    MEXC symbol that ends in [_USDT]. *)
Theorem tracked_symbols_come_from_both_tops
        (topPairsCount : Z) (binanceResponse : Fetched (list Ticker24h))
        (mexcResponse : Fetched MexcFutures.MexcTickerResponse)
        (self self' : ArbitrageDetector.t) :
  (0 <= topPairsCount)%Z ->
  ArbitrageDetector.fetchTopPairsFrom
    topPairsCount binanceResponse mexcResponse self = Some self' ->
  (0 < length (ArbitrageDetector.commonSymbols self')
     <= Z.to_nat topPairsCount)%nat /\
  Forall (fun s =>
            JsString.endsWith "USDT" s = true /\
            exists m, JsString.endsWith "_USDT" m = true /\
                      MexcFutures.toCommonFormat m = s)
         (ArbitrageDetector.commonSymbols self').
Proof.
  intros Hpos. unfold ArbitrageDetector.fetchTopPairsFrom.
  pose proof (binance_top_spec topPairsCount binanceResponse) as Hb.
  pose proof (mexc_top_spec topPairsCount mexcResponse) as Hm.
  destruct (BinanceFutures.getTopPairs _ _) as [binancePairs|]; [|done].
  destruct (MexcFutures.getTopPairs _ _) as [mexcPairs|]; [|done].
  destruct Hb as [Hblen Hbin]. destruct Hm as [_ Hmin].
  intros Hfetch.
  pose proof (fetchTopPairs_cases (map symbol binancePairs)
                (map symbol mexcPairs) self) as H.
  rewrite Hfetch in H. destruct H as (Hnd & Hne & Hin & _).
  split.
  - split.
    + destruct (ArbitrageDetector.commonSymbols self'); [done|cbn; lia].
    + etrans; [|apply (Hblen Hpos)].
      rewrite <-(length_map symbol binancePairs).
      apply submseteq_length, NoDup_submseteq; [done|].
      intros s Hs. by apply Hin in Hs as [Hs _].
  - apply Forall_forall. intros s Hs.
    apply Hin in Hs as (Hsb & (m & Hmm & Hms) & _). split.
    + apply list_elem_of_fmap in Hsb as (p & -> & Hp).
      by eapply Forall_forall in Hbin.
    + exists m. split; [|done].
      apply list_elem_of_fmap in Hmm as (p & -> & Hp).
      by eapply Forall_forall in Hmin.
Qed.

Lemma tracked_symbols_come_from_both_tops_witness :
  exists self' : ArbitrageDetector.t,
    ArbitrageDetector.fetchTopPairsFrom
      2 (responded true Sample.binanceTickers)
      (responded true
         (MexcFutures.mkMexcTickerResponse true (Some Sample.mexcTickers)))
      (Sample.detector 0.3 true [] []) = Some self' /\
    ArbitrageDetector.commonSymbols self' = ["BTCUSDT"] /\
    (0 < length (ArbitrageDetector.commonSymbols self') <= 2)%nat.
Proof.
  eexists. split; [vm_compute; reflexivity|]. split; [reflexivity|].
  refine (proj1 (tracked_symbols_come_from_both_tops
                   2 (responded true Sample.binanceTickers)
                   (responded true
                      (MexcFutures.mkMexcTickerResponse
                         true (Some Sample.mexcTickers)))
                   (Sample.detector 0.3 true [] []) _ _ _)).
  - discriminate.
  - vm_compute. reflexivity.
Defined.

(** ** Slot decision engine: the calls it can make *)

Section SlotExtras.
Import ArbitrageDetector.
Local Open Scope Q_scope.

Lemma replacementLoop_shapes (te : TradeExecutor) (self : t) (o : ArbitrageOpportunity)
      (entries : list (string * PositionPair)) :
  (forall e, e ∈ entries -> e ∈ getOpenPositions te) ->
  let '(calls, returned) := replacementLoop self o entries in
  (returned = false /\ ledgerCalls calls = []) \/
  (returned = true /\
   (replaces te o self (ledgerCalls calls) \/ declines te o self (ledgerCalls calls))).
Proof.
  induction entries as [|[pairId p] rest IH]; intros Hsub; cbn; [by left|].
  assert (forall e, e ∈ rest -> e ∈ getOpenPositions te) as Hrest
    by (intros e He; apply Hsub; by right).
  specialize (IH Hrest).
  assert ((pairId, p) ∈ getOpenPositions te) as Hin by (apply Hsub; left).
  destruct (getCurrentPrices (pair_symbol p) self) as [prices|] eqn:E.
  - destruct (Num.ge _ _) eqn:Hge.
    + apply ge_true in Hge. destruct (Num.gt _ _) eqn:Hgt.
      * unfold Num.gt in Hgt. apply lt_true in Hgt.
        right. split; [done|]. left. by exists pairId, p, prices.
      * exact IH.
    + apply ge_false in Hge.
      right. split; [done|]. right. by exists pairId, p, prices.
  - destruct (replacementLoop self o rest) as [calls returned]. exact IH.
Qed.

Lemma replacementLoop_nothing_to_replace self o entries :
  Forall (fun e => forall quoted,
            getCurrentPrices (pair_symbol (snd e)) self = Some quoted ->
            notifications_minSpreadToNotify (config self)
              <= avgPnl self (snd e) quoted /\
            opp_profitPercent o <= avgPnl self (snd e) quoted)
         entries ->
  replacementLoop self o entries
  = (map (fun e => logger_warn (pair_symbol (snd e)))
         (List.filter (unpriced self) entries), false).
Proof.
  induction 1 as [|[pairId p] rest Hp _ IH]; cbn; [done|].
  unfold unpriced at 1. cbn in *.
  destruct (getCurrentPrices (pair_symbol p) self) as [quoted|].
  - destruct (Hp quoted eq_refl) as [H1 H2].
    apply ge_true in H1. rewrite H1.
    unfold Num.gt. apply lt_false in H2. by rewrite H2.
  - by rewrite IH.
Qed.

Lemma replacementLoop_mayCall self o entries :
  Forall (mayCall o) (replacementLoop self o entries).1.
Proof.
  induction entries as [|[pairId p] rest IH]; cbn; [constructor|].
  destruct (getCurrentPrices (pair_symbol p) self) as [prices|].
  - destruct (Num.ge _ _); [destruct (Num.gt _ _)|]; [|done|];
      repeat constructor; try done; by intros ? [= <-].
  - destruct (replacementLoop self o rest) as [calls returned]. cbn in *.
    constructor; [|done]. by split.
Qed.

Lemma handleNewOpportunity_mayCall te o self :
  Forall (mayCall o) (handleNewOpportunity te o self).
Proof.
  unfold handleNewOpportunity.
  destruct (symbolAlreadyOpen _ _); [constructor|].
  destruct (canOpenNewPosition te).
  { repeat constructor; try done. by intros ? [= <-]. }
  destruct (trading_closeOnNewOpportunity (config self)).
  - pose proof (replacementLoop_mayCall self o (getOpenPositions te)) as H.
    destruct (replacementLoop self o (getOpenPositions te)) as [calls returned].
    cbn in H. destruct returned; [done|].
    apply Forall_app. split; [done|]. repeat constructor; done.
  - repeat constructor; done.
Qed.

Lemma no_update_calls o calls :
  Forall (mayCall o) calls -> List.filter is_update_call calls = [].
Proof.
  induction 1 as [|c calls [Hc _] _ IH]; [done|]. cbn. by rewrite Hc.
Qed.

End SlotExtras.

(** X20.  Whatever the ledger holds, the slot decision engine does one of
    four things with an opportunity.  It makes no call at all, when the
    instrument already has an open pairing.  It opens the opportunity and
    does nothing else, when it has none and a slot is free.  With no free
    slot and replacement enabled, it either closes one open pairing of the
    ledger that has current prices, is at or above the notify threshold and
    is less profitable than the opportunity, at those prices, and then opens
    the opportunity; or it records the opportunity as skipped for
    [POSITION_NOT_PROFITABLE] with the current profit of an open pairing
    that is below the threshold.  Otherwise it records it as skipped for
    [NO_FREE_SLOTS].  It never closes without opening, and never opens or
    closes more than once. *)
Theorem handleNewOpportunity_call_shapes
        (te : TradeExecutor) (o : ArbitrageOpportunity)
        (self : ArbitrageDetector.t) :
  let calls := ledgerCalls (ArbitrageDetector.handleNewOpportunity te o self) in
  (ArbitrageDetector.symbolAlreadyOpen (opp_symbol o) (getOpenPositions te) = true /\
   ArbitrageDetector.handleNewOpportunity te o self = []) \/
  (ArbitrageDetector.symbolAlreadyOpen (opp_symbol o) (getOpenPositions te) = false /\
   ((canOpenNewPosition te = true /\
     ArbitrageDetector.handleNewOpportunity te o self = [openPositionPair o]) \/
    (canOpenNewPosition te = false /\
     ((trading_closeOnNewOpportunity (ArbitrageDetector.config self) = true /\
       (replaces te o self calls \/ declines te o self calls)) \/
      calls = [recordSkippedOpportunity o NO_FREE_SLOTS None None None])))).
Proof.
  intros calls. unfold calls, ArbitrageDetector.handleNewOpportunity.
  destruct (ArbitrageDetector.symbolAlreadyOpen _ _); [by left|]. right. split; [done|].
  destruct (canOpenNewPosition te); [by left|]. right. split; [done|].
  destruct (trading_closeOnNewOpportunity (ArbitrageDetector.config self)); [|by right].
  pose proof (replacementLoop_shapes te self o (getOpenPositions te)
                (fun e He => He)) as H.
  destruct (ArbitrageDetector.replacementLoop self o (getOpenPositions te)) as [cs returned].
  destruct H as [[-> Hcs]|[-> Hcs]].
  - right. by rewrite ledgerCalls_app, Hcs.
  - by left.
Qed.

(** X21.  When every slot is taken, the instrument has no open pairing, and
    every open pairing either has no current prices or is at or above the
    notify threshold and at least as profitable as the opportunity, the
    engine logs one warning per unpriced pairing, in ledger order (none when
    replacement is disabled), then records the opportunity as skipped for
    [NO_FREE_SLOTS], and does nothing else. *)
Theorem nothing_to_replace_is_no_free_slots
        (te : TradeExecutor) (o : ArbitrageOpportunity)
        (self : ArbitrageDetector.t) :
  ArbitrageDetector.symbolAlreadyOpen (opp_symbol o) (getOpenPositions te) = false ->
  canOpenNewPosition te = false ->
  Forall (fun e => forall quoted,
            ArbitrageDetector.getCurrentPrices (pair_symbol (snd e)) self = Some quoted ->
            (notifications_minSpreadToNotify (ArbitrageDetector.config self)
              <= ArbitrageDetector.avgPnl self (snd e) quoted)%Q /\
            (opp_profitPercent o
               <= ArbitrageDetector.avgPnl self (snd e) quoted)%Q)
         (getOpenPositions te) ->
  ArbitrageDetector.handleNewOpportunity te o self
  = ((if trading_closeOnNewOpportunity (ArbitrageDetector.config self)
      then map (fun e => logger_warn (pair_symbol (snd e)))
               (List.filter (unpriced self) (getOpenPositions te))
      else [])
     ++ [recordSkippedOpportunity o NO_FREE_SLOTS None None None])%list.
Proof.
  intros Hsym Hfull Hall. unfold ArbitrageDetector.handleNewOpportunity. rewrite Hsym, Hfull.
  destruct (trading_closeOnNewOpportunity (ArbitrageDetector.config self)); [|done].
  by rewrite (replacementLoop_nothing_to_replace _ _ _ Hall).
Qed.

Lemma nothing_to_replace_is_no_free_slots_witness :
  ArbitrageDetector.handleNewOpportunity
    (Sample.full [Sample.pairing "pair-xrp" "XRPUSDT" 0.5 0.51;
                  Sample.ethPairing])
    (Sample.opportunity "BTCUSDT" 1) (Sample.quoted true)
  = [logger_warn "XRPUSDT";
     recordSkippedOpportunity (Sample.opportunity "BTCUSDT" 1)
       NO_FREE_SLOTS None None None].
Proof.
  apply (nothing_to_replace_is_no_free_slots
           (Sample.full [Sample.pairing "pair-xrp" "XRPUSDT" 0.5 0.51;
                         Sample.ethPairing])
           (Sample.opportunity "BTCUSDT" 1) (Sample.quoted true)).
  - reflexivity.
  - reflexivity.
  - apply Forall_cons. split.
    + intros quoted H. vm_compute in H. discriminate H.
    + apply Forall_cons. split; [|apply Forall_nil_2].
      intros quoted H. vm_compute in H. injection H as <-.
      split; vm_compute; discriminate.
Defined.

(** ** The detector on the feed: caches, counters and pairings *)

Section FeedExtras.
Import ArbitrageDetector.

Lemma checkArbitrage_frame te now p1 p2 sym self :
  let '(self', calls) := checkArbitrage te now p1 p2 sym self in
  config self' = config self /\
  binance_client self' = binance_client self /\
  mexc_client self' = mexc_client self /\
  commonSymbols self' = commonSymbols self /\
  totalComparisons self' = S (totalComparisons self) /\
  opportunitiesFound self'
    = (opportunitiesFound self + length (List.filter is_update_call calls))%nat /\
  (length (List.filter is_update_call calls) <= 1)%nat.
Proof.
  unfold checkArbitrage.
  destruct (detectOpportunity _ _ _ _ _) as [o|]; cbn.
  - rewrite List.filter_app, length_app.
    match goal with
    | |- context [List.filter is_update_call (if ?b then ?h else [])] =>
        assert (List.filter is_update_call (if b then h else []) = []) as ->
    end.
    { destruct (trading_enabled (config self)); [|done].
      eapply no_update_calls, handleNewOpportunity_mayCall. }
    cbn. repeat split; try done; lia.
  - repeat split; try done; lia.
Qed.

Lemma feed_step_frame self ev :
  let '(self', calls) := feed_step self ev in
  config self' = config self /\
  commonSymbols self' = commonSymbols self /\
  (totalComparisons self <= totalComparisons self' <= S (totalComparisons self))%nat /\
  opportunitiesFound self'
    = (opportunitiesFound self + length (List.filter is_update_call calls))%nat /\
  (opportunitiesFound self' - opportunitiesFound self
     <= totalComparisons self' - totalComparisons self)%nat.
Proof.
  destruct ev as [te now d msg|te now d msg]; cbn.
  - unfold onBinanceMessage.
    destruct (BinanceFutures.onMessage now msg (binance_client self))
      as [client outcome].
    destruct outcome as [price| | |]; cbn; try (repeat split; try done; lia).
    unfold onPriceUpdate.
    destruct (otherPrice price _) as [other|]; cbn;
      [|repeat split; try done; lia].
    match goal with
    | |- context [checkArbitrage ?a ?b ?c ?e ?f ?g] =>
        pose proof (checkArbitrage_frame a b c e f g) as H;
        destruct (checkArbitrage a b c e f g) as [self' calls]
    end.
    cbn in H. destruct H as (-> & _ & _ & -> & -> & -> & Hle).
    repeat split; try done; lia.
  - unfold onMexcMessage.
    destruct (MexcFutures.onMessage now msg (mexc_client self))
      as [client outcome].
    destruct outcome as [price| | |]; cbn; try (repeat split; try done; lia).
    unfold onPriceUpdate.
    destruct (otherPrice price _) as [other|]; cbn;
      [|repeat split; try done; lia].
    match goal with
    | |- context [checkArbitrage ?a ?b ?c ?e ?f ?g] =>
        pose proof (checkArbitrage_frame a b c e f g) as H;
        destruct (checkArbitrage a b c e f g) as [self' calls]
    end.
    cbn in H. destruct H as (-> & _ & _ & -> & -> & -> & Hle).
    repeat split; try done; lia.
Qed.

Lemma tagged_insert venue cache p :
  tagged venue cache -> tp_exchange p = venue ->
  tagged venue (<[tp_symbol p := p]> cache).
Proof.
  intros Hc Hp key q. rewrite lookup_insert. case_decide.
  - intros [= <-]. by subst.
  - apply Hc.
Qed.

Lemma onPriceUpdate_clients te now price self :
  binance_client (onPriceUpdate te now price self).1 = binance_client self /\
  mexc_client (onPriceUpdate te now price self).1 = mexc_client self.
Proof.
  unfold onPriceUpdate. destruct (otherPrice price self) as [other|]; [|done].
  pose proof (checkArbitrage_frame te now price other
                (MexcFutures.toCommonFormat (tp_symbol price)) self) as H.
  destruct (checkArbitrage _ _ _ _ _ _) as [self' calls]. cbn. tauto.
Qed.

Lemma feed_step_tagged self ev :
  tagged binance (BinanceFutures.priceCache (binance_client self)) ->
  tagged mexc (MexcFutures.priceCache (mexc_client self)) ->
  tagged binance (BinanceFutures.priceCache (binance_client (feed_step self ev).1)) /\
  tagged mexc (MexcFutures.priceCache (mexc_client (feed_step self ev).1)).
Proof.
  intros Hb Hm. destruct ev as [te now d msg|te now d msg]; cbn.
  - unfold onBinanceMessage.
    destruct msg as [| |ticker]; cbn; try done.
    match goal with |- context [onPriceUpdate ?a ?b ?c ?e] =>
      destruct (onPriceUpdate_clients a b c e) as [-> ->] end.
    cbn. split; [|done]. by apply tagged_insert.
  - unfold onMexcMessage.
    destruct msg as [|[ticker|]|[|first rest]|]; cbn; try done.
    match goal with |- context [onPriceUpdate ?a ?b ?c ?e] =>
      destruct (onPriceUpdate_clients a b c e) as [-> ->] end.
    cbn. split; [done|]. by apply tagged_insert.
Qed.

Lemma onPriceUpdate_opens te now price self venue :
  tp_exchange price = venue ->
  tagged binance (BinanceFutures.priceCache (binance_client self)) ->
  tagged mexc (MexcFutures.priceCache (mexc_client self)) ->
  forall o, openPositionPair o ∈ (onPriceUpdate te now price self).2 ->
    opp_buyExchange o <> opp_sellExchange o /\
    (opp_buyPrice o < opp_sellPrice o)%Q /\
    opp_symbol o = MexcFutures.toCommonFormat (tp_symbol price).
Proof.
  intros Hv Hb Hm o. unfold onPriceUpdate.
  destruct (otherPrice price self) as [other|] eqn:Hother; cbn;
    [|by intros ?%elem_of_nil].
  assert (tp_exchange other <> tp_exchange price) as Hne.
  { unfold otherPrice in Hother. destruct (tp_exchange price).
    - apply Hm in Hother as [_ ->]. done.
    - apply Hb in Hother as [_ ->]. done. }
  unfold checkArbitrage.
  destruct (detectOpportunity _ _ _ _ _) as [o'|] eqn:Hdet; cbn;
    [|by intros ?%elem_of_nil].
  intros Hin. apply elem_of_app in Hin as [Hin|Hin].
  - assert (o = o') as ->.
    { destruct (trading_enabled _); [|by apply elem_of_nil in Hin].
      pose proof (proj1 (Forall_forall _ _)
                    (handleNewOpportunity_mayCall _ _ _) _ Hin) as [_ Ho].
      by apply Ho. }
    unfold detectOpportunity in Hdet.
    destruct (direction price other) as [[[[be se] b] s]|] eqn:Hdir; [|done].
    destruct (Num.lt _ _); [done|]. injection Hdet as <-. cbn.
    pose proof (direction_buys_low _ _ _ _ _ _ Hdir) as Hbs.
    split; [|done].
    unfold direction in Hdir.
    destruct (Num.lt (tp_ask price) (tp_bid other)).
    + injection Hdir as <- <- _ _. congruence.
    + destruct (Num.lt (tp_ask other) (tp_bid price)); [|done].
      injection Hdir as <- <- _ _. congruence.
  - apply list_elem_of_singleton in Hin. done.
Qed.

Lemma feed_step_opens self ev :
  tagged binance (BinanceFutures.priceCache (binance_client self)) ->
  tagged mexc (MexcFutures.priceCache (mexc_client self)) ->
  forall o, openPositionPair o ∈ (feed_step self ev).2 ->
    opp_buyExchange o <> opp_sellExchange o /\
    (opp_buyPrice o < opp_sellPrice o)%Q.
Proof.
  intros Hb Hm o. destruct ev as [te now d msg|te now d msg]; cbn.
  - unfold onBinanceMessage.
    destruct msg as [| |ticker]; cbn; try by intros ?%elem_of_nil.
    intros Hin. eapply onPriceUpdate_opens in Hin; [tauto|done|..]; cbn.
    + by apply tagged_insert.
    + done.
  - unfold onMexcMessage.
    destruct msg as [|[ticker|]|[|first rest]|]; cbn;
      try by intros ?%elem_of_nil.
    intros Hin. eapply onPriceUpdate_opens in Hin; [tauto|done|..]; cbn.
    + done.
    + by apply tagged_insert.
Qed.

Lemma feed_step_cache venue s self ev :
  cacheOf venue (feed_step self ev).1 !! s =
  match deliveredPrice ev with
  | Some p =>
      if bool_decide (tp_exchange p = venue /\ tp_symbol p = s) then Some p
      else cacheOf venue self !! s
  | None => cacheOf venue self !! s
  end.
Proof.
  destruct ev as [te now d msg|te now d msg]; cbn.
  - unfold onBinanceMessage.
    destruct msg as [| |ticker]; cbn; try done.
    match goal with |- context [onPriceUpdate ?a ?b ?c ?e] =>
      destruct (onPriceUpdate_clients a b c e) as [Hb Hm] end.
    destruct venue; cbn; rewrite ?Hb, ?Hm; cbn.
    + rewrite lookup_insert.
      destruct (decide _) as [Hk|Hk], (bool_decide _) eqn:Hq; try done.
      * apply bool_decide_eq_false in Hq. by destruct Hq.
      * apply bool_decide_eq_true in Hq as [_ Hq]. by destruct Hk.
    + destruct (bool_decide _) eqn:Hq; [|done].
      by apply bool_decide_eq_true in Hq as [Hq _].
  - unfold onMexcMessage.
    destruct msg as [|[ticker|]|[|first rest]|]; cbn; try done.
    match goal with |- context [onPriceUpdate ?a ?b ?c ?e] =>
      destruct (onPriceUpdate_clients a b c e) as [Hb Hm] end.
    destruct venue; cbn; rewrite ?Hb, ?Hm; cbn.
    + destruct (bool_decide _) eqn:Hq; [|done].
      by apply bool_decide_eq_true in Hq as [Hq _].
    + rewrite lookup_insert.
      destruct (decide _) as [Hk|Hk], (bool_decide _) eqn:Hq; try done.
      * apply bool_decide_eq_false in Hq. by destruct Hq.
      * apply bool_decide_eq_true in Hq as [_ Hq]. by destruct Hk.
Qed.

End FeedExtras.

(** X22.  Over any sequence of stream messages the detector's counters keep
    step with the feed: the configuration and the tracked symbols never
    change, the number of comparisons grows by at most one per message, the
    number of opportunities found grows by exactly the number of
    [updatePositionSpread] calls made, and it never grows by more than the
    number of comparisons does. *)
Theorem counters_track_the_feed (evs : list FeedEvent) :
  forall self : ArbitrageDetector.t,
    let '(self', calls) := run_feed evs self in
    ArbitrageDetector.config self' = ArbitrageDetector.config self /\
    ArbitrageDetector.commonSymbols self' = ArbitrageDetector.commonSymbols self /\
    (ArbitrageDetector.totalComparisons self <= ArbitrageDetector.totalComparisons self'
       <= ArbitrageDetector.totalComparisons self + length evs)%nat /\
    ArbitrageDetector.opportunitiesFound self'
      = (ArbitrageDetector.opportunitiesFound self + length (List.filter is_update_call calls))%nat /\
    (ArbitrageDetector.opportunitiesFound self' - ArbitrageDetector.opportunitiesFound self
       <= ArbitrageDetector.totalComparisons self' - ArbitrageDetector.totalComparisons self)%nat.
Proof.
  induction evs as [|ev evs IH]; intros self; cbn.
  - repeat split; try done; lia.
  - pose proof (feed_step_frame self ev) as Hstep.
    destruct (feed_step self ev) as [self1 calls1].
    specialize (IH self1).
    destruct (run_feed evs self1) as [self2 calls2].
    destruct Hstep as (Hc1 & Hs1 & Ht1 & Ho1 & Hd1).
    destruct IH as (Hc2 & Hs2 & Ht2 & Ho2 & Hd2).
    rewrite List.filter_app, length_app.
    repeat split; try congruence; lia.
Qed.

(** X23.  The price caches stay in order: when every cached quote is filed
    under its own symbol and carries the name of its venue, the same holds
    after any sequence of stream messages. *)
Theorem caches_stay_tagged (evs : list FeedEvent) :
  forall self : ArbitrageDetector.t,
    tagged binance (BinanceFutures.priceCache (ArbitrageDetector.binance_client self)) ->
    tagged mexc (MexcFutures.priceCache (ArbitrageDetector.mexc_client self)) ->
    tagged binance
      (BinanceFutures.priceCache (ArbitrageDetector.binance_client (run_feed evs self).1)) /\
    tagged mexc (MexcFutures.priceCache (ArbitrageDetector.mexc_client (run_feed evs self).1)).
Proof.
  induction evs as [|ev evs IH]; intros self Hb Hm; cbn; [done|].
  destruct (feed_step_tagged self ev Hb Hm) as [Hb1 Hm1].
  destruct (feed_step self ev) as [self1 calls1]. cbn in *.
  specialize (IH self1 Hb1 Hm1).
  by destruct (run_feed evs self1) as [self2 calls2].
Qed.

Lemma caches_stay_tagged_witness :
  tagged binance
    (BinanceFutures.priceCache
       (ArbitrageDetector.binance_client
          (run_feed Sample.feed (Sample.detector 0.3 true [] [])).1)) /\
  tagged mexc
    (MexcFutures.priceCache
       (ArbitrageDetector.mexc_client
          (run_feed Sample.feed (Sample.detector 0.3 true [] [])).1)).
Proof.
  apply (caches_stay_tagged Sample.feed (Sample.detector 0.3 true [] []));
    intros key p H; cbn in H; by rewrite lookup_empty in H.
Defined.

(** X24.  A pairing always spans both venues: starting from caches in order,
    every opportunity the detector asks the ledger to open, over any
    sequence of stream messages, buys on one venue and sells on the other,
    and buys below the price it sells at. *)
Theorem pairings_span_both_venues (evs : list FeedEvent) :
  forall self : ArbitrageDetector.t,
    tagged binance (BinanceFutures.priceCache (ArbitrageDetector.binance_client self)) ->
    tagged mexc (MexcFutures.priceCache (ArbitrageDetector.mexc_client self)) ->
    forall o, openPositionPair o ∈ (run_feed evs self).2 ->
      opp_buyExchange o <> opp_sellExchange o /\
      (opp_buyPrice o < opp_sellPrice o)%Q.
Proof.
  induction evs as [|ev evs IH]; intros self Hb Hm o; cbn;
    [by intros ?%elem_of_nil|].
  pose proof (feed_step_opens self ev Hb Hm o) as Hstep.
  destruct (feed_step_tagged self ev Hb Hm) as [Hb1 Hm1].
  destruct (feed_step self ev) as [self1 calls1]. cbn in *.
  specialize (IH self1 Hb1 Hm1 o).
  destruct (run_feed evs self1) as [self2 calls2]. cbn in *.
  intros [Hin|Hin]%elem_of_app; auto.
Qed.

Lemma pairings_span_both_venues_witness :
  exists o : ArbitrageOpportunity,
    openPositionPair o
      ∈ (run_feed Sample.feed (Sample.detector 0.3 true [] [])).2 /\
    opp_buyExchange o <> opp_sellExchange o /\
    (opp_buyPrice o < opp_sellPrice o)%Q.
Proof.
  assert (exists o, openPositionPair o
            ∈ (run_feed Sample.feed (Sample.detector 0.3 true [] [])).2)
    as [o Ho] by (eexists; vm_compute; left).
  exists o. split; [exact Ho|].
  apply (pairings_span_both_venues
           Sample.feed (Sample.detector 0.3 true [] [])); [| |exact Ho];
    intros key p H; cbn in H; by rewrite lookup_empty in H.
Defined.

(** X25.  The latest quote wins: after any sequence of stream messages, a
    venue's cache holds for a symbol the last price that venue delivered for
    it in the sequence, and what it held before when the venue delivered
    none. *)
Theorem latest_quote_wins
        (venue : ExchangeName) (s : string) (evs : list FeedEvent) :
  forall self : ArbitrageDetector.t,
    cacheOf venue (run_feed evs self).1 !! s =
    match lastQuote venue s evs with
    | Some p => Some p
    | None => cacheOf venue self !! s
    end.
Proof.
  unfold lastQuote.
  induction evs as [|ev evs IH]; intros self; cbn; [done|].
  pose proof (feed_step_cache venue s self ev) as Hstep.
  destruct (feed_step self ev) as [self1 calls1]. cbn in Hstep.
  specialize (IH self1).
  destruct (run_feed evs self1) as [self2 calls2]. cbn in *.
  rewrite IH, Hstep.
  destruct (deliveredPrice ev) as [p|]; cbn; [|done].
  case_bool_decide; [|done].
  rewrite last_cons. by destruct (last _).
Qed.

(** X26.  For an instrument whose base has no underscore and whose
    canonical symbol has its first [USDT] right after the base, the quotes of
    the two venues meet: a Binance tick on the canonical symbol is compared
    with the quote MEXC has filed under the MEXC spelling, a MEXC tick on the
    MEXC spelling with the quote Binance has filed under the canonical
    symbol, and both comparisons run under the canonical symbol. *)
Theorem quotes_meet_on_well_formed_symbols
        (base : string) (self : ArbitrageDetector.t) (te : TradeExecutor)
        (now : Z) (other : TickerPrice) :
  JsString.includes "_" base = false ->
  JsString.indexOf "USDT" (base +:+ "USDT") = Some (String.length base) ->
  (forall price,
     tp_exchange price = binance -> tp_symbol price = base +:+ "USDT" ->
     MexcFutures.getPrice (base +:+ "_USDT") (ArbitrageDetector.mexc_client self) = Some other ->
     ArbitrageDetector.onPriceUpdate te now price self
     = ArbitrageDetector.checkArbitrage te now price other (base +:+ "USDT") self) /\
  (forall price,
     tp_exchange price = mexc -> tp_symbol price = base +:+ "_USDT" ->
     BinanceFutures.getPrice (base +:+ "USDT") (ArbitrageDetector.binance_client self) = Some other ->
     ArbitrageDetector.onPriceUpdate te now price self
     = ArbitrageDetector.checkArbitrage te now price other (base +:+ "USDT") self).
Proof.
  intros Hbase Hfirst.
  assert (MexcFutures.toCommonFormat (base +:+ "_USDT") = base +:+ "USDT") as Hc.
  { unfold MexcFutures.toCommonFormat.
    change (base +:+ "_USDT") with (base +:+ "_" +:+ "USDT").
    rewrite (replace_at_index "_" "" base "USDT")
      by (by apply indexOf_char_after).
    by rewrite append_nil_l. }
  assert (MexcFutures.toMexcFormat (base +:+ "USDT") = base +:+ "_USDT") as Hm.
  { unfold MexcFutures.toMexcFormat.
    change (base +:+ "USDT") with (base +:+ "USDT" +:+ "") in Hfirst |- *.
    by rewrite (replace_at_index "USDT" "_USDT" base ""). }
  assert (MexcFutures.toCommonFormat (base +:+ "USDT") = base +:+ "USDT") as Hid.
  { unfold MexcFutures.toCommonFormat. apply replace_absent.
    destruct (JsString.indexOf "_" (base +:+ "USDT")) as [i|] eqn:E; [|done].
    exfalso. revert E Hbase. clear. unfold JsString.includes.
    revert i. induction base as [|c base IH]; intros i.
    - by cbn.
    - rewrite append_cons, (indexOf_unfold "_" (String c _)),
        (indexOf_unfold "_" (String c base)). cbn [JsString.strip_prefix].
      destruct (Ascii.eqb _ c); [done|].
      destruct (JsString.indexOf "_" (base +:+ "USDT")) as [j|]; [|done].
      intros _. destruct (JsString.indexOf "_" base); [done|].
      intros _. by eapply IH. }
  split; intros price Hex Hsym Hother;
    unfold ArbitrageDetector.onPriceUpdate, ArbitrageDetector.otherPrice; rewrite Hex, Hsym.
  - by rewrite Hid, Hm, Hother.
  - by rewrite Hc, Hother.
Qed.

Lemma quotes_meet_on_well_formed_symbols_witness :
  ArbitrageDetector.onPriceUpdate
    (mkTradeExecutor [] true) 1700000000001 Sample.btcBinance
    (Sample.detector 0.3 true [] [Sample.btcMexc])
  = ArbitrageDetector.checkArbitrage
      (mkTradeExecutor [] true) 1700000000001 Sample.btcBinance
      Sample.btcMexc "BTCUSDT"
      (Sample.detector 0.3 true [] [Sample.btcMexc]).
Proof.
  refine (proj1 (quotes_meet_on_well_formed_symbols
                   "BTC" (Sample.detector 0.3 true [] [Sample.btcMexc])
                   (mkTradeExecutor [] true) 1700000000001 Sample.btcMexc
                   eq_refl eq_refl)
                Sample.btcBinance eq_refl eq_refl eq_refl).
Defined.
